(** * Shallow embedding of the mmetl Slack transformer (services/slack)

    The Go package keeps intermediate posts behind pointers
    ([*IntermediatePost]).  We model that with an explicit heap of post
    objects indexed by locations; the thread store maps thread identifiers
    to locations, so a post returned by [LookupThread] is shared with the
    store and in-place mutation ([rootPost.Replies = append(...)]) is a heap
    update visible through every alias. *)

From Stdlib Require Import ZArith Lia Ascii.
From stdpp Require Import base gmap strings list fin_maps.

Abbreviation loc := nat (only parsing).

(* ------------------------------------------------------------------ *)
(** ** int64 arithmetic *)

Definition int64_min : Z := (- 2 ^ 63)%Z.
Definition int64_max : Z := (2 ^ 63 - 1)%Z.

(** Two's complement wrap-around of a mathematical integer into int64. *)
Definition wrap64 (z : Z) : Z := ((z + 2 ^ 63) mod 2 ^ 64 - 2 ^ 63)%Z.

Definition is_int64 (z : Z) : Prop := (int64_min <= z <= int64_max)%Z.

(* ------------------------------------------------------------------ *)
(** ** Data model *)

(** [model.ChannelType] *)
Inductive ChannelType := ChannelTypeOpen | ChannelTypePrivate | ChannelTypeDirect | ChannelTypeGroup.

#[global] Instance ChannelType_eq_dec : EqDecision ChannelType.
Proof. solve_decision. Defined.

(** [model.SlackAttachment] is kept opaque, as the JSON text of one attachment. *)
Abbreviation SlackAttachment := string (only parsing).

Record SlackFile := mkSlackFile { sf_Id : string; sf_Name : string }.

Record SlackComment := mkSlackComment { scm_User : string; scm_Comment : string }.

(** The fields of [SlackPost] read by [TransformPosts] and [AddPostToThreads]. *)
Record SlackPost := mkSlackPost {
  sp_User : string;
  sp_Text : string;
  sp_TimeStamp : string;
  sp_ThreadTS : string;
  sp_Type : string;
  sp_SubType : string;
  sp_File : option SlackFile;              (* nil pointer = None *)
  sp_Files : option (list SlackFile);      (* nil slice = None *)
  sp_Attachments : list SlackAttachment;
  sp_Comment : option SlackComment
}.

(** [IntermediateChannel] *)
Record IntermediateChannel := mkIntermediateChannel {
  ic_Id : string;
  ic_OriginalName : string;
  ic_Name : string;
  ic_DisplayName : string;
  ic_Members : list string;
  ic_MembersUsernames : list string;
  ic_Purpose : string;
  ic_Header : string;
  ic_Topic : string;
  ic_Type : ChannelType
}.

(** [IntermediateUser] *)
Record IntermediateUser := mkIntermediateUser {
  iu_Id : string;
  iu_Username : string;
  iu_FirstName : string;
  iu_LastName : string;
  iu_Position : string;
  iu_Email : string;
  iu_Password : string;
  iu_Memberships : list string;
  iu_AuthData : option string;
  iu_AuthService : string
}.

(** [IntermediatePost]; [Props] is either nil or the map
    [{"attachments": ...}] built by [TransformPosts]; [Replies] holds
    pointers. *)
Record IntermediatePost := mkIntermediatePost {
  ip_User : string;
  ip_Channel : string;
  ip_Message : string;
  ip_Props : option (list SlackAttachment);
  ip_CreateAt : Z;
  ip_Attachments : list string;
  ip_Replies : list loc;
  ip_IsDirect : bool;
  ip_ChannelMembers : list string
}.

Definition newIntermediatePost (user channel message : string) (createAt : Z) : IntermediatePost :=
  mkIntermediatePost user channel message None createAt [] [] false [].

Definition set_CreateAt (c : Z) (p : IntermediatePost) : IntermediatePost :=
  mkIntermediatePost (ip_User p) (ip_Channel p) (ip_Message p) (ip_Props p) c
    (ip_Attachments p) (ip_Replies p) (ip_IsDirect p) (ip_ChannelMembers p).

Definition set_Message (m : string) (p : IntermediatePost) : IntermediatePost :=
  mkIntermediatePost (ip_User p) (ip_Channel p) m (ip_Props p) (ip_CreateAt p)
    (ip_Attachments p) (ip_Replies p) (ip_IsDirect p) (ip_ChannelMembers p).

Definition set_Props (pr : option (list SlackAttachment)) (p : IntermediatePost) : IntermediatePost :=
  mkIntermediatePost (ip_User p) (ip_Channel p) (ip_Message p) pr (ip_CreateAt p)
    (ip_Attachments p) (ip_Replies p) (ip_IsDirect p) (ip_ChannelMembers p).

Definition set_Attachments (a : list string) (p : IntermediatePost) : IntermediatePost :=
  mkIntermediatePost (ip_User p) (ip_Channel p) (ip_Message p) (ip_Props p) (ip_CreateAt p)
    a (ip_Replies p) (ip_IsDirect p) (ip_ChannelMembers p).

Definition set_Replies (r : list loc) (p : IntermediatePost) : IntermediatePost :=
  mkIntermediatePost (ip_User p) (ip_Channel p) (ip_Message p) (ip_Props p) (ip_CreateAt p)
    (ip_Attachments p) r (ip_IsDirect p) (ip_ChannelMembers p).

Definition set_Direct (d : bool) (m : list string) (p : IntermediatePost) : IntermediatePost :=
  mkIntermediatePost (ip_User p) (ip_Channel p) (ip_Message p) (ip_Props p) (ip_CreateAt p)
    (ip_Attachments p) (ip_Replies p) d m.

#[local] Set Warnings "-register-all".

(** The JSON document of a post as kept by the cache backend: the post with
    its full reply tree inline. *)
Inductive PostJSON :=
  mkPostJSON (User Channel Message : string) (Props : option (list SlackAttachment))
    (CreateAt : Z) (Attachments : list string) (Replies : list PostJSON)
    (IsDirect : bool) (ChannelMembers : list string).

(** The process heap of post objects. *)
Record Heap := mkHeap { h_posts : gmap loc IntermediatePost; h_next : loc }.

Definition alloc (p : IntermediatePost) (h : Heap) : loc * Heap :=
  (h_next h, mkHeap (<[h_next h := p]> (h_posts h)) (S (h_next h))).

(** [*l = f( *l )]; a nil or dangling pointer leaves the heap unchanged. *)
Definition modify (l : loc) (f : IntermediatePost -> IntermediatePost) (h : Heap) : Heap :=
  mkHeap (alter f l (h_posts h)) (h_next h).

(** Log output. [log.Printf]/[log.Println] of the package-level logrus
    logger and [t.Logger.Info] write at info level; [t.Logger.Debugf] at
    debug level; [t.Logger.Warn(f)] at warning level. The formatted
    argument of a [%+v] is carried as is. *)
Inductive Level := LevelInfo | LevelWarn | LevelError | LevelDebug.
Inductive LogLine := LogLn (lvl : Level) (msg : string) (arg : option SlackPost).

(* ------------------------------------------------------------------ *)
(** ** Thread storage *)

(** Modelled from the spec: the [ThreadsStorage] interface
    ([HasThread], [LookupThread], [StoreThread], [GetChangedThreads]) and
    its two implementations [newMemoryStorage] and [newRedisStorage], whose
    code is not among the sources (only their test [TestRedisStorage] is).
    Following spec 4.1 and 6: the memory variant is a map from thread
    identifier to post pointer; the cache-backed variant keeps a local
    write cache of the same shape in front of a remote key-value store
    whose keys are [<channel-name>:<thread-timestamp>] and whose values are
    JSON documents of posts with their reply trees. [StoreThread] writes the
    local cache only; a [LookupThread] miss in the local cache fetches the
    remote document, deserialises it into fresh post objects and caches the
    result locally. The remote store is whatever other instances have put
    there; this contract never writes it. [GetChangedThreads] returns the
    posts of the local map (in map order, which the spec leaves
    arbitrary). *)
Inductive Backend :=
  | MemoryBackend
  | RedisBackend (channelName : string) (remote : gmap string PostJSON).

Record ThreadsStorage := mkThreadsStorage { ts_backend : Backend; ts_local : gmap string loc }.

Definition newMemoryStorage : ThreadsStorage := mkThreadsStorage MemoryBackend ∅.

Definition newRedisStorage (channelName : string) (remote : gmap string PostJSON) : ThreadsStorage :=
  mkThreadsStorage (RedisBackend channelName remote) ∅.

Definition redisKey (channelName threadTS : string) : string :=
  String.append channelName (String.append ":" threadTS).

(** Deserialisation of a remote document: every post of the tree becomes a
    fresh heap object, replies first. *)
Definition decodeReplies (decode : PostJSON -> Heap -> loc * Heap) :=
  fix go (rs : list PostJSON) (h : Heap) : list loc * Heap :=
    match rs with
    | [] => ([], h)
    | r :: rs' =>
        let '(l, h') := decode r h in
        let '(ls, h'') := go rs' h' in
        (l :: ls, h'')
    end.

Fixpoint decodePost (v : PostJSON) (h : Heap) {struct v} : loc * Heap :=
  match v with
  | mkPostJSON u c m pr ca atts rs dir mem =>
      let '(ls, h1) := decodeReplies decodePost rs h in
      alloc (mkIntermediatePost u c m pr ca atts ls dir mem) h1
  end.

(** Induction over documents, with a hypothesis for every reply. *)
Fixpoint PostJSON_nested_ind (P : PostJSON -> Prop)
  (f : forall u c m pr ca atts rs dir mem, Forall P rs -> P (mkPostJSON u c m pr ca atts rs dir mem))
  (v : PostJSON) {struct v} : P v :=
  match v with
  | mkPostJSON u c m pr ca atts rs dir mem =>
      f u c m pr ca atts rs dir mem
        ((fix go (rs : list PostJSON) : Forall P rs :=
            match rs with
            | [] => @List.Forall_nil _ P
            | r :: rs' => @List.Forall_cons _ P r rs' (PostJSON_nested_ind P f r) (go rs')
            end) rs)
  end.

Definition remoteLookup (b : Backend) (threadTS : string) : option PostJSON :=
  match b with
  | MemoryBackend => None
  | RedisBackend ch remote => remote !! redisKey ch threadTS
  end.

Definition HasThread (s : ThreadsStorage) (threadTS : string) : bool :=
  match ts_local s !! threadTS with
  | Some _ => true
  | None => bool_decide (is_Some (remoteLookup (ts_backend s) threadTS))
  end.

Definition LookupThread (h : Heap) (s : ThreadsStorage) (threadTS : string)
  : option loc * Heap * ThreadsStorage :=
  match ts_local s !! threadTS with
  | Some l => (Some l, h, s)
  | None =>
      match remoteLookup (ts_backend s) threadTS with
      | None => (None, h, s)
      | Some v =>
          let '(l, h') := decodePost v h in
          (Some l, h', mkThreadsStorage (ts_backend s) (<[threadTS := l]> (ts_local s)))
      end
  end.

Definition StoreThread (s : ThreadsStorage) (threadTS : string) (l : loc) : ThreadsStorage :=
  mkThreadsStorage (ts_backend s) (<[threadTS := l]> (ts_local s)).

Definition GetChangedThreads (s : ThreadsStorage) : list loc :=
  map snd (map_to_list (ts_local s)).

(* ------------------------------------------------------------------ *)
(** ** Thread assembly: [AddPostToThreads] *)

Definition WorkflowUserName : string := "imported-workflow".

(** [PosgreSQLMaxPostSize = 65535 / 4] *)
Definition PosgreSQLMaxPostSize : nat := 65535 / 4.

(** The state [AddPostToThreads] works on: the heap, the thread store
    passed as [threads], the ledger [timestamps map[int64]bool] (a set:
    only key presence is read) and the log. *)
Record World := mkWorld {
  w_heap : Heap;
  w_threads : ThreadsStorage;
  w_timestamps : gset Z;
  w_log : list LogLine
}.

(** The loop [for { if _, ok := timestamps[c]; !ok { break }; c++ }] with
    int64 wrap-around on [c++]. The ledger has [size timestamps] members,
    so the loop stops within [size timestamps + 1] rounds (lemma
    [dedupLoop_free] below); that bound is the fuel. *)
Fixpoint dedupLoop (fuel : nat) (timestamps : gset Z) (c : Z) : Z :=
  match fuel with
  | O => c
  | S fuel' => if decide (c ∈ timestamps) then dedupLoop fuel' timestamps (wrap64 (c + 1)) else c
  end.

Definition dedupCreateAt (timestamps : gset Z) (c : Z) : Z :=
  dedupLoop (S (size timestamps)) timestamps c.

Definition isDirectOrGroup (t : ChannelType) : bool :=
  bool_decide (t = ChannelTypeDirect) || bool_decide (t = ChannelTypeGroup).

(** The post update of the direct/group test of [AddPostToThreads]: only
    [IsDirect] and [ChannelMembers] change. *)
Definition direct_update (channel : IntermediateChannel) (p : IntermediatePost) : IntermediatePost :=
  if isDirectOrGroup (ic_Type channel)
  then set_Direct true (ic_MembersUsernames channel) p
  else set_Direct false (ip_ChannelMembers p) p.

Section Assembly.

(** [utf8.RuneCountInString] and [string([]rune(s)[:n])] of the Go runtime. *)
Variable RuneCountInString : string -> nat.
Variable runesPrefix : string -> nat -> string.

(** [IntermediatePost.Sanitise] (pointer receiver) *)
Definition SanitisePost (p : IntermediatePost) : IntermediatePost :=
  if decide (PosgreSQLMaxPostSize < RuneCountInString (ip_Message p))
  then set_Message (runesPrefix (ip_Message p) PosgreSQLMaxPostSize) p
  else p.

Definition readCreateAt (h : Heap) (l : loc) : Z :=
  default 0%Z (ip_CreateAt <$> h_posts h !! l).

Definition readUser (h : Heap) (l : loc) : string :=
  default "" (ip_User <$> h_posts h !! l).

Definition appendReply (post : loc) (p : IntermediatePost) : IntermediatePost :=
  set_Replies (ip_Replies p ++ [post]) p.

Definition msgRootNotFound : string := "ERROR processing post in thread, couldn't find rootPost: %+v".
Definition msgOverwrite (ts : string) : string := String.append "WARNING: overwriting root post for thread " ts.

(** [AddPostToThreads(original, post, threads, channel, timestamps, importWorkflowPosts)] *)
Definition AddPostToThreads (original : SlackPost) (post : loc) (channel : IntermediateChannel)
    (importWorkflowPosts : bool) (w : World) : World :=
  let h0 := w_heap w in
  let threads := w_threads w in
  let timestamps := w_timestamps w in
  let lg := w_log w in
  (* direct and group posts need the channel members in the import line *)
  let h1 := modify post (direct_update channel) h0 in
  (* avoid timestamp duplications *)
  let c := dedupCreateAt timestamps (readCreateAt h1 post) in
  let h2 := modify post (set_CreateAt c) h1 in
  let timestamps' := {[ c ]} ∪ timestamps in
  if bool_decide (sp_ThreadTS original <> "") && bool_decide (sp_ThreadTS original <> sp_TimeStamp original)
  then
    (* if post is part of a thread *)
    match LookupThread h2 threads (sp_ThreadTS original) with
    | (None, h3, threads3) =>
        mkWorld h3 threads3 timestamps' (lg ++ [LogLn LevelInfo msgRootNotFound (Some original)])
    | (Some rootPost, h3, threads3) =>
        if negb importWorkflowPosts && bool_decide (readUser h3 rootPost = WorkflowUserName)
        then mkWorld h3 threads3 timestamps' lg
        else mkWorld (modify rootPost (appendReply post) h3) threads3 timestamps' lg
    end
  else
    let h3 := modify post SanitisePost h2 in
    (* if post is the root of a thread *)
    if bool_decide (sp_TimeStamp original = sp_ThreadTS original)
    then
      let lg' := if HasThread threads (sp_ThreadTS original)
                 then lg ++ [LogLn LevelInfo (msgOverwrite (sp_ThreadTS original)) None] else lg in
      mkWorld h3 (StoreThread threads (sp_ThreadTS original) post) timestamps' lg'
    else
      let lg' := if HasThread threads (sp_TimeStamp original)
                 then lg ++ [LogLn LevelInfo (msgOverwrite (sp_TimeStamp original)) None] else lg in
      mkWorld h3 (StoreThread threads (sp_TimeStamp original) post) timestamps' lg'.

End Assembly.

(* ------------------------------------------------------------------ *)
(** ** The posts pipeline: per-message dispatch of [TransformPosts] *)

(** [model.PostPropsMaxRunes] of mattermost-server v6. *)
Definition PostPropsMaxRunes : nat := 800000.

(** [model.UserPositionMaxRunes], [UserFirstNameMaxRunes], [UserLastNameMaxRunes]. *)
Definition UserPositionMaxRunes : nat := 128.
Definition UserFirstNameMaxRunes : nat := 64.
Definition UserLastNameMaxRunes : nat := 64.

Record TransformConfig := mkTransformConfig {
  cfg_AttachmentsDir : string;
  cfg_SkipAttachments : bool;
  cfg_DiscardInvalidProps : bool;
  cfg_AuthDataAsEmail : bool;
  cfg_AuthService : string;
  cfg_ImportWorkflowMessages : bool;
  cfg_SkipPosts : bool;
  cfg_SkipChannels : bool;
  cfg_UseRedis : bool
}.

(** The state threaded through the message loop of one channel: the
    [World] of [AddPostToThreads] and [t.Intermediate.UsersById], which
    [selectOrCreateWorkflowUser] may extend. *)
Record PostsState := mkPostsState { ps_world : World; ps_users : gmap string IntermediateUser }.

Definition logW (w : World) (l : LogLine) : World :=
  mkWorld (w_heap w) (w_threads w) (w_timestamps w) (w_log w ++ [l]).

Definition onHeap (f : Heap -> Heap) (w : World) : World :=
  mkWorld (f (w_heap w)) (w_threads w) (w_timestamps w) (w_log w).

Definition warn (msg : string) : LogLine := LogLn LevelWarn msg None.

Definition msgNoUser : string := "Unable to import the message as the user field is missing.".
Definition msgUnknownUser : string := "Unable to add the message as the Slack user does not exist in Mattermost. user=%s".
Definition msgNoUserName : string := "Slack Import: Unable to import the message as the user field is missing.".
Definition msgUnknownUserName : string := "Slack Import: Unable to add the message as the Slack user does not exist in Mattermost. user=%s".
Definition msgNoComment : string := "Unable to import the message as it has no comments.".
Definition msgFileFailed : string := "Failed to add file to post".
(** [log.Printf("SUCCESS COPYING FILE %s TO DEST %s", file.Id, destFilePath)] *)
Definition msgCopied (fileId dest : string) : string :=
  String.append "SUCCESS COPYING FILE " (String.append fileId (String.append " TO DEST " dest)).
(** The progress lines of [t.Logger.Info] and [t.Logger.Debugf]. *)
Definition msgTransformingUsers : string := "Transforming users".
Definition msgUserImported (email : string) : string :=
  String.append "Slack user with email " (String.append email " has been imported.").
Definition msgTransformingChannels : string := "Transforming channels".
Definition msgPopulatingUserMemberships : string := "Populating user memberships".
Definition msgPopulatingChannelMemberships : string := "Populating channel memberships".
Definition msgTransformingPosts : string := "Transforming posts".
Definition msgPropsDiscard : string := "Unable import post as props exceed the maximum character count. Skipping as --discard-invalid-props is enabled.".
Definition msgPropsDrop : string := "Unable to add props to post as they exceed the maximum character count.".
Definition msgUnsupported : string := "Unable to import the message as its type is not supported. post_type=%s, post_subtype=%s".

Section Pipeline.

Variable RuneCountInString : string -> nat.
Variable runesPrefix : string -> nat -> string.

(** The [SlackPost] type predicates of the parser (outside the sources). *)
Variables IsPlainMessage IsFileComment IsBotMessage IsJoinLeaveMessage IsMeMessage
  IsChannelTopicMessage IsChannelPurposeMessage IsChannelNameMessage : SlackPost -> bool.

(** [SlackConvertTimeStamp] of the parser (outside the sources). *)
Variable SlackConvertTimeStamp : string -> Z.

(** [utf8.RuneCountInString(string(json.Marshal(model.StringInterface{"attachments": a})))]. *)
Variable propsRuneCount : list SlackAttachment -> nat.

(** The file-system effect of [addFileToPost]: the normalised destination
    path when the upload is found in the archive and copied, [None] when
    any step fails. *)
Variable copyAttachment : SlackFile -> option string.

(** [model.NewId()] *)
Variable newId : string.

(** [addFileToPost]: on success append the destination path. *)
Definition addFileToPost (file : SlackFile) (post : loc) (w : World) : World :=
  match copyAttachment file with
  | Some destFilePath =>
      let w := logW w (LogLn LevelInfo (msgCopied (sf_Id file) destFilePath) None) in
      onHeap (modify post (fun p => set_Attachments (ip_Attachments p ++ [destFilePath]) p)) w
  | None => logW w (LogLn LevelError msgFileFailed None)
  end.

(** The attachment block shared by plain and bot messages. *)
Definition addFiles (cfg : TransformConfig) (sp : SlackPost) (post : loc) (w : World) : World :=
  if (bool_decide (is_Some (sp_File sp)) || bool_decide (is_Some (sp_Files sp))) && negb (cfg_SkipAttachments cfg)
  then match sp_File sp, sp_Files sp with
       | Some f, _ => addFileToPost f post w
       | None, Some fs => fold_left (fun w f => addFileToPost f post w) fs w
       | None, None => w
       end
  else w.

(** The props block shared by plain and bot messages; the boolean is
    [false] when the message is skipped ([continue]). *)
Definition propsStep (cfg : TransformConfig) (sp : SlackPost) (post : loc) (w : World) : World * bool :=
  if decide (0 < length (sp_Attachments sp)) then
    let props := sp_Attachments sp in
    if decide (propsRuneCount props <= PostPropsMaxRunes)
    then (onHeap (modify post (set_Props (Some props))) w, true)
    else if cfg_DiscardInvalidProps cfg
         then (logW w (warn msgPropsDiscard), false)
         else (logW w (warn msgPropsDrop), true)
  else (w, true).

(** [IntermediateUser.Sanitise] (pointer receiver); [u.Position[0:n]] is a byte slice. *)
Definition SanitiseUser (u : IntermediateUser) (lg : list LogLine) : IntermediateUser * list LogLine :=
  let '(email, lg) :=
    if bool_decide (iu_Email u = "")
    then let e := String.append (iu_Username u) "@example.com" in
         (e, lg ++ [warn "User %s does not have an email address in the Slack export. Used %s as a placeholder. The user should update their email address once logged in to the system."])
    else (iu_Email u, lg) in
  let '(pos, lg) :=
    if decide (UserPositionMaxRunes < RuneCountInString (iu_Position u))
    then (String.substring 0 UserPositionMaxRunes (iu_Position u), lg ++ [warn "User %s position %s is too long. Field will be truncated"])
    else (iu_Position u, lg) in
  let '(fn, lg) :=
    if decide (UserFirstNameMaxRunes < RuneCountInString (iu_FirstName u))
    then (String.substring 0 UserFirstNameMaxRunes (iu_FirstName u), lg ++ [warn "User %s first name %s is too long. Field will be truncated"])
    else (iu_FirstName u, lg) in
  let '(ln, lg) :=
    if decide (UserLastNameMaxRunes < RuneCountInString (iu_LastName u))
    then (String.substring 0 UserLastNameMaxRunes (iu_LastName u), lg ++ [warn "User %s last name %s is too long. Field will be truncated"])
    else (iu_LastName u, lg) in
  (mkIntermediateUser (iu_Id u) (iu_Username u) fn ln pos email (iu_Password u)
     (iu_Memberships u) (iu_AuthData u) (iu_AuthService u), lg).

(** [selectOrCreateWorkflowUser] *)
Definition selectOrCreateWorkflowUser (st : PostsState) : IntermediateUser * PostsState :=
  let userID := "importedworkflow" in
  match ps_users st !! userID with
  | Some existingUser => (existingUser, st)
  | None =>
      let newUser := mkIntermediateUser userID WorkflowUserName WorkflowUserName "" ""
                       "imported-workflow@tinkoff.ru" newId [] None "" in
      let w := ps_world st in
      let '(newUser, lg) := SanitiseUser newUser (w_log w) in
      (newUser, mkPostsState (mkWorld (w_heap w) (w_threads w) (w_timestamps w) lg)
                             (<[userID := newUser]> (ps_users st)))
  end.

(** [newPost := &IntermediatePost{...}] *)
Definition allocPost (user channelName message : string) (ts : string) (w : World) : loc * World :=
  let '(l, h) := alloc (newIntermediatePost user channelName message (SlackConvertTimeStamp ts)) (w_heap w) in
  (l, onHeap (fun _ => h) w).

(** A message with an author, no files and no props (file comments and
    the topic, purpose and name changes). *)
Definition authoredPost (cfg : TransformConfig) (channel : IntermediateChannel) (sp : SlackPost)
    (author : IntermediateUser) (message : string) (st : PostsState) : PostsState :=
  let '(l, w) := allocPost (iu_Username author) (ic_Name channel) message (sp_TimeStamp sp) (ps_world st) in
  mkPostsState (AddPostToThreads RuneCountInString runesPrefix sp l channel (cfg_ImportWorkflowMessages cfg) w)
               (ps_users st).

(** A plain or bot message: files, props, then thread assembly. *)
Definition filesPropsPost (cfg : TransformConfig) (channel : IntermediateChannel) (sp : SlackPost)
    (author : IntermediateUser) (st : PostsState) : PostsState :=
  let '(l, w) := allocPost (iu_Username author) (ic_Name channel) (sp_Text sp) (sp_TimeStamp sp) (ps_world st) in
  let w := addFiles cfg sp l w in
  match propsStep cfg sp l w with
  | (w, false) => mkPostsState w (ps_users st)
  | (w, true) =>
      mkPostsState (AddPostToThreads RuneCountInString runesPrefix sp l channel (cfg_ImportWorkflowMessages cfg) w)
                   (ps_users st)
  end.

Definition warnS (st : PostsState) (msg : string) : PostsState :=
  mkPostsState (logW (ps_world st) (warn msg)) (ps_users st).

(** The body of [for _, post := range channelPosts { switch { ... } }]. *)
Definition transformPost (cfg : TransformConfig) (channel : IntermediateChannel)
    (st : PostsState) (post : SlackPost) : PostsState :=
  let users := ps_users st in
  if IsPlainMessage post then
    if bool_decide (sp_User post = "") then warnS st msgNoUser else
    match users !! sp_User post with
    | None => warnS st msgUnknownUser
    | Some author => filesPropsPost cfg channel post author st
    end
  else if IsFileComment post then
    match sp_Comment post with
    | None => warnS st msgNoComment
    | Some cm =>
        if bool_decide (scm_User cm = "") then warnS st msgNoUser else
        match users !! scm_User cm with
        | None => warnS st msgUnknownUser
        | Some author => authoredPost cfg channel post author (scm_Comment cm) st
        end
    end
  else if IsBotMessage post then
    if negb (cfg_ImportWorkflowMessages cfg) then st else
    let '(author, st) := selectOrCreateWorkflowUser st in
    filesPropsPost cfg channel post author st
  else if IsJoinLeaveMessage post then st
  else if IsMeMessage post then st
  else if IsChannelTopicMessage post then
    if bool_decide (sp_User post = "") then warnS st msgNoUser else
    match users !! sp_User post with
    | None => warnS st msgUnknownUser
    | Some author => authoredPost cfg channel post author (sp_Text post) st
    end
  else if IsChannelPurposeMessage post then
    if bool_decide (sp_User post = "") then warnS st msgNoUser else
    match users !! sp_User post with
    | None => warnS st msgUnknownUser
    | Some author => authoredPost cfg channel post author (sp_Text post) st
    end
  else if IsChannelNameMessage post then
    if bool_decide (sp_User post = "") then warnS st msgNoUserName else
    match users !! sp_User post with
    | None => warnS st msgUnknownUserName
    | Some author => authoredPost cfg channel post author (sp_Text post) st
    end
  else warnS st msgUnsupported.

(** The message loop of one channel, over the already sorted posts. *)
Definition processChannelPosts (cfg : TransformConfig) (channel : IntermediateChannel)
    (st : PostsState) (posts : list SlackPost) : PostsState :=
  fold_left (transformPost cfg channel) posts st.

End Pipeline.

(* ------------------------------------------------------------------ *)
(** ** Channels: [TransformChannels] *)

(** [model.ChannelNameMaxLength], [ChannelDisplayNameMaxRunes],
    [ChannelPurposeMaxRunes], [ChannelHeaderMaxRunes], [ChannelGroupMaxUsers]. *)
Definition ChannelNameMaxLength : nat := 64.
Definition ChannelDisplayNameMaxRunes : nat := 64.
Definition ChannelPurposeMaxRunes : nat := 250.
Definition ChannelHeaderMaxRunes : nat := 1024.
Definition ChannelGroupMaxUsers : nat := 8.

(** The fields of the parser's [SlackChannel] read by [TransformChannels];
    [Topic] and [Purpose] stand for their [.Value]. *)
Record SlackChannel := mkSlackChannel {
  sc_Id : string;
  sc_Name : string;
  sc_Members : list string;
  sc_Topic : string;
  sc_Purpose : string;
  sc_Type : ChannelType
}.

(** [strings.Trim(s, "_-")]: both cut characters are ASCII, so trimming
    bytes is trimming runes. *)
Definition isCut (a : Ascii.ascii) : bool := bool_decide (a = "_"%char) || bool_decide (a = "-"%char).

Fixpoint dropCut (l : list Ascii.ascii) : list Ascii.ascii :=
  match l with
  | a :: l' => if isCut a then dropCut l' else l
  | [] => []
  end.

Definition trimCut (s : string) : string :=
  String.string_of_list_ascii (rev (dropCut (rev (dropCut (String.list_ascii_of_string s))))).

(** [filterValidMembers] *)
Fixpoint filterValidMembers (members : list string) (users : gmap string IntermediateUser) : list string :=
  match members with
  | [] => []
  | member :: rest =>
      if bool_decide (is_Some (users !! member))
      then member :: filterValidMembers rest users
      else filterValidMembers rest users
  end.

(** [getOriginalName] *)
Definition getOriginalName (channel : SlackChannel) : string :=
  if bool_decide (sc_Name channel = "") then sc_Id channel else sc_Name channel.

Definition setName (n : string) (c : IntermediateChannel) : IntermediateChannel :=
  mkIntermediateChannel (ic_Id c) (ic_OriginalName c) n (ic_DisplayName c) (ic_Members c)
    (ic_MembersUsernames c) (ic_Purpose c) (ic_Header c) (ic_Topic c) (ic_Type c).

Definition setDisplayName (n : string) (c : IntermediateChannel) : IntermediateChannel :=
  mkIntermediateChannel (ic_Id c) (ic_OriginalName c) (ic_Name c) n (ic_Members c)
    (ic_MembersUsernames c) (ic_Purpose c) (ic_Header c) (ic_Topic c) (ic_Type c).

Definition setPurpose (n : string) (c : IntermediateChannel) : IntermediateChannel :=
  mkIntermediateChannel (ic_Id c) (ic_OriginalName c) (ic_Name c) (ic_DisplayName c) (ic_Members c)
    (ic_MembersUsernames c) n (ic_Header c) (ic_Topic c) (ic_Type c).

Definition setHeader (n : string) (c : IntermediateChannel) : IntermediateChannel :=
  mkIntermediateChannel (ic_Id c) (ic_OriginalName c) (ic_Name c) (ic_DisplayName c) (ic_Members c)
    (ic_MembersUsernames c) (ic_Purpose c) n (ic_Topic c) (ic_Type c).

Section Channels.

Variable RuneCountInString : string -> nat.
(** [truncateRunes], [isValidChannelNameCharacters], [strings.ToLower]
    and [SlackConvertChannelName] (outside the sources). *)
Variable truncateRunes : string -> nat -> string.
Variable isValidChannelNameCharacters : string -> bool.
Variable ToLower : string -> string.
Variable SlackConvertChannelName : string -> string -> string.

Definition msgSingleMember : string := "Bulk export for direct channels containing a single member is not supported. Not importing channel %s".

(** [(c *IntermediateChannel) Sanitise], one block of statements at a
    time: the handle, ... *)
Definition sanitiseName (c : IntermediateChannel) (lg : list LogLine) : IntermediateChannel * list LogLine :=
  let c := setName (trimCut (ic_Name c)) c in
  let '(c, lg) :=
    if decide (ChannelNameMaxLength < String.length (ic_Name c))
    then (setName (String.substring 0 ChannelNameMaxLength (ic_Name c)) c,
          lg ++ [warn "Channel %s handle exceeds the maximum length. It will be truncated when imported."])
    else (c, lg) in
  let c := if bool_decide (String.length (ic_Name c) = 1)
           then setName (String.append "slack-channel-" (ic_Name c)) c else c in
  let c := if negb (isValidChannelNameCharacters (ic_Name c)) then setName (ToLower (ic_Id c)) c else c in
  (c, lg).

(** ... the display name, ... *)
Definition sanitiseDisplayName (c : IntermediateChannel) (lg : list LogLine) : IntermediateChannel * list LogLine :=
  let c := setDisplayName (trimCut (ic_DisplayName c)) c in
  let '(c, lg) :=
    if decide (ChannelDisplayNameMaxRunes < RuneCountInString (ic_DisplayName c))
    then (setDisplayName (truncateRunes (ic_DisplayName c) ChannelDisplayNameMaxRunes) c,
          lg ++ [warn "Channel %s display name exceeds the maximum length. It will be truncated when imported."])
    else (c, lg) in
  let c := if bool_decide (String.length (ic_DisplayName c) = 1)
           then setDisplayName (String.append "slack-channel-" (ic_DisplayName c)) c else c in
  (c, lg).

(** ... the purpose ... *)
Definition sanitisePurpose (c : IntermediateChannel) (lg : list LogLine) : IntermediateChannel * list LogLine :=
  if decide (ChannelPurposeMaxRunes < RuneCountInString (ic_Purpose c))
  then (setPurpose (truncateRunes (ic_Purpose c) ChannelPurposeMaxRunes) c,
        lg ++ [warn "Channel %s purpose exceeds the maximum length. It will be truncated when imported."])
  else (c, lg).

(** ... and the header. *)
Definition sanitiseHeader (c : IntermediateChannel) (lg : list LogLine) : IntermediateChannel * list LogLine :=
  if decide (ChannelHeaderMaxRunes < RuneCountInString (ic_Header c))
  then (setHeader (truncateRunes (ic_Header c) ChannelHeaderMaxRunes) c,
        lg ++ [warn "Channel %s header exceeds the maximum length. It will be truncated when imported."])
  else (c, lg).

Definition SanitiseChannel (c : IntermediateChannel) (lg : list LogLine) : IntermediateChannel * list LogLine :=
  if bool_decide (ic_Type c = ChannelTypeDirect) then (c, lg) else
  let '(c, lg) := sanitiseName c lg in
  let '(c, lg) := sanitiseDisplayName c lg in
  let '(c, lg) := sanitisePurpose c lg in
  sanitiseHeader c lg.

(** The loop body of [TransformChannels]: [None] is [continue]. *)
Definition transformChannel (users : gmap string IntermediateUser) (channel : SlackChannel)
    (lg : list LogLine) : option IntermediateChannel * list LogLine :=
  let validMembers := filterValidMembers (sc_Members channel) users in
  if (bool_decide (sc_Type channel = ChannelTypeDirect) || bool_decide (sc_Type channel = ChannelTypeGroup))
     && bool_decide (length validMembers <= 1)
  then (None, lg ++ [warn msgSingleMember])
  else
    let channel :=
      if bool_decide (sc_Type channel = ChannelTypeGroup) && bool_decide (ChannelGroupMaxUsers < length validMembers)
      then mkSlackChannel (sc_Id channel) (sc_Purpose channel) (sc_Members channel) (sc_Topic channel)
             (sc_Purpose channel) ChannelTypePrivate
      else channel in
    let name := SlackConvertChannelName (sc_Name channel) (sc_Id channel) in
    let newChannel := mkIntermediateChannel "" (getOriginalName channel) name (getOriginalName channel)
                        validMembers [] (sc_Purpose channel) (sc_Topic channel) "" (sc_Type channel) in
    let '(newChannel, lg) := SanitiseChannel newChannel lg in
    (Some newChannel, lg).

(** [TransformChannels], with the log of [t.Logger]. *)
Fixpoint TransformChannels (users : gmap string IntermediateUser) (channels : list SlackChannel)
    (lg : list LogLine) : list IntermediateChannel * list LogLine :=
  match channels with
  | [] => ([], lg)
  | channel :: rest =>
      match transformChannel users channel lg with
      | (None, lg) => TransformChannels users rest lg
      | (Some c, lg) => let '(cs, lg) := TransformChannels users rest lg in (c :: cs, lg)
      end
  end.

End Channels.

(* ------------------------------------------------------------------ *)
(** ** Users, memberships and the channel map *)

(** [SlackUser] and its [Profile], with the fields [TransformUsers] reads. *)
Record SlackProfile := mkSlackProfile {
  spf_FirstName : string;
  spf_LastName : string;
  spf_Title : string;
  spf_Email : string
}.

Record SlackUser := mkSlackUser { su_Id : string; su_Username : string; su_Profile : SlackProfile }.

(** [Intermediate]; [Posts] holds pointers into the heap. *)
Record Intermediate := mkIntermediate {
  in_PublicChannels : list IntermediateChannel;
  in_PrivateChannels : list IntermediateChannel;
  in_GroupChannels : list IntermediateChannel;
  in_DirectChannels : list IntermediateChannel;
  in_UsersById : gmap string IntermediateUser;
  in_Posts : list loc
}.

Definition set_UsersById (m : gmap string IntermediateUser) (i : Intermediate) : Intermediate :=
  mkIntermediate (in_PublicChannels i) (in_PrivateChannels i) (in_GroupChannels i) (in_DirectChannels i)
    m (in_Posts i).

Definition set_Auth (authData : option string) (authService : string) (u : IntermediateUser) : IntermediateUser :=
  mkIntermediateUser (iu_Id u) (iu_Username u) (iu_FirstName u) (iu_LastName u) (iu_Position u)
    (iu_Email u) (iu_Password u) (iu_Memberships u) authData authService.

Definition set_Memberships (ms : list string) (u : IntermediateUser) : IntermediateUser :=
  mkIntermediateUser (iu_Id u) (iu_Username u) (iu_FirstName u) (iu_LastName u) (iu_Position u)
    (iu_Email u) (iu_Password u) ms (iu_AuthData u) (iu_AuthService u).

Definition set_MembersUsernames (ms : list string) (c : IntermediateChannel) : IntermediateChannel :=
  mkIntermediateChannel (ic_Id c) (ic_OriginalName c) (ic_Name c) (ic_DisplayName c) (ic_Members c)
    ms (ic_Purpose c) (ic_Header c) (ic_Topic c) (ic_Type c).

Section Users.

Variable RuneCountInString : string -> nat.

(** The loop body of [TransformUsers]. [newUser.AuthData = &newUser.Email]
    points at the email field, which nothing writes afterwards; it is
    modelled by the email's value. *)
Definition transformUser (authDataAsEmail : bool) (authService : string) (user : SlackUser)
    (lg : list LogLine) : IntermediateUser * list LogLine :=
  let newUser := mkIntermediateUser (su_Id user) (su_Username user) (spf_FirstName (su_Profile user))
                   (spf_LastName (su_Profile user)) (spf_Title (su_Profile user)) (spf_Email (su_Profile user))
                   "" [] None "" in
  let '(newUser, lg) := SanitiseUser RuneCountInString newUser lg in
  let newUser := if authDataAsEmail && bool_decide (authService <> "")
                 then set_Auth (Some (iu_Email newUser)) authService newUser else newUser in
  (newUser, lg).

(** [TransformUsers]: [resultUsers[newUser.Id] = newUser] for each user in turn. *)
Definition TransformUsers (users : list SlackUser) (authDataAsEmail : bool) (authService : string)
    (inter : Intermediate) (lg : list LogLine) : Intermediate * list LogLine :=
  let lg := lg ++ [LogLn LevelInfo msgTransformingUsers None] in
  let '(resultUsers, lg) :=
    fold_left (fun acc user =>
                 let '(m, lg) := acc in
                 let '(newUser, lg) := transformUser authDataAsEmail authService user lg in
                 (<[iu_Id newUser := newUser]> m, lg ++ [LogLn LevelDebug (msgUserImported (iu_Email newUser)) None]))
              users (∅, lg) in
  (set_UsersById resultUsers inter, lg).

End Users.

(** The inner loop of [PopulateUserMemberships]: [break] at the first match. *)
Fixpoint containsMember (userId : string) (members : list string) : bool :=
  match members with
  | [] => false
  | memberId :: rest => if bool_decide (userId = memberId) then true else containsMember userId rest
  end.

Definition membershipsIn (userId : string) (channels : list IntermediateChannel) (memberships : list string)
    : list string :=
  fold_left (fun ms channel => if containsMember userId (ic_Members channel) then ms ++ [ic_Name channel] else ms)
    channels memberships.

(** [PopulateUserMemberships]: every user of the map, by its key (its
    opening [t.Logger.Info] line is appended by the caller, [Transform]). *)
Definition PopulateUserMemberships (inter : Intermediate) : Intermediate :=
  set_UsersById
    (map_imap (fun userId user =>
                 Some (set_Memberships (membershipsIn userId (in_PrivateChannels inter)
                                          (membershipsIn userId (in_PublicChannels inter) [])) user))
              (in_UsersById inter))
    inter.

(** The inner loop of [PopulateChannelMemberships]. *)
Definition memberUsernames (users : gmap string IntermediateUser) (members : list string) : list string :=
  fold_left (fun acc memberId => match users !! memberId with
                                 | Some user => acc ++ [iu_Username user]
                                 | None => acc
                                 end) members [].

(** [PopulateChannelMemberships]: group, then direct channels. *)
Definition PopulateChannelMemberships (inter : Intermediate) : Intermediate :=
  let f := fun channel => set_MembersUsernames (memberUsernames (in_UsersById inter) (ic_Members channel)) channel in
  mkIntermediate (in_PublicChannels inter) (in_PrivateChannels inter) (map f (in_GroupChannels inter))
    (map f (in_DirectChannels inter)) (in_UsersById inter) (in_Posts inter).

Definition insertByOriginalName (m : gmap string IntermediateChannel) (channels : list IntermediateChannel)
    : gmap string IntermediateChannel :=
  fold_left (fun m channel => <[ic_OriginalName channel := channel]> m) channels m.

(** [buildChannelsByOriginalNameMap] *)
Definition buildChannelsByOriginalNameMap (intermediate : Intermediate) : gmap string IntermediateChannel :=
  let channelsByName := insertByOriginalName ∅ (in_PublicChannels intermediate) in
  let channelsByName := insertByOriginalName channelsByName (in_PrivateChannels intermediate) in
  let channelsByName := insertByOriginalName channelsByName (in_GroupChannels intermediate) in
  insertByOriginalName channelsByName (in_DirectChannels intermediate).

(** The users and channel lists of [SlackExport], and its posts by original channel
    name; the Go map [Posts] is ranged over in an unspecified order,
    modelled as a list of its entries in the order of the range. *)
Record SlackExport := mkSlackExport {
  se_Users : list SlackUser;
  se_PublicChannels : list SlackChannel;
  se_PrivateChannels : list SlackChannel;
  se_GroupChannels : list SlackChannel;
  se_DirectChannels : list SlackChannel;
  se_Posts : list (string * list SlackPost)
}.

Section AllChannels.

Variable RuneCountInString : string -> nat.
Variable truncateRunes : string -> nat -> string.
Variable isValidChannelNameCharacters : string -> bool.
Variable ToLower : string -> string.
Variable SlackConvertChannelName : string -> string -> string.
(** [SplitChannelsByMemberSize] (outside the sources). *)
Variable SplitChannelsByMemberSize : list SlackChannel -> nat -> list SlackChannel * list SlackChannel.

Let TC := TransformChannels RuneCountInString truncateRunes isValidChannelNameCharacters ToLower
  SlackConvertChannelName.

(** [TransformAllChannels] *)
Definition TransformAllChannels (slackExport : SlackExport) (inter : Intermediate) (lg : list LogLine)
    : Intermediate * list LogLine :=
  let lg := lg ++ [LogLn LevelInfo msgTransformingChannels None] in
  let users := in_UsersById inter in
  let '(publicChannels, lg) := TC users (se_PublicChannels slackExport) lg in
  let '(privateChannels, lg) := TC users (se_PrivateChannels slackExport) lg in
  let '(regularGroupChannels, bigGroupChannels) :=
    SplitChannelsByMemberSize (se_GroupChannels slackExport) ChannelGroupMaxUsers in
  let '(bigChannels, lg) := TC users bigGroupChannels lg in
  let privateChannels := privateChannels ++ bigChannels in
  let '(groupChannels, lg) := TC users regularGroupChannels lg in
  let '(directChannels, lg) := TC users (se_DirectChannels slackExport) lg in
  (mkIntermediate publicChannels privateChannels groupChannels directChannels users (in_Posts inter), lg).

End AllChannels.

Definition msgNoChannel : string := "--- Couldn't find channel %s referenced by posts".

Section Posts.

Variable RuneCountInString : string -> nat.
Variable runesPrefix : string -> nat -> string.
Variables IsPlainMessage IsFileComment IsBotMessage IsJoinLeaveMessage IsMeMessage
  IsChannelTopicMessage IsChannelPurposeMessage IsChannelNameMessage : SlackPost -> bool.
Variable SlackConvertTimeStamp : string -> Z.
Variable propsRuneCount : list SlackAttachment -> nat.
Variable copyAttachment : SlackFile -> option string.
Variable newId : string.
(** [sort.Slice] by [SlackConvertTimeStamp] (not stable, outside the sources). *)
Variable sortPosts : list SlackPost -> list SlackPost.
(** The shared backing store the cache-backed storages of all channels read. *)
Variable remote : gmap string PostJSON.

(** [newChannelThreadsStorage]: the memory variant without a cache
    configuration; the factory's connection error is not modelled. *)
Definition newChannelThreadsStorage (cfg : TransformConfig) (channelName : string) : ThreadsStorage :=
  if cfg_UseRedis cfg then newRedisStorage channelName remote else newMemoryStorage.

(** One iteration of the channel loop of [TransformPosts]: the accumulated
    [resultPosts], the users, the heap and the log. *)
Definition transformChannelPosts (cfg : TransformConfig) (channelsByOriginalName : gmap string IntermediateChannel)
    (acc : list loc * gmap string IntermediateUser * Heap * list LogLine)
    (entry : string * list SlackPost) : list loc * gmap string IntermediateUser * Heap * list LogLine :=
  let '(resultPosts, users, h, lg) := acc in
  let '(originalChannelName, channelPosts) := entry in
  match channelsByOriginalName !! originalChannelName with
  | None => (resultPosts, users, h, lg ++ [warn msgNoChannel])
  | Some channel =>
      let channelPosts := sortPosts channelPosts in
      let threads := newChannelThreadsStorage cfg originalChannelName in
      let st := processChannelPosts RuneCountInString runesPrefix IsPlainMessage IsFileComment IsBotMessage
                  IsJoinLeaveMessage IsMeMessage IsChannelTopicMessage IsChannelPurposeMessage
                  IsChannelNameMessage SlackConvertTimeStamp propsRuneCount copyAttachment newId cfg channel
                  (mkPostsState (mkWorld h threads ∅ lg) users) channelPosts in
      (resultPosts ++ GetChangedThreads (w_threads (ps_world st)), ps_users st,
       w_heap (ps_world st), w_log (ps_world st))
  end.

(** [TransformPosts]; [newGroupChannels] and [newDirectChannels] stay empty. *)
Definition TransformPosts (cfg : TransformConfig) (slackExport : SlackExport) (inter : Intermediate)
    (h : Heap) (lg : list LogLine) : Intermediate * Heap * list LogLine :=
  let lg := lg ++ [LogLn LevelInfo msgTransformingPosts None] in
  let newGroupChannels : list IntermediateChannel := [] in
  let newDirectChannels : list IntermediateChannel := [] in
  let channelsByOriginalName := buildChannelsByOriginalNameMap inter in
  let '(resultPosts, users, h, lg) :=
    fold_left (transformChannelPosts cfg channelsByOriginalName) (se_Posts slackExport)
      ([], in_UsersById inter, h, lg) in
  (mkIntermediate (in_PublicChannels inter) (in_PrivateChannels inter)
     (in_GroupChannels inter ++ newGroupChannels) (in_DirectChannels inter ++ newDirectChannels)
     users resultPosts, h, lg).

End Posts.

Section Transform.

Variable RuneCountInString : string -> nat.
Variable runesPrefix : string -> nat -> string.
Variable truncateRunes : string -> nat -> string.
Variable isValidChannelNameCharacters : string -> bool.
Variable ToLower : string -> string.
Variable SlackConvertChannelName : string -> string -> string.
Variable SplitChannelsByMemberSize : list SlackChannel -> nat -> list SlackChannel * list SlackChannel.
Variables IsPlainMessage IsFileComment IsBotMessage IsJoinLeaveMessage IsMeMessage
  IsChannelTopicMessage IsChannelPurposeMessage IsChannelNameMessage : SlackPost -> bool.
Variable SlackConvertTimeStamp : string -> Z.
Variable propsRuneCount : list SlackAttachment -> nat.
Variable copyAttachment : SlackFile -> option string.
Variable newId : string.
Variable sortPosts : list SlackPost -> list SlackPost.
Variable remote : gmap string PostJSON.

(** [Transformer.Transform]. [TransformAllChannels] always returns nil and
    the storage factory's error is not modelled, so neither error return
    is reached. [PopulateUserMemberships] and [PopulateChannelMemberships]
    write nothing to the log but their opening [t.Logger.Info] line, which
    is appended here at their calls. *)
Definition Transform (cfg : TransformConfig) (slackExport : SlackExport) (inter : Intermediate)
    (h : Heap) (lg : list LogLine) : Intermediate * Heap * list LogLine :=
  let '(inter, lg) := TransformUsers RuneCountInString (se_Users slackExport) (cfg_AuthDataAsEmail cfg)
                        (cfg_AuthService cfg) inter lg in
  let '(inter, lg) :=
    if negb (cfg_SkipChannels cfg) then
      let '(inter, lg) := TransformAllChannels RuneCountInString truncateRunes isValidChannelNameCharacters
                            ToLower SlackConvertChannelName SplitChannelsByMemberSize slackExport inter lg in
      (PopulateChannelMemberships (PopulateUserMemberships inter),
       lg ++ [LogLn LevelInfo msgPopulatingUserMemberships None; LogLn LevelInfo msgPopulatingChannelMemberships None])
    else (inter, lg) in
  if negb (cfg_SkipPosts cfg)
  then TransformPosts RuneCountInString runesPrefix IsPlainMessage IsFileComment IsBotMessage
         IsJoinLeaveMessage IsMeMessage IsChannelTopicMessage IsChannelPurposeMessage IsChannelNameMessage
         SlackConvertTimeStamp propsRuneCount copyAttachment newId sortPosts remote cfg slackExport inter h lg
  else (inter, h, lg).

End Transform.

(* ------------------------------------------------------------------ *)
(** ** Histories of store operations *)

(** A history of calls made on one store instance. *)
Inductive StoreOp :=
  | OpStore (threadTS : string) (post : loc)
  | OpLookup (threadTS : string)
  | OpHas (threadTS : string).

Fixpoint runOps (h : Heap) (s : ThreadsStorage) (ops : list StoreOp) : Heap * ThreadsStorage :=
  match ops with
  | [] => (h, s)
  | OpStore T l :: ops' => runOps h (StoreThread s T l) ops'
  | OpLookup T :: ops' => let '(_, h', s') := LookupThread h s T in runOps h' s' ops'
  | OpHas _ :: ops' => runOps h s ops'
  end.

(** The identifiers a history touches, in the words of spec 3 and 4.1: those
    stored, and those successfully looked up; a lookup succeeds when the
    identifier was touched before or when the backing store holds it. *)
Fixpoint touchedIds (b : Backend) (acc : gset string) (ops : list StoreOp) : gset string :=
  match ops with
  | [] => acc
  | OpStore T _ :: ops' => touchedIds b ({[T]} ∪ acc) ops'
  | OpLookup T :: ops' =>
      if bool_decide (T ∈ acc \/ is_Some (remoteLookup b T))
      then touchedIds b ({[T]} ∪ acc) ops' else touchedIds b acc ops'
  | OpHas _ :: ops' => touchedIds b acc ops'
  end.

(** Every post pointer of the local map points into the heap. *)
Definition store_in_heap (s : ThreadsStorage) (h : Heap) : Prop :=
  forall T l, ts_local s !! T = Some l -> is_Some (h_posts h !! l).

(** Allocation never reuses a live location. *)
Definition heap_wf (h : Heap) : Prop :=
  forall l, is_Some (h_posts h !! l) -> l < h_next h.

(* ------------------------------------------------------------------ *)
(** ** Concrete instances for evaluation *)

(** Rune counting and rune prefixes on ASCII text, where runes are bytes. *)
Definition asciiRuneCount (s : string) : nat := String.length s.
Definition asciiRunesPrefix (s : string) (n : nat) : string := String.substring 0 n s.

Definition rootMsg (ts : string) : SlackPost := mkSlackPost "U1" "hi" ts "" "message" "" None None [] None.
Definition replyMsg (ts threadTS : string) : SlackPost := mkSlackPost "U1" "hi" ts threadTS "message" "" None None [] None.
Definition generalChannel : IntermediateChannel :=
  mkIntermediateChannel "" "general" "general" "general" ["U1"] [] "" "" "" ChannelTypeOpen.

(** A world whose heap holds the given posts at locations 0, 1, ... *)
Definition worldOf (posts : list IntermediatePost) (threads : ThreadsStorage) (timestamps : gset Z) : World :=
  mkWorld (mkHeap (map_seq 0 posts) (length posts)) threads timestamps [].

(** The fresh-heap discipline of deserialisation. *)
Definition heap_ext (h h' : Heap) : Prop :=
  heap_wf h' /\ h_next h <= h_next h' /\
  forall l', l' < h_next h -> h_posts h' !! l' = h_posts h !! l'.

(** A sample remote document, used by the concrete checks below. *)
Definition sampleDoc : PostJSON := mkPostJSON "" "" "msg" None 0 [] [] false [].

(** The classification of [AddPostToThreads]. *)
Definition is_root (original : SlackPost) : Prop :=
  sp_ThreadTS original = "" \/ sp_ThreadTS original = sp_TimeStamp original.

Definition is_reply (original : SlackPost) : Prop :=
  sp_ThreadTS original <> "" /\ sp_ThreadTS original <> sp_TimeStamp original.

Definition postAt (c : Z) : IntermediatePost := newIntermediatePost "U1" "general" "hi" c.

(** Two roots: the first collides in the ledger and is resolved to
    [1600000000001], the second arrives with that creation time already. *)
Definition c1RunA : World :=
  AddPostToThreads asciiRuneCount asciiRunesPrefix (rootMsg "1600000000.000200") 0 generalChannel false
    (worldOf [postAt 1600000000000] newMemoryStorage {[ 1600000000000%Z ]}).

Definition c1RunB : World :=
  AddPostToThreads asciiRuneCount asciiRunesPrefix (rootMsg "1600000000.000300") 0 generalChannel false
    (worldOf [postAt 1600000000001] newMemoryStorage ∅).

(** Two roots with the same original creation time [c], both at
    locations of one heap. *)
Definition twoPosts (c : Z) : World := worldOf [postAt c; postAt c] newMemoryStorage ∅.

Definition afterFirst (c : Z) : World :=
  AddPostToThreads asciiRuneCount asciiRunesPrefix (rootMsg "a") 0 generalChannel false (twoPosts c).

(** A root at location 1 authored by the workflow user, stored under "1". *)
Definition workflowWorld : World :=
  worldOf [postAt 2; newIntermediatePost WorkflowUserName "general" "run" 1]
    (StoreThread newMemoryStorage "1" 1) ∅.

(** The same root, this time only in the backing store of a cache-backed
    instance, as another instance left it. *)
Definition workflowDoc : PostJSON := mkPostJSON WorkflowUserName "general" "run" None 1 [] [] false [].

Definition workflowRemoteWorld : World :=
  worldOf [postAt 2] (newRedisStorage "general" {[ redisKey "general" "1" := workflowDoc ]}) ∅.

Definition workflowRemoteLookup : option loc * Heap * ThreadsStorage :=
  LookupThread (w_heap workflowRemoteWorld) (w_threads workflowRemoteWorld) "1".

(** [c] advanced by [k] increments of [c++]. *)
Definition stepTS (c : Z) (k : nat) : Z := wrap64 (c + Z.of_nat k).

(** A plain message with one attachment, by the known user "U1". *)
Definition c8Msg : SlackPost := mkSlackPost "U1" "hi" "5" "" "message" "" None None ["x"] None.
Definition c8User : IntermediateUser := mkIntermediateUser "U1" "alice" "" "" "" "alice@example.com" "" [] None "".
Definition c8State : PostsState := mkPostsState (worldOf [] newMemoryStorage ∅) {[ "U1" := c8User ]}.
(** [--discard-invalid-props] on. *)
Definition c8Config : TransformConfig := mkTransformConfig "" false true false "" false false false false.
Definition c8Plain (sp : SlackPost) : bool := true.
Definition c8Never (sp : SlackPost) : bool := false.
Definition c8Time (ts : string) : Z := 5.
(** Every props blob counts as oversized. *)
Definition c8Props (a : list SlackAttachment) : nat := S PostPropsMaxRunes.
Definition c8Copy (f : SlackFile) : option string := None.

(** Users "U1" ... "U9", a direct channel with a single known member and a
    group channel with nine. *)
Definition c10Members : list string := ["U1"; "U2"; "U3"; "U4"; "U5"; "U6"; "U7"; "U8"; "U9"].
Definition c10Users : gmap string IntermediateUser := list_to_map ((fun m => (m, c8User)) <$> c10Members).
Definition c10Direct : SlackChannel := mkSlackChannel "D1" "" ["U1"; "X"] "" "" ChannelTypeDirect.
Definition c10Group : SlackChannel := mkSlackChannel "G1" "mpdm-group" c10Members "" "big-group" ChannelTypeGroup.
Definition c10Truncate (s : string) (n : nat) : string := String.substring 0 n s.
Definition c10Valid (s : string) : bool := true.
Definition c10Lower (s : string) : string := s.
Definition c10Convert (name id : string) : string := name.

(** Two Slack users sharing the id "U1", the second without an email. *)
Definition x10Users : list SlackUser :=
  [mkSlackUser "U1" "alice" (mkSlackProfile "Alice" "" "" "alice@example.com");
   mkSlackUser "U1" "bob" (mkSlackProfile "Bob" "" "" "")].
Definition x10Inter : Intermediate := mkIntermediate [] [] [] [] ∅ [].
(** Every group channel counts as a regular one. *)
Definition x21Split (cs : list SlackChannel) (n : nat) : list SlackChannel * list SlackChannel := (cs, []).
(** An export with the users of [x10Users], the direct channel of C10 and
    one message in it. *)
Definition x21Export : SlackExport :=
  mkSlackExport x10Users [] [] [] [mkSlackChannel "D1" "" ["U1"; "U1"] "" "" ChannelTypeDirect]
    [("D1", [c8Msg])].

(* ================================================================== *)
(* ================================================================== *)
(** * Properties *)

(* ------------------------------------------------------------------ *)
(** ** int64 wrap-around and the de-duplication loop *)

Lemma wrap64_id (z : Z) : is_int64 z -> wrap64 z = z.
Proof.
  unfold is_int64, int64_min, int64_max, wrap64. intros Hz.
  rewrite Z.mod_small; lia.
Qed.

Lemma wrap64_is_int64 (z : Z) : is_int64 (wrap64 z).
Proof.
  unfold is_int64, int64_min, int64_max, wrap64.
  pose proof (Z.mod_pos_bound (z + 2 ^ 63) (2 ^ 64)). lia.
Qed.

Lemma wrap64_add_l (x y : Z) : wrap64 (wrap64 x + y) = wrap64 (x + y).
Proof.
  unfold wrap64. f_equal.
  replace ((x + 2 ^ 63) mod 2 ^ 64 - 2 ^ 63 + y + 2 ^ 63)%Z
    with ((x + 2 ^ 63) mod 2 ^ 64 + y)%Z by lia.
  rewrite Z.add_mod_idemp_l by lia. f_equal. lia.
Qed.

Lemma stepTS_0 (c : Z) : is_int64 c -> stepTS c 0 = c.
Proof. intros H. unfold stepTS. rewrite Z.add_0_r. by apply wrap64_id. Qed.

Lemma stepTS_S (c : Z) (k : nat) : stepTS (wrap64 (c + 1)) k = stepTS c (S k).
Proof. unfold stepTS. rewrite wrap64_add_l. f_equal. lia. Qed.

Lemma stepTS_inj (c : Z) (k j : nat) :
  (Z.of_nat k < 2 ^ 64)%Z -> (Z.of_nat j < 2 ^ 64)%Z -> stepTS c k = stepTS c j -> k = j.
Proof.
  unfold stepTS, wrap64. intros Hk Hj Heq.
  assert (Hm : ((c + Z.of_nat k + 2 ^ 63) mod 2 ^ 64 = (c + Z.of_nat j + 2 ^ 63) mod 2 ^ 64)%Z) by lia.
  apply Z.cong_iff_0 in Hm.
  apply Z.mod_divide in Hm; [|lia]. destruct Hm as [q Hq].
  assert (q = 0)%Z by nia. subst q. lia.
Qed.

(** The loop stops after the least number of increments that reaches a
    value absent from the ledger, or when the fuel runs out. *)
Lemma dedupLoop_spec (fuel : nat) (L : gset Z) (c : Z) :
  is_int64 c ->
  exists n, n <= fuel /\ dedupLoop fuel L c = stepTS c n /\
    (forall k, k < n -> stepTS c k ∈ L) /\ (n < fuel -> stepTS c n ∉ L).
Proof.
  revert c. induction fuel as [|fuel IH]; intros c Hc; simpl.
  - exists 0. split; [lia|]. split; [by rewrite stepTS_0|]. split; intros; lia.
  - case_decide as Hin.
    + destruct (IH (wrap64 (c + 1)) (wrap64_is_int64 _)) as (n & Hn & Heq & Hlt & Hfree).
      exists (S n). rewrite Heq, stepTS_S. split; [lia|]. split; [done|]. split.
      * intros [|k] Hk; [by rewrite stepTS_0 |]. rewrite <- stepTS_S. apply Hlt. lia.
      * intros Hn'. rewrite <- stepTS_S. apply Hfree. lia.
    + exists 0. rewrite stepTS_0 by done. split; [lia|]. split; [done|]. split; [intros; lia | done].
Qed.

(** With fuel [size L + 1] the loop always ends on a free value: the
    [size L + 1] values [c, c+1, ..., c+size L] are distinct int64 values,
    so they cannot all lie in the ledger. *)
Lemma dedupCreateAt_spec (L : gset Z) (c : Z) :
  is_int64 c -> (Z.of_nat (size L) < 2 ^ 64)%Z ->
  exists n, n <= size L /\ dedupCreateAt L c = stepTS c n /\
    (forall k, k < n -> stepTS c k ∈ L) /\ stepTS c n ∉ L.
Proof.
  intros Hc Hsize. unfold dedupCreateAt.
  destruct (dedupLoop_spec (S (size L)) L c Hc) as (n & Hn & Heq & Hlt & Hfree).
  destruct (decide (n < S (size L))) as [Hn'|Hn'].
  - exists n. split; [lia|]. split; [done|]. split; [done | by apply Hfree].
  - exfalso. assert (n = S (size L)) by lia. subst n.
    set (X := list_to_set (stepTS c <$> seq 0 (S (size L))) : gset Z).
    assert (HX : X ⊆ L).
    { intros z Hz. apply elem_of_list_to_set, list_elem_of_fmap in Hz as (k & -> & Hk).
      apply list_elem_of_In, in_seq in Hk. apply Hlt. lia. }
    apply subseteq_size in HX. unfold X in HX.
    rewrite size_list_to_set in HX.
    + rewrite length_fmap, length_seq in HX. lia.
    + apply NoDup_fmap_2_strong; [|apply NoDup_seq].
      intros k j Hk Hj Hkj.
      apply list_elem_of_In, in_seq in Hk. apply list_elem_of_In, in_seq in Hj.
      apply (stepTS_inj c); [lia | lia | done].
Qed.

(* ------------------------------------------------------------------ *)
(** ** The thread store *)

Lemma omap_ext_elem {A B} (f g : A -> option B) (l : list A) :
  (forall x, x ∈ l -> f x = g x) -> omap f l = omap g l.
Proof.
  induction l as [|x l IH]; intros Hfg; simpl; [done|].
  rewrite (Hfg x) by set_solver.
  assert (E : omap f l = omap g l) by (apply IH; set_solver).
  change (list_omap A B f l) with (omap f l). change (list_omap A B g l) with (omap g l).
  by rewrite E.
Qed.

Lemma omap_cons_eq {A B} (f : A -> option B) (x : A) (l : list A) :
  omap f (x :: l) = match f x with Some y => y :: omap f l | None => omap f l end.
Proof. reflexivity. Qed.

Lemma map_values_perm (m : gmap string loc) :
  map snd (map_to_list m) ≡ₚ omap (fun T => m !! T) (elements (dom m)).
Proof.
  induction m as [|T l m Hnone IH] using map_ind.
  - by rewrite map_to_list_empty, dom_empty_L, elements_empty.
  - rewrite map_to_list_insert by done. rewrite dom_insert_L.
    rewrite elements_union_singleton by (by apply not_elem_of_dom).
    rewrite omap_cons_eq, lookup_insert_eq. cbn [map snd]. constructor.
    rewrite IH. erewrite omap_ext_elem; [done|].
    intros T' HT'. cbv beta. apply elem_of_elements, elem_of_dom in HT'.
    rewrite lookup_insert_ne; [done|]. intros ->. rewrite Hnone in HT'. by destruct HT'.
Qed.

Lemma LookupThread_backend (h : Heap) (s : ThreadsStorage) (T : string) :
  ts_backend (LookupThread h s T).2 = ts_backend s.
Proof.
  unfold LookupThread. destruct (ts_local s !! T); [done|].
  destruct (remoteLookup (ts_backend s) T); [|done]. by destruct (decodePost _ h).
Qed.

Lemma runOps_backend (h : Heap) (s : ThreadsStorage) (ops : list StoreOp) :
  ts_backend (runOps h s ops).2 = ts_backend s.
Proof.
  revert h s. induction ops as [|[T l|T|T] ops IH]; intros h s; simpl; [done | | | done].
  - by rewrite IH.
  - pose proof (LookupThread_backend h s T) as Hb.
    destruct (LookupThread h s T) as [[o h'] s']. simpl in Hb. by rewrite IH.
Qed.

(** The local map of an instance holds exactly the touched identifiers. *)
Lemma runOps_dom (h : Heap) (s : ThreadsStorage) (acc : gset string) (ops : list StoreOp) :
  dom (ts_local s) = acc ->
  dom (ts_local (runOps h s ops).2) = touchedIds (ts_backend s) acc ops.
Proof.
  revert h s acc. induction ops as [|[T l|T|T] ops IH]; intros h s acc Hdom; simpl; [done | | | by apply IH].
  - apply (IH h (StoreThread s T l)). simpl. by rewrite dom_insert_L, Hdom.
  - unfold LookupThread. destruct (ts_local s !! T) as [l|] eqn:Hl.
    + rewrite bool_decide_true.
      2: { left. rewrite <- Hdom. apply elem_of_dom. by eexists. }
      assert (E : {[T]} ∪ acc = acc).
      { apply subseteq_union_1_L. rewrite <- Hdom. intros x ->%elem_of_singleton.
        apply elem_of_dom. by eexists. }
      rewrite E. by apply IH.
    + destruct (remoteLookup (ts_backend s) T) as [v|] eqn:Hr.
      * rewrite bool_decide_true by (right; by eexists).
        destruct (decodePost v h) as [l h'].
        apply (IH h' (mkThreadsStorage (ts_backend s) (<[T:=l]> (ts_local s)))).
        simpl. by rewrite dom_insert_L, Hdom.
      * rewrite bool_decide_false.
        2: { intros [HT|[? HT]]; [|done]. rewrite <- Hdom in HT.
             apply elem_of_dom in HT. rewrite Hl in HT. by destruct HT. }
        by apply IH.
Qed.

Lemma decodePost_alloc (v : PostJSON) (h : Heap) :
  is_Some (h_posts (decodePost v h).2 !! (decodePost v h).1).
Proof.
  destruct v. simpl. destruct (decodeReplies decodePost _ h) as [ls h1].
  simpl. rewrite lookup_insert_eq. by eexists.
Qed.

Lemma heap_ext_trans (h1 h2 h3 : Heap) : heap_ext h1 h2 -> heap_ext h2 h3 -> heap_ext h1 h3.
Proof.
  intros (W2 & N2 & P2) (W3 & N3 & P3). split; [done|]. split; [lia|].
  intros l' Hl'. rewrite P3 by lia. by apply P2.
Qed.

Lemma alloc_ext (p : IntermediatePost) (h : Heap) :
  heap_wf h -> heap_ext h (alloc p h).2 /\ (alloc p h).1 = h_next h.
Proof.
  intros Hwf. unfold alloc. cbn [fst snd h_posts h_next]. split; [|done]. split; [|split].
  - intros l Hl. cbn [h_posts h_next] in *. destruct (decide (l = h_next h)) as [->|Hne]; [lia|].
    rewrite lookup_insert_ne in Hl by done. apply Hwf in Hl. lia.
  - cbn [h_next]. lia.
  - intros l' Hl'. cbn [h_posts]. apply lookup_insert_ne. lia.
Qed.

Lemma decodePost_fresh (v : PostJSON) :
  forall h, heap_wf h ->
  heap_ext h (decodePost v h).2 /\ h_next h <= (decodePost v h).1.
Proof.
  induction v as [u c m pr ca atts rs dir mem Hrs] using PostJSON_nested_ind.
  intros h Hwf. simpl.
  assert (Hgo : forall h0, heap_wf h0 -> heap_ext h0 (decodeReplies decodePost rs h0).2).
  { clear Hwf h. induction Hrs as [|r rs' Hr Hrs' IHrs]; intros h0 Hwf0; simpl.
    - split; [done|]. split; [lia|done].
    - destruct (Hr h0 Hwf0) as [E1 _].
      destruct (decodePost r h0) as [l h'] eqn:Hd. simpl in E1.
      specialize (IHrs h' (proj1 E1)).
      destruct (decodeReplies decodePost rs' h') as [ls h''] eqn:Hdr. simpl in *.
      by apply (heap_ext_trans _ h'). }
  specialize (Hgo h Hwf).
  destruct (decodeReplies decodePost rs h) as [ls h1] eqn:Hdr. simpl in Hgo.
  destruct (alloc_ext (mkIntermediatePost u c m pr ca atts ls dir mem) h1 (proj1 Hgo)) as [Ha Hl].
  split; [by apply (heap_ext_trans _ h1)|]. rewrite Hl. apply Hgo.
Qed.

Lemma elem_of_GetChangedThreads (s : ThreadsStorage) (T : string) (l : loc) :
  ts_local s !! T = Some l -> l ∈ GetChangedThreads s.
Proof.
  intros HT. unfold GetChangedThreads. apply list_elem_of_fmap.
  exists (T, l). split; [done|]. by apply elem_of_map_to_list.
Qed.

Lemma runOps_fresh_local (b : Backend) (h : Heap) (ops : list StoreOp) (T : string) :
  T ∈ touchedIds b ∅ ops <-> is_Some (ts_local (runOps h (mkThreadsStorage b ∅) ops).2 !! T).
Proof.
  rewrite <- elem_of_dom.
  rewrite (runOps_dom h (mkThreadsStorage b ∅) ∅ ops) by (simpl; apply dom_empty_L). done.
Qed.

(** C5 (amended). After [StoreThread(T, P)] on either variant,
    [HasThread(T)] is true and [LookupThread(T)] returns the pointer [P]
    itself, without touching the heap. For an identifier that an instance
    never stored or fetched and that its backing store does not hold (the
    memory variant has none), [HasThread] is false and [LookupThread]
    returns nil and changes nothing. A cache-backed instance, whatever it
    stored or fetched before, answers [HasThread(T) = true] and finds a
    post for [T] whenever the shared backing store holds the key of [T],
    for instance one another instance left there. *)
Theorem C5_store_then_lookup :
  (forall (h : Heap) (s : ThreadsStorage) (T : string) (l : loc),
     HasThread (StoreThread s T l) T = true /\
     LookupThread h (StoreThread s T l) T = (Some l, h, StoreThread s T l)) /\
  (forall (b : Backend) (h : Heap) (ops : list StoreOp) (T : string),
     T ∉ touchedIds b ∅ ops -> remoteLookup b T = None ->
     let '(h', s') := runOps h (mkThreadsStorage b ∅) ops in
     HasThread s' T = false /\ LookupThread h' s' T = (None, h', s')) /\
  (forall (ch : string) (remote : gmap string PostJSON) (h : Heap) (ops : list StoreOp) (T : string),
     is_Some (remote !! redisKey ch T) ->
     let '(h', s') := runOps h (mkThreadsStorage (RedisBackend ch remote) ∅) ops in
     HasThread s' T = true /\ is_Some ((LookupThread h' s' T).1.1)).
Proof.
  split; [|split].
  - intros h s T l. unfold HasThread, LookupThread, StoreThread. simpl.
    rewrite lookup_insert_eq. done.
  - intros b h ops T Hnt Hr.
    pose proof (runOps_fresh_local b h ops T) as Hloc.
    pose proof (runOps_backend h (mkThreadsStorage b ∅) ops) as Hb.
    destruct (runOps h (mkThreadsStorage b ∅) ops) as [h' s']. simpl in *.
    assert (Hn : ts_local s' !! T = None).
    { destruct (ts_local s' !! T) eqn:E; [|done]. exfalso. apply Hnt, Hloc. by eexists. }
    unfold HasThread, LookupThread. rewrite Hn, Hb, Hr. split; [|done].
    apply bool_decide_false. by intros [? ?].
  - intros ch remote h ops T [v Hv].
    pose proof (runOps_backend h (mkThreadsStorage (RedisBackend ch remote) ∅) ops) as Hb.
    destruct (runOps h (mkThreadsStorage (RedisBackend ch remote) ∅) ops) as [h' s']. simpl in Hb.
    unfold HasThread, LookupThread. rewrite Hb. simpl. rewrite Hv.
    destruct (ts_local s' !! T) as [l|]; simpl; [split; [done | by eexists]|].
    split; [first [done | apply bool_decide_true; by eexists]|].
    destruct (decodePost v h') as [l h'']. simpl. by eexists.
Qed.

Lemma C5_witness :
  "11" ∉ touchedIds MemoryBackend ∅ [OpStore "21" 0; OpLookup "11"] /\
  remoteLookup MemoryBackend "11" = None /\
  (let '(h', s') := runOps (mkHeap ∅ 0) (mkThreadsStorage MemoryBackend ∅) [OpStore "21" 0; OpLookup "11"] in
   HasThread s' "11" = false /\ LookupThread h' s' "11" = (None, h', s')) /\
  HasThread (StoreThread newMemoryStorage "11" 0) "11" = true /\
  is_Some (({[ "channel:11" := sampleDoc ]} : gmap string PostJSON) !! redisKey "channel" "11") /\
  (let '(h', s') := runOps (mkHeap ∅ 0)
       (mkThreadsStorage (RedisBackend "channel" {[ "channel:11" := sampleDoc ]}) ∅) [OpStore "21" 0] in
   HasThread s' "11" = true /\ is_Some ((LookupThread h' s' "11").1.1)).
Proof.
  split; [vm_compute; set_solver|]. split; [reflexivity|]. split.
  - apply (proj1 (proj2 C5_store_then_lookup) MemoryBackend (mkHeap ∅ 0) [OpStore "21" 0; OpLookup "11"] "11");
      [vm_compute; set_solver | reflexivity].
  - split; [apply (proj1 C5_store_then_lookup (mkHeap ∅ 0) newMemoryStorage "11" 0)|].
    split; [vm_compute; eexists; reflexivity|].
    apply (proj2 (proj2 C5_store_then_lookup) "channel" {[ "channel:11" := sampleDoc ]} (mkHeap ∅ 0) [OpStore "21" 0] "11").
    vm_compute. eexists; reflexivity.
Defined.

(** C5, as stated, fails for the cache-backed variant: an instance that
    never stored or fetched ["11"] still answers [HasThread("11") = true]
    when another instance left ["channel:11"] in the backing store. *)
Lemma C5_counterexample :
  ~ (forall (b : Backend) (h : Heap) (ops : list StoreOp) (T : string),
       T ∉ touchedIds b ∅ ops ->
       let '(h', s') := runOps h (mkThreadsStorage b ∅) ops in HasThread s' T = false).
Proof.
  intros H.
  specialize (H (RedisBackend "channel" {[ "channel:11" := sampleDoc ]}) (mkHeap ∅ 0) [] "11").
  simpl in H. specialize (H ltac:(set_solver)). vm_compute in H. discriminate.
Qed.

(** C6. For every store instance (either variant, any content of the
    backing store), after any history of calls the local map holds exactly
    the touched identifiers (stored, or successfully looked up) and
    [GetChangedThreads] returns, up to order, one post per touched
    identifier: the post [LookupThread] returns for it. Untouched
    identifiers contribute nothing, even when the backing store holds them. *)
Theorem C6_changed_is_touched (b : Backend) (h : Heap) (ops : list StoreOp) :
  let '(h', s') := runOps h (mkThreadsStorage b ∅) ops in
  (forall T, T ∈ touchedIds b ∅ ops <-> is_Some (ts_local s' !! T)) /\
  GetChangedThreads s' ≡ₚ omap (fun T => fst (fst (LookupThread h' s' T))) (elements (touchedIds b ∅ ops)).
Proof.
  pose proof (runOps_fresh_local b h ops) as Hloc.
  pose proof (runOps_dom h (mkThreadsStorage b ∅) ∅ ops ltac:(simpl; apply dom_empty_L)) as Hdom.
  destruct (runOps h (mkThreadsStorage b ∅) ops) as [h' s']. simpl in *.
  split; [done|].
  unfold GetChangedThreads. rewrite map_values_perm, Hdom.
  apply Permutation_refl'. apply omap_ext_elem.
  intros T HT. apply elem_of_elements in HT. rewrite <- Hdom in HT.
  apply elem_of_dom in HT as [l Hl]. unfold LookupThread. by rewrite Hl.
Qed.

(** C7. A post returned by [LookupThread(T)] is live: after appending a
    reply to it in place, the next [LookupThread(T)] returns the same
    pointer, whose object carries the appended reply, and the pointer is
    among [GetChangedThreads]. This holds whether [T] was stored by this
    instance or fetched from the backing store by the first lookup. *)
Theorem C7_lookup_is_live (h : Heap) (s : ThreadsStorage) (T : string) (r : loc) :
  store_in_heap s h -> HasThread s T = true ->
  exists l p h1 s1,
    LookupThread h s T = (Some l, h1, s1) /\ h_posts h1 !! l = Some p /\
    let h2 := modify l (appendReply r) h1 in
    LookupThread h2 s1 T = (Some l, h2, s1) /\
    h_posts h2 !! l = Some (appendReply r p) /\ ip_Replies (appendReply r p) = ip_Replies p ++ [r] /\
    l ∈ GetChangedThreads s1.
Proof.
  intros Hin Hhas. unfold HasThread in Hhas. unfold LookupThread.
  destruct (ts_local s !! T) as [l|] eqn:Hl.
  - destruct (Hin T l Hl) as [p Hp].
    exists l, p, h, s. split; [done|]. split; [done|]. cbn zeta.
    rewrite Hl. split; [done|]. split.
    + unfold modify. cbn [h_posts]. by rewrite lookup_alter_eq, Hp.
    + split; [done|]. by apply (elem_of_GetChangedThreads s T).
  - apply bool_decide_eq_true in Hhas. destruct (remoteLookup (ts_backend s) T) as [v|]; [|by destruct Hhas].
    pose proof (decodePost_alloc v h) as [p Hp].
    destruct (decodePost v h) as [l h'] eqn:Hd. simpl in Hp.
    exists l, p, h', (mkThreadsStorage (ts_backend s) (<[T:=l]> (ts_local s))).
    split; [done|]. split; [done|]. cbn zeta. cbn [ts_local]. rewrite lookup_insert_eq.
    split; [done|]. split.
    + unfold modify. cbn [h_posts]. by rewrite lookup_alter_eq, Hp.
    + split; [done|]. apply (elem_of_GetChangedThreads _ T). simpl. apply lookup_insert_eq.
Qed.

Lemma C7_witness :
  store_in_heap newMemoryStorage (mkHeap ∅ 0) /\
  HasThread (newRedisStorage "channel" {[ "channel:31" := sampleDoc ]}) "31" = true /\
  exists l p h1 s1,
    LookupThread (mkHeap ∅ 0) (newRedisStorage "channel" {[ "channel:31" := sampleDoc ]}) "31" = (Some l, h1, s1) /\
    h_posts h1 !! l = Some p /\
    let h2 := modify l (appendReply 7) h1 in
    LookupThread h2 s1 "31" = (Some l, h2, s1) /\
    h_posts h2 !! l = Some (appendReply 7 p) /\ ip_Replies (appendReply 7 p) = ip_Replies p ++ [7] /\
    l ∈ GetChangedThreads s1.
Proof.
  split; [intros T l; simpl; by rewrite lookup_empty|]. split; [reflexivity|].
  apply C7_lookup_is_live; [intros T l; simpl; by rewrite lookup_empty | reflexivity].
Defined.

(* ------------------------------------------------------------------ *)
(** ** Thread assembly *)

Lemma modify_lookup_ne (l l' : loc) (f : IntermediatePost -> IntermediatePost) (h : Heap) :
  l <> l' -> h_posts (modify l f h) !! l' = h_posts h !! l'.
Proof. intros Hne. unfold modify. cbn [h_posts]. by apply lookup_alter_ne. Qed.

Lemma modify_lookup_eq (l : loc) (f : IntermediatePost -> IntermediatePost) (h : Heap) :
  h_posts (modify l f h) !! l = f <$> h_posts h !! l.
Proof. unfold modify. cbn [h_posts]. apply lookup_alter_eq. Qed.

Lemma modify_next (l : loc) (f : IntermediatePost -> IntermediatePost) (h : Heap) :
  h_next (modify l f h) = h_next h.
Proof. done. Qed.

Lemma modify_wf (l : loc) (f : IntermediatePost -> IntermediatePost) (h : Heap) :
  heap_wf h -> heap_wf (modify l f h).
Proof.
  intros Hwf l' Hl'. rewrite modify_next. apply Hwf.
  destruct (decide (l = l')) as [->|Hne].
  - rewrite modify_lookup_eq in Hl'. destruct (h_posts h !! l'); [by eexists | by destruct Hl'].
  - by rewrite modify_lookup_ne in Hl'.
Qed.

(** A field [g] that [f] leaves alone reads the same after [modify]. *)
Lemma modify_field {A} (g : IntermediatePost -> A) (l l' : loc) (f : IntermediatePost -> IntermediatePost) (h : Heap) :
  (forall p, g (f p) = g p) -> g <$> h_posts (modify l f h) !! l' = g <$> h_posts h !! l'.
Proof.
  intros Hg. destruct (decide (l = l')) as [->|Hne].
  - rewrite modify_lookup_eq. destruct (h_posts h !! l'); simpl; [by rewrite Hg | done].
  - by rewrite modify_lookup_ne.
Qed.

Lemma readCreateAt_modify (l l' : loc) (f : IntermediatePost -> IntermediatePost) (h : Heap) :
  (forall p, ip_CreateAt (f p) = ip_CreateAt p) -> readCreateAt (modify l f h) l' = readCreateAt h l'.
Proof. intros Hg. unfold readCreateAt. by rewrite (modify_field ip_CreateAt). Qed.

Lemma readUser_modify (l l' : loc) (f : IntermediatePost -> IntermediatePost) (h : Heap) :
  (forall p, ip_User (f p) = ip_User p) -> readUser (modify l f h) l' = readUser h l'.
Proof. intros Hg. unfold readUser. by rewrite (modify_field ip_User). Qed.

Lemma readCreateAt_set (l : loc) (c : Z) (h : Heap) :
  is_Some (h_posts h !! l) -> readCreateAt (modify l (set_CreateAt c) h) l = c.
Proof. intros [p Hp]. unfold readCreateAt. by rewrite modify_lookup_eq, Hp. Qed.

Lemma LookupThread_none (h : Heap) (s : ThreadsStorage) (T : string) :
  HasThread s T = false -> LookupThread h s T = (None, h, s).
Proof.
  unfold HasThread, LookupThread. destruct (ts_local s !! T); [done|].
  destruct (remoteLookup (ts_backend s) T); [|done].
  intros H. apply bool_decide_eq_false in H. exfalso. apply H. by eexists.
Qed.

(** A lookup leaves the existing heap objects alone. *)
Lemma LookupThread_heap (h : Heap) (s : ThreadsStorage) (T : string) :
  heap_wf h ->
  let '(_, h', _) := LookupThread h s T in
  heap_wf h' /\ forall l, l < h_next h -> h_posts h' !! l = h_posts h !! l.
Proof.
  intros Hwf. unfold LookupThread. destruct (ts_local s !! T); [done|].
  destruct (remoteLookup (ts_backend s) T) as [v|]; [|done].
  destruct (decodePost_fresh v h Hwf) as [(W & _ & P) _].
  destruct (decodePost v h) as [l h']. simpl in *. done.
Qed.


(** Updating a live post commutes with deserialisation, which only
    allocates at fresh locations. *)
Lemma alloc_modify (k : loc) (f : IntermediatePost -> IntermediatePost) (p : IntermediatePost) (h : Heap) :
  k < h_next h -> alloc p (modify k f h) = ((alloc p h).1, modify k f (alloc p h).2).
Proof.
  intros Hk. unfold alloc, modify. cbn [fst snd h_posts h_next]. do 2 f_equal.
  symmetry. apply alter_insert_ne. lia.
Qed.

Lemma decodePost_modify (k : loc) (f : IntermediatePost -> IntermediatePost) (v : PostJSON) :
  forall h, k < h_next h ->
  decodePost v (modify k f h) = ((decodePost v h).1, modify k f (decodePost v h).2) /\
  h_next h <= h_next (decodePost v h).2.
Proof.
  induction v as [u c m pr ca atts rs dir mem Hrs] using PostJSON_nested_ind.
  intros h Hk. simpl.
  assert (Hgo : forall h0, k < h_next h0 ->
    decodeReplies decodePost rs (modify k f h0)
      = ((decodeReplies decodePost rs h0).1, modify k f (decodeReplies decodePost rs h0).2) /\
    h_next h0 <= h_next (decodeReplies decodePost rs h0).2).
  { clear Hk h. induction Hrs as [|r rs' Hr Hrs' IHrs]; intros h0 Hk0; simpl; [split; [done | lia]|].
    destruct (Hr h0 Hk0) as [E1 N1].
    destruct (decodePost r h0) as [l h'] eqn:Hd. simpl in E1, N1. rewrite E1.
    destruct (IHrs h' ltac:(lia)) as [E2 N2].
    destruct (decodeReplies decodePost rs' h') as [ls h''] eqn:Hdr. simpl in E2, N2. rewrite E2.
    simpl. split; [done | lia]. }
  destruct (Hgo h Hk) as [E N].
  destruct (decodeReplies decodePost rs h) as [ls h1] eqn:Hdr. simpl in E, N. rewrite E.
  rewrite alloc_modify by lia. split; [done|]. simpl. lia.
Qed.

Lemma LookupThread_modify (k : loc) (f : IntermediatePost -> IntermediatePost) (h : Heap)
    (s : ThreadsStorage) (T : string) :
  k < h_next h ->
  LookupThread (modify k f h) s T =
    let '(o, h', s') := LookupThread h s T in (o, modify k f h', s').
Proof.
  intros Hk. unfold LookupThread. destruct (ts_local s !! T); [done|].
  destruct (remoteLookup (ts_backend s) T) as [v|]; [|done].
  destruct (decodePost_modify k f v h Hk) as [E _]. rewrite E.
  by destruct (decodePost v h).
Qed.

Section AssemblyProps.

Variable RuneCountInString : string -> nat.
Variable runesPrefix : string -> nat -> string.

Let Add := AddPostToThreads RuneCountInString runesPrefix.

Lemma direct_update_CreateAt (channel : IntermediateChannel) (p : IntermediatePost) :
  ip_CreateAt (direct_update channel p) = ip_CreateAt p.
Proof. unfold direct_update. by destruct isDirectOrGroup. Qed.

Lemma direct_update_User (channel : IntermediateChannel) (p : IntermediatePost) :
  ip_User (direct_update channel p) = ip_User p.
Proof. unfold direct_update. by destruct isDirectOrGroup. Qed.

Lemma direct_update_Replies (channel : IntermediateChannel) (p : IntermediatePost) :
  ip_Replies (direct_update channel p) = ip_Replies p.
Proof. unfold direct_update. by destruct isDirectOrGroup. Qed.

Lemma SanitisePost_CreateAt (p : IntermediatePost) :
  ip_CreateAt (SanitisePost RuneCountInString runesPrefix p) = ip_CreateAt p.
Proof. unfold SanitisePost. by case_decide. Qed.

Lemma SanitisePost_Replies (p : IntermediatePost) :
  ip_Replies (SanitisePost RuneCountInString runesPrefix p) = ip_Replies p.
Proof. unfold SanitisePost. by case_decide. Qed.

Lemma readCreateAt_direct (post l : loc) (channel : IntermediateChannel) (h : Heap) :
  readCreateAt (modify post (direct_update channel) h) l = readCreateAt h l.
Proof. apply readCreateAt_modify, direct_update_CreateAt. Qed.

(** Only the ledger gains the resolved value, on every path. *)
Lemma AddPostToThreads_timestamps (original : SlackPost) (post : loc) (channel : IntermediateChannel)
    (imp : bool) (w : World) :
  w_timestamps (Add original post channel imp w) =
  {[ dedupCreateAt (w_timestamps w) (readCreateAt (w_heap w) post) ]} ∪ w_timestamps w.
Proof.
  unfold Add, AddPostToThreads. rewrite readCreateAt_direct.
  destruct (bool_decide _ && bool_decide _).
  - destruct (LookupThread _ _ _) as [[[rootPost|] h3] s3]; [|done].
    by destruct (negb imp && _).
  - by destruct (bool_decide _).
Qed.

(** C1 (amended). The creation time the call leaves on the post is the
    collision-resolved value [dedupCreateAt] (for roots and replies); the
    store key of a root is the message's original timestamp string
    [TimeStamp] (which equals [ThreadTS] when that is set), not a value
    derived from the resolved creation time. *)
Theorem C1_resolved_createAt_and_root_key (original : SlackPost) (post : loc)
    (channel : IntermediateChannel) (imp : bool) (w : World) :
  heap_wf (w_heap w) -> is_Some (h_posts (w_heap w) !! post) ->
  let w' := Add original post channel imp w in
  readCreateAt (w_heap w') post = dedupCreateAt (w_timestamps w) (readCreateAt (w_heap w) post) /\
  (is_root original -> ts_local (w_threads w') !! sp_TimeStamp original = Some post).
Proof.
  intros Hwf Hpost. cbn zeta. unfold Add, AddPostToThreads. rewrite readCreateAt_direct.
  set (c := dedupCreateAt (w_timestamps w) (readCreateAt (w_heap w) post)).
  set (h1 := modify post (direct_update channel) (w_heap w)).
  set (h2 := modify post (set_CreateAt c) h1).
  assert (Hw2 : heap_wf h2) by (apply modify_wf, modify_wf, Hwf).
  assert (Hc2 : readCreateAt h2 post = c).
  { apply readCreateAt_set. unfold h1. destruct Hpost as [p Hp].
    rewrite modify_lookup_eq, Hp. by eexists. }
  assert (Hlt : post < h_next h2) by (destruct Hpost as [p Hp]; apply Hwf; by eexists).
  destruct (bool_decide (sp_ThreadTS original <> "") && bool_decide (sp_ThreadTS original <> sp_TimeStamp original)) eqn:Hb.
  - pose proof (LookupThread_heap h2 (w_threads w) (sp_ThreadTS original) Hw2) as Hl.
    destruct (LookupThread h2 (w_threads w) (sp_ThreadTS original)) as [[o h3] s3].
    destruct Hl as [_ Hpres].
    assert (Hc3 : readCreateAt h3 post = c) by (unfold readCreateAt; rewrite Hpres by done; apply Hc2).
    split.
    + destruct o as [rootPost|]; [|done].
      destruct (negb imp && _); [done|]. simpl. by rewrite readCreateAt_modify.
    + intros [He|He]; apply andb_true_iff in Hb as [Hb1 Hb2];
        apply bool_decide_eq_true in Hb1; apply bool_decide_eq_true in Hb2; done.
  - destruct (bool_decide (sp_TimeStamp original = sp_ThreadTS original)) eqn:He; simpl.
    + split; [rewrite readCreateAt_modify; [done | apply SanitisePost_CreateAt]|].
      apply bool_decide_eq_true in He. rewrite He. intros _. apply lookup_insert_eq.
    + split; [rewrite readCreateAt_modify; [done | apply SanitisePost_CreateAt]|].
      intros _. apply lookup_insert_eq.
Qed.

(** The post carries its resolved creation time after the call, and the
    heap stays well formed. *)
Lemma AddPostToThreads_createAt (original : SlackPost) (post : loc)
    (channel : IntermediateChannel) (imp : bool) (w : World) :
  heap_wf (w_heap w) -> is_Some (h_posts (w_heap w) !! post) ->
  readCreateAt (w_heap (Add original post channel imp w)) post
    = dedupCreateAt (w_timestamps w) (readCreateAt (w_heap w) post) /\
  heap_wf (w_heap (Add original post channel imp w)).
Proof.
  intros Hwf Hpost. unfold Add, AddPostToThreads. rewrite readCreateAt_direct.
  set (c := dedupCreateAt (w_timestamps w) (readCreateAt (w_heap w) post)).
  set (h1 := modify post (direct_update channel) (w_heap w)).
  set (h2 := modify post (set_CreateAt c) h1).
  assert (Hw2 : heap_wf h2) by (apply modify_wf, modify_wf, Hwf).
  assert (Hc2 : readCreateAt h2 post = c).
  { apply readCreateAt_set. unfold h1. destruct Hpost as [p Hp].
    rewrite modify_lookup_eq, Hp. by eexists. }
  assert (Hlt : post < h_next h2) by (destruct Hpost as [p Hp]; apply Hwf; by eexists).
  destruct (bool_decide (sp_ThreadTS original <> "") && bool_decide (sp_ThreadTS original <> sp_TimeStamp original)).
  - pose proof (LookupThread_heap h2 (w_threads w) (sp_ThreadTS original) Hw2) as Hl.
    destruct (LookupThread h2 (w_threads w) (sp_ThreadTS original)) as [[o h3] s3].
    destruct Hl as [Hw3 Hpres].
    assert (Hc3 : readCreateAt h3 post = c) by (unfold readCreateAt; rewrite Hpres by done; apply Hc2).
    destruct o as [rootPost|]; [|done].
    destruct (negb imp && _); [done|]. simpl.
    split; [by rewrite readCreateAt_modify | by apply modify_wf].
  - destruct (bool_decide (sp_TimeStamp original = sp_ThreadTS original)); simpl;
      (split; [rewrite readCreateAt_modify; [done | apply SanitisePost_CreateAt] | by apply modify_wf]).
Qed.

Lemma set_CreateAt_User (c : Z) (p : IntermediatePost) : ip_User (set_CreateAt c p) = ip_User p.
Proof. by destruct p. Qed.

Lemma set_CreateAt_Replies (c : Z) (p : IntermediatePost) : ip_Replies (set_CreateAt c p) = ip_Replies p.
Proof. by destruct p. Qed.

(** The first two heap updates (members, then creation time) touch only
    [post] and keep every replies list. *)
Lemma prepare_heap (post : loc) (channel : IntermediateChannel) (c : Z) (h : Heap) :
  let h2 := modify post (set_CreateAt c) (modify post (direct_update channel) h) in
  (forall l, l <> post -> h_posts h2 !! l = h_posts h !! l) /\
  (forall l, ip_Replies <$> h_posts h2 !! l = ip_Replies <$> h_posts h !! l) /\
  (forall l, readUser h2 l = readUser h l).
Proof.
  cbn zeta. split; [|split].
  - intros l Hl. by rewrite !modify_lookup_ne.
  - intros l. rewrite (modify_field ip_Replies) by apply set_CreateAt_Replies.
    apply modify_field, direct_update_Replies.
  - intros l. rewrite readUser_modify by apply set_CreateAt_User.
    apply readUser_modify, direct_update_User.
Qed.

Lemma reply_guard (original : SlackPost) :
  is_reply original ->
  bool_decide (sp_ThreadTS original <> "") && bool_decide (sp_ThreadTS original <> sp_TimeStamp original) = true.
Proof. intros [H1 H2]. by rewrite !bool_decide_eq_true_2. Qed.

Lemma root_guard (original : SlackPost) :
  is_root original ->
  bool_decide (sp_ThreadTS original <> "") && bool_decide (sp_ThreadTS original <> sp_TimeStamp original) = false.
Proof.
  intros [H|H].
  - rewrite (bool_decide_eq_false_2 (sp_ThreadTS original <> "")); [done|]. tauto.
  - rewrite (bool_decide_eq_false_2 (sp_ThreadTS original <> sp_TimeStamp original)).
    + apply andb_false_r.
    + tauto.
Qed.

(** C3. A reply whose root is not in the store is dropped: the store is
    unchanged, no post other than the reply itself is modified (in
    particular no replies list changes), one failure line is logged, and
    the call returns a world normally. *)
Theorem C3_missing_root_dropped (original : SlackPost) (post : loc)
    (channel : IntermediateChannel) (imp : bool) (w : World) :
  is_reply original ->
  HasThread (w_threads w) (sp_ThreadTS original) = false ->
  let w' := Add original post channel imp w in
  w_threads w' = w_threads w /\
  (forall l, l <> post -> h_posts (w_heap w') !! l = h_posts (w_heap w) !! l) /\
  (forall l, ip_Replies <$> h_posts (w_heap w') !! l = ip_Replies <$> h_posts (w_heap w) !! l) /\
  w_log w' = w_log w ++ [LogLn LevelInfo msgRootNotFound (Some original)].
Proof.
  intros Hr Hno. cbn zeta. unfold Add, AddPostToThreads.
  rewrite (reply_guard original Hr), LookupThread_none by done. simpl.
  destruct (prepare_heap post channel
    (dedupCreateAt (w_timestamps w) (readCreateAt (modify post (direct_update channel) (w_heap w)) post))
    (w_heap w)) as (H1 & H2 & _).
  done.
Qed.

(** C4. A root (empty thread timestamp, or one equal to its own timestamp)
    is stored under its own timestamp, replacing any earlier entry; an
    overwrite line is logged exactly when an entry existed; the replies
    list of the new post is not merged with the old entry's, and no other
    post is modified. *)
Theorem C4_root_stored_overwrite (original : SlackPost) (post : loc)
    (channel : IntermediateChannel) (imp : bool) (w : World) :
  is_root original ->
  let w' := Add original post channel imp w in
  let T := sp_TimeStamp original in
  w_threads w' = StoreThread (w_threads w) T post /\
  (forall h, LookupThread h (w_threads w') T = (Some post, h, w_threads w')) /\
  w_log w' = w_log w ++ (if HasThread (w_threads w) T
                         then [LogLn LevelInfo (msgOverwrite T) None] else []) /\
  (forall l, ip_Replies <$> h_posts (w_heap w') !! l = ip_Replies <$> h_posts (w_heap w) !! l) /\
  (forall l, l <> post -> h_posts (w_heap w') !! l = h_posts (w_heap w) !! l).
Proof.
  intros Hr. cbn zeta. unfold Add, AddPostToThreads.
  rewrite (root_guard original Hr).
  set (c := dedupCreateAt _ _).
  destruct (prepare_heap post channel c (w_heap w)) as (H1 & H2 & _).
  assert (Hst : forall s T h, LookupThread h (StoreThread s T post) T = (Some post, h, StoreThread s T post)).
  { intros s T h. unfold LookupThread, StoreThread. simpl. by rewrite lookup_insert_eq. }
  assert (Hh : (forall l, ip_Replies <$> h_posts (modify post (SanitisePost RuneCountInString runesPrefix)
                  (modify post (set_CreateAt c) (modify post (direct_update channel) (w_heap w)))) !! l
                 = ip_Replies <$> h_posts (w_heap w) !! l) /\
               (forall l, l <> post -> h_posts (modify post (SanitisePost RuneCountInString runesPrefix)
                  (modify post (set_CreateAt c) (modify post (direct_update channel) (w_heap w)))) !! l
                 = h_posts (w_heap w) !! l)).
  { split.
    - intros l. rewrite (modify_field ip_Replies) by apply SanitisePost_Replies. apply H2.
    - intros l Hl. rewrite modify_lookup_ne by done. by apply H1. }
  destruct Hh as [Hh1 Hh2].
  destruct (bool_decide (sp_TimeStamp original = sp_ThreadTS original)) eqn:He; simpl.
  - apply bool_decide_eq_true in He. rewrite <- He.
    split_and!; auto. destruct (HasThread _ _); simpl; by rewrite ?app_nil_r.
  - split_and!; auto. destruct (HasThread _ _); simpl; by rewrite ?app_nil_r.
Qed.

(** C9. With workflow import off, a reply whose root exists in the store
    and was authored by the workflow user is dropped silently: no log
    line is written and no replies list changes; the resolved creation
    time is nevertheless in the ledger afterwards. When the root is in
    the local write cache, the store is unchanged. In general (the root
    may also be one the cache-backed variant fetches from its backing
    store), the store and the heap are the ones [LookupThread] leaves: the
    fetched root is cached and decoded into fresh locations, and every
    replies list reads as in that heap, hence as before the call for every
    post that already existed. *)
Theorem C9_workflow_reply_silent :
  (forall (original : SlackPost) (post rootPost : loc) (channel : IntermediateChannel) (w : World),
     is_reply original ->
     ts_local (w_threads w) !! sp_ThreadTS original = Some rootPost ->
     readUser (w_heap w) rootPost = WorkflowUserName ->
     let w' := Add original post channel false w in
     w_log w' = w_log w /\
     w_threads w' = w_threads w /\
     (forall l, ip_Replies <$> h_posts (w_heap w') !! l = ip_Replies <$> h_posts (w_heap w) !! l) /\
     dedupCreateAt (w_timestamps w) (readCreateAt (w_heap w) post) ∈ w_timestamps w') /\
  (forall (original : SlackPost) (post rootPost : loc) (channel : IntermediateChannel) (w : World)
          (h3 : Heap) (s3 : ThreadsStorage),
     is_reply original ->
     heap_wf (w_heap w) ->
     is_Some (h_posts (w_heap w) !! post) ->
     LookupThread (w_heap w) (w_threads w) (sp_ThreadTS original) = (Some rootPost, h3, s3) ->
     readUser h3 rootPost = WorkflowUserName ->
     let w' := Add original post channel false w in
     w_log w' = w_log w /\
     w_threads w' = s3 /\
     (forall l, ip_Replies <$> h_posts (w_heap w') !! l = ip_Replies <$> h_posts h3 !! l) /\
     (forall l, l < h_next (w_heap w) ->
        ip_Replies <$> h_posts (w_heap w') !! l = ip_Replies <$> h_posts (w_heap w) !! l) /\
     dedupCreateAt (w_timestamps w) (readCreateAt (w_heap w) post) ∈ w_timestamps w').
Proof.
  split.
  - intros original post rootPost channel w Hr Hloc Hu. cbn zeta.
    assert (Hts := AddPostToThreads_timestamps original post channel false w).
    revert Hts. unfold Add, AddPostToThreads. rewrite readCreateAt_direct.
    rewrite (reply_guard original Hr).
    set (c := dedupCreateAt _ _).
    destruct (prepare_heap post channel c (w_heap w)) as (_ & H2 & H3).
    unfold LookupThread. rewrite Hloc. simpl.
    rewrite H3, Hu, bool_decide_eq_true_2 by done. simpl.
    intros Hts. split_and!; [done..|]. set_solver.
  - intros original post rootPost channel w h3 s3 Hr Hwf Hp HL Hu. cbn zeta.
    assert (Hk : post < h_next (w_heap w)) by (by apply Hwf).
    pose proof (LookupThread_heap (w_heap w) (w_threads w) (sp_ThreadTS original) Hwf) as LH.
    rewrite HL in LH. destruct LH as [_ LH].
    assert (Hts := AddPostToThreads_timestamps original post channel false w).
    revert Hts. unfold Add, AddPostToThreads. rewrite readCreateAt_direct.
    rewrite (reply_guard original Hr).
    set (c := dedupCreateAt _ _).
    rewrite (LookupThread_modify post (set_CreateAt c)) by (rewrite modify_next; done).
    rewrite (LookupThread_modify post (direct_update channel)) by done.
    rewrite HL. cbn [fst snd].
    rewrite (readUser_modify _ _ _ _ (set_CreateAt_User c)).
    rewrite (readUser_modify _ _ _ _ (direct_update_User channel)).
    rewrite Hu, bool_decide_eq_true_2 by done. simpl.
    intros Hts.
    assert (HR : forall l, ip_Replies <$> h_posts (modify post (set_CreateAt c)
                   (modify post (direct_update channel) h3)) !! l = ip_Replies <$> h_posts h3 !! l).
    { intros l. rewrite (modify_field ip_Replies) by apply set_CreateAt_Replies.
      apply modify_field, direct_update_Replies. }
    split_and!; [done | done | exact HR | | set_solver].
    intros l Hl. rewrite HR, LH by done. done.
Qed.

(** C2 (amended). Each call resolves the creation time [c] to the least
    number of increments [n] that reaches a value absent from the ledger
    and records that value; the post carries that value as its creation
    time afterwards. For two messages of one channel with the same
    original creation time, the second processed on a world whose ledger
    contains the first call's ledger, the two resolved values are distinct
    and the second is absent from every value assigned before it. If the
    original creation time plus the size of the second ledger does not
    exceed the int64 maximum, the first is strictly less than the second;
    without that bound the increment can wrap to the int64 minimum (see
    [C2_counterexample]). *)
Theorem C2_dedup_distinct (o1 o2 : SlackPost) (p1 p2 : loc) (ch1 ch2 : IntermediateChannel)
    (imp1 imp2 : bool) (w1 w2 : World) (c : Z) :
  is_int64 c ->
  heap_wf (w_heap w1) -> is_Some (h_posts (w_heap w1) !! p1) ->
  heap_wf (w_heap w2) -> is_Some (h_posts (w_heap w2) !! p2) ->
  readCreateAt (w_heap w1) p1 = c ->
  readCreateAt (w_heap w2) p2 = c ->
  w_timestamps (Add o1 p1 ch1 imp1 w1) ⊆ w_timestamps w2 ->
  (Z.of_nat (size (w_timestamps w2)) < 2 ^ 64)%Z ->
  let L1 := w_timestamps w1 in
  let L2 := w_timestamps w2 in
  let r1 := dedupCreateAt L1 c in
  let r2 := dedupCreateAt L2 c in
  readCreateAt (w_heap (Add o1 p1 ch1 imp1 w1)) p1 = r1 /\
  readCreateAt (w_heap (Add o2 p2 ch2 imp2 w2)) p2 = r2 /\
  (exists n, r1 = stepTS c n /\ (forall k, k < n -> stepTS c k ∈ L1) /\ r1 ∉ L1) /\
  w_timestamps (Add o1 p1 ch1 imp1 w1) = {[ r1 ]} ∪ L1 /\
  (exists n, r2 = stepTS c n /\ (forall k, k < n -> stepTS c k ∈ L2) /\ r2 ∉ L2) /\
  w_timestamps (Add o2 p2 ch2 imp2 w2) = {[ r2 ]} ∪ L2 /\
  r1 <> r2 /\
  ((c + Z.of_nat (size L2) <= int64_max)%Z -> (r1 < r2)%Z).
Proof.
  intros Hc Hw1 Hs1' Hw2 Hs2' Hp1 Hp2 Hsub Hsize. cbn zeta.
  destruct (AddPostToThreads_createAt o1 p1 ch1 imp1 w1 Hw1 Hs1') as [Hr1c _].
  destruct (AddPostToThreads_createAt o2 p2 ch2 imp2 w2 Hw2 Hs2') as [Hr2c _].
  rewrite Hp1 in Hr1c. rewrite Hp2 in Hr2c.
  pose proof (AddPostToThreads_timestamps o1 p1 ch1 imp1 w1) as Ht1.
  pose proof (AddPostToThreads_timestamps o2 p2 ch2 imp2 w2) as Ht2.
  unfold Add in Ht1, Ht2, Hsub |- *. rewrite Hp1 in Ht1. rewrite Hp2 in Ht2.
  rewrite Ht1 in Hsub.
  assert (HL : w_timestamps w1 ⊆ w_timestamps w2) by set_solver.
  assert (Hs1 : (Z.of_nat (size (w_timestamps w1)) < 2 ^ 64)%Z).
  { apply subseteq_size in HL. lia. }
  destruct (dedupCreateAt_spec _ c Hc Hs1) as (n1 & Hn1 & E1 & B1 & F1).
  destruct (dedupCreateAt_spec _ c Hc Hsize) as (n2 & Hn2 & E2 & B2 & F2).
  assert (Hr1 : dedupCreateAt (w_timestamps w1) c ∈ w_timestamps w2) by set_solver.
  assert (Hne : dedupCreateAt (w_timestamps w1) c <> dedupCreateAt (w_timestamps w2) c).
  { intros He. rewrite He, E2 in Hr1. done. }
  split_and!; [exact Hr1c|exact Hr2c|by exists n1; rewrite E1|done|by exists n2; rewrite E2|done|done|].
  intros Hno.
  assert (Hlt : n1 < n2).
  { destruct (decide (n1 < n2)) as [|Hge]; [done|]. exfalso.
    destruct (decide (n2 = n1)) as [->|Hne2].
    - apply Hne. by rewrite E1, E2.
    - apply F2. apply HL, B1. lia. }
  rewrite E1, E2. unfold stepTS.
  apply subseteq_size in HL.
  unfold is_int64, int64_min, int64_max in *.
  rewrite !wrap64_id; unfold is_int64, int64_min, int64_max; lia.
Qed.

End AssemblyProps.

(* ------------------------------------------------------------------ *)
(** ** Concrete runs of the thread-assembly step *)

Lemma worldOf_wf (posts : list IntermediatePost) (threads : ThreadsStorage) (timestamps : gset Z) :
  heap_wf (w_heap (worldOf posts threads timestamps)).
Proof.
  intros l Hl. simpl in *. rewrite lookup_map_seq_0 in Hl.
  by apply lookup_lt_is_Some_1.
Qed.

Lemma worldOf_post (posts : list IntermediatePost) (threads : ThreadsStorage) (timestamps : gset Z) (l : loc) :
  l < length posts -> is_Some (h_posts (w_heap (worldOf posts threads timestamps)) !! l).
Proof. intros Hl. simpl. rewrite lookup_map_seq_0. by apply lookup_lt_is_Some_2. Qed.

Lemma c1RunA_eval :
  readCreateAt (w_heap c1RunA) 0 = 1600000000001%Z /\
  w_threads c1RunA = StoreThread newMemoryStorage "1600000000.000200" 0.
Proof. split; vm_compute; reflexivity. Qed.

Lemma c1RunB_eval :
  readCreateAt (w_heap c1RunB) 0 = 1600000000001%Z /\
  w_threads c1RunB = StoreThread newMemoryStorage "1600000000.000300" 0.
Proof. split; vm_compute; reflexivity. Qed.

Lemma StoreThread_empty_key (T K : string) (l : loc) :
  ts_local (StoreThread newMemoryStorage T l) !! K = Some l -> K = T.
Proof.
  simpl. intros H. apply lookup_insert_Some in H as [[-> _]|[_ H]]; [done|].
  by rewrite lookup_empty in H.
Qed.

(** C1 witness: the amended property on the first run. *)
Lemma C1_witness :
  heap_wf (w_heap (worldOf [postAt 1600000000000] newMemoryStorage {[ 1600000000000%Z ]})) /\
  is_Some (h_posts (w_heap (worldOf [postAt 1600000000000] newMemoryStorage {[ 1600000000000%Z ]})) !! 0) /\
  readCreateAt (w_heap c1RunA) 0 = dedupCreateAt {[ 1600000000000%Z ]} 1600000000000 /\
  ts_local (w_threads c1RunA) !! "1600000000.000200" = Some 0.
Proof.
  assert (Hw := worldOf_wf [postAt 1600000000000] newMemoryStorage {[ 1600000000000%Z ]}).
  assert (Hp := worldOf_post [postAt 1600000000000] newMemoryStorage {[ 1600000000000%Z ]} 0 ltac:(simpl; lia)).
  destruct (C1_resolved_createAt_and_root_key asciiRuneCount asciiRunesPrefix (rootMsg "1600000000.000200") 0
              generalChannel false (worldOf [postAt 1600000000000] newMemoryStorage {[ 1600000000000%Z ]}) Hw Hp)
    as [H1 H2].
  split; [exact Hw|]. split; [exact Hp|]. split; [exact H1|].
  apply H2. left. reflexivity.
Defined.

(** C1, as stated, fails: no encoding of the resolved creation time as a
    key names the stored root. Both runs resolve to [1600000000001], yet
    the first root is stored under "1600000000.000200" and the second under
    "1600000000.000300" (each run makes a single store entry). *)
Lemma C1_counterexample :
  ~ exists enc : Z -> string,
      forall RuneCountInString runesPrefix (original : SlackPost) (post : loc)
             (channel : IntermediateChannel) (imp : bool) (w : World),
        heap_wf (w_heap w) -> is_Some (h_posts (w_heap w) !! post) -> is_root original ->
        let w' := AddPostToThreads RuneCountInString runesPrefix original post channel imp w in
        ts_local (w_threads w') !! enc (readCreateAt (w_heap w') post) = Some post.
Proof.
  intros [enc H].
  assert (HA := H asciiRuneCount asciiRunesPrefix (rootMsg "1600000000.000200") 0 generalChannel false
    (worldOf [postAt 1600000000000] newMemoryStorage {[ 1600000000000%Z ]})
    (worldOf_wf _ _ _)
    (worldOf_post [postAt 1600000000000] newMemoryStorage {[ 1600000000000%Z ]} 0 ltac:(simpl; lia))
    (or_introl eq_refl)).
  assert (HB := H asciiRuneCount asciiRunesPrefix (rootMsg "1600000000.000300") 0 generalChannel false
    (worldOf [postAt 1600000000001] newMemoryStorage ∅)
    (worldOf_wf _ _ _)
    (worldOf_post [postAt 1600000000001] newMemoryStorage ∅ 0 ltac:(simpl; lia))
    (or_introl eq_refl)).
  change (ts_local (w_threads c1RunA) !! enc (readCreateAt (w_heap c1RunA) 0) = Some 0) in HA.
  change (ts_local (w_threads c1RunB) !! enc (readCreateAt (w_heap c1RunB) 0) = Some 0) in HB.
  destruct c1RunA_eval as [EA TA]. destruct c1RunB_eval as [EB TB].
  rewrite EA, TA in HA. rewrite EB, TB in HB.
  apply StoreThread_empty_key in HA. apply StoreThread_empty_key in HB.
  rewrite HA in HB. discriminate HB.
Qed.

(** C2 witness: two roots with creation time 5 resolve to 5, then 6. *)
Lemma C2_witness :
  is_int64 5 /\
  (dedupCreateAt (w_timestamps (twoPosts 5)) 5 < dedupCreateAt (w_timestamps (afterFirst 5)) 5)%Z.
Proof.
  assert (Hc : is_int64 5) by (unfold is_int64, int64_min, int64_max; lia).
  split; [exact Hc|].
  assert (Hw1 : heap_wf (w_heap (twoPosts 5))) by apply worldOf_wf.
  assert (Hs1 : is_Some (h_posts (w_heap (twoPosts 5)) !! 0)) by (eexists; reflexivity).
  assert (Hw2 : heap_wf (w_heap (afterFirst 5))).
  { apply (AddPostToThreads_createAt asciiRuneCount asciiRunesPrefix (rootMsg "a") 0 generalChannel false
             (twoPosts 5) Hw1 Hs1). }
  assert (Hs2 : is_Some (h_posts (w_heap (afterFirst 5)) !! 1)) by (vm_compute; eexists; reflexivity).
  apply (C2_dedup_distinct asciiRuneCount asciiRunesPrefix (rootMsg "a") (rootMsg "b") 0 1
           generalChannel generalChannel false false (twoPosts 5) (afterFirst 5) 5 Hc Hw1 Hs1 Hw2 Hs2);
    [reflexivity | vm_compute; reflexivity | unfold afterFirst; set_solver
    | vm_compute; reflexivity | vm_compute; discriminate].
Defined.

(** C2, as stated, fails at the int64 boundary: two roots with creation
    time [int64_max] resolve to [int64_max] and then, by wrap-around, to
    [int64_min]; the first is not less than the second. *)
Lemma C2_counterexample :
  ~ (forall RuneCountInString runesPrefix (o1 o2 : SlackPost) (p1 p2 : loc)
            (ch1 ch2 : IntermediateChannel) (imp1 imp2 : bool) (w1 w2 : World) (c : Z),
       is_int64 c ->
       readCreateAt (w_heap w1) p1 = c ->
       readCreateAt (w_heap w2) p2 = c ->
       w_timestamps (AddPostToThreads RuneCountInString runesPrefix o1 p1 ch1 imp1 w1) ⊆ w_timestamps w2 ->
       (Z.of_nat (size (w_timestamps w2)) < 2 ^ 64)%Z ->
       (dedupCreateAt (w_timestamps w1) c < dedupCreateAt (w_timestamps w2) c)%Z).
Proof.
  intros H.
  assert (Hc : is_int64 int64_max) by (unfold is_int64, int64_min, int64_max; lia).
  specialize (H asciiRuneCount asciiRunesPrefix (rootMsg "a") (rootMsg "b") 0 1
           generalChannel generalChannel false false (twoPosts int64_max) (afterFirst int64_max) int64_max Hc).
  assert (H2 : readCreateAt (w_heap (afterFirst int64_max)) 1 = int64_max) by (vm_compute; reflexivity).
  assert (H3 : w_timestamps (AddPostToThreads asciiRuneCount asciiRunesPrefix (rootMsg "a") 0 generalChannel false
                 (twoPosts int64_max)) ⊆ w_timestamps (afterFirst int64_max)) by (unfold afterFirst; set_solver).
  assert (H4 : (Z.of_nat (size (w_timestamps (afterFirst int64_max))) < 2 ^ 64)%Z) by (vm_compute; reflexivity).
  specialize (H eq_refl H2 H3 H4).
  vm_compute in H. discriminate H.
Qed.

(** C3 witness: a reply to "1" in a world with an empty store. *)
Lemma C3_witness :
  is_reply (replyMsg "2" "1") /\
  HasThread newMemoryStorage "1" = false /\
  w_log (AddPostToThreads asciiRuneCount asciiRunesPrefix (replyMsg "2" "1") 0 generalChannel false
           (worldOf [postAt 2] newMemoryStorage ∅)) = [LogLn LevelInfo msgRootNotFound (Some (replyMsg "2" "1"))].
Proof.
  assert (Hr : is_reply (replyMsg "2" "1")) by (split; discriminate).
  assert (Hn : HasThread newMemoryStorage "1" = false) by reflexivity.
  split; [exact Hr|]. split; [exact Hn|].
  apply (C3_missing_root_dropped asciiRuneCount asciiRunesPrefix (replyMsg "2" "1") 0 generalChannel false
           (worldOf [postAt 2] newMemoryStorage ∅) Hr Hn).
Defined.

(** C4 witness: a root "1" replacing the post stored under "1". *)
Lemma C4_witness :
  is_root (rootMsg "1") /\
  w_log (AddPostToThreads asciiRuneCount asciiRunesPrefix (rootMsg "1") 0 generalChannel false
           (worldOf [postAt 2; postAt 1] (StoreThread newMemoryStorage "1" 1) ∅))
  = [LogLn LevelInfo (msgOverwrite "1") None].
Proof.
  assert (Hr : is_root (rootMsg "1")) by (left; reflexivity).
  split; [exact Hr|].
  apply (C4_root_stored_overwrite asciiRuneCount asciiRunesPrefix (rootMsg "1") 0 generalChannel false
           (worldOf [postAt 2; postAt 1] (StoreThread newMemoryStorage "1" 1) ∅) Hr).
Defined.

(** C9 witness: a reply to the workflow root "1" leaves no log line,
    whether the root is in the local write cache or only in the backing
    store. *)
Lemma C9_witness :
  is_reply (replyMsg "2" "1") /\
  ts_local (w_threads workflowWorld) !! "1" = Some 1 /\
  readUser (w_heap workflowWorld) 1 = WorkflowUserName /\
  w_log (AddPostToThreads asciiRuneCount asciiRunesPrefix (replyMsg "2" "1") 0 generalChannel false workflowWorld) = [] /\
  heap_wf (w_heap workflowRemoteWorld) /\
  is_Some (h_posts (w_heap workflowRemoteWorld) !! 0) /\
  LookupThread (w_heap workflowRemoteWorld) (w_threads workflowRemoteWorld) "1"
    = (Some 1, workflowRemoteLookup.1.2, workflowRemoteLookup.2) /\
  readUser workflowRemoteLookup.1.2 1 = WorkflowUserName /\
  w_log (AddPostToThreads asciiRuneCount asciiRunesPrefix (replyMsg "2" "1") 0 generalChannel false
           workflowRemoteWorld) = [] /\
  w_threads (AddPostToThreads asciiRuneCount asciiRunesPrefix (replyMsg "2" "1") 0 generalChannel false
           workflowRemoteWorld) = workflowRemoteLookup.2.
Proof.
  assert (Hr : is_reply (replyMsg "2" "1")) by (split; discriminate).
  assert (Hl : ts_local (w_threads workflowWorld) !! "1" = Some 1) by reflexivity.
  assert (Hu : readUser (w_heap workflowWorld) 1 = WorkflowUserName) by reflexivity.
  assert (Hwf : heap_wf (w_heap workflowRemoteWorld)) by apply worldOf_wf.
  assert (Hp : is_Some (h_posts (w_heap workflowRemoteWorld) !! 0)) by (eexists; reflexivity).
  assert (HL : LookupThread (w_heap workflowRemoteWorld) (w_threads workflowRemoteWorld) "1"
                 = (Some 1, workflowRemoteLookup.1.2, workflowRemoteLookup.2)) by (vm_compute; reflexivity).
  assert (Hu' : readUser workflowRemoteLookup.1.2 1 = WorkflowUserName) by (vm_compute; reflexivity).
  destruct (proj2 (C9_workflow_reply_silent asciiRuneCount asciiRunesPrefix) (replyMsg "2" "1") 0 1
              generalChannel workflowRemoteWorld workflowRemoteLookup.1.2 workflowRemoteLookup.2
              Hr Hwf Hp HL Hu') as (R1 & R2 & _).
  split; [exact Hr|]. split; [exact Hl|]. split; [exact Hu|].
  split; [apply (proj1 (C9_workflow_reply_silent asciiRuneCount asciiRunesPrefix) (replyMsg "2" "1") 0 1
                  generalChannel workflowWorld Hr Hl Hu)|].
  split; [exact Hwf|]. split; [exact Hp|]. split; [exact HL|]. split; [exact Hu'|].
  split; [exact R1 | exact R2].
Defined.

(* ------------------------------------------------------------------ *)
(** ** The attachment-properties limit of the message loop *)

Section PipelineProps.

Variable RuneCountInString : string -> nat.
Variable runesPrefix : string -> nat -> string.
Variables IsPlainMessage IsFileComment IsBotMessage IsJoinLeaveMessage IsMeMessage
  IsChannelTopicMessage IsChannelPurposeMessage IsChannelNameMessage : SlackPost -> bool.
Variable SlackConvertTimeStamp : string -> Z.
Variable propsRuneCount : list SlackAttachment -> nat.
Variable copyAttachment : SlackFile -> option string.
Variable newId : string.

Let tP := transformPost RuneCountInString runesPrefix IsPlainMessage IsFileComment IsBotMessage
  IsJoinLeaveMessage IsMeMessage IsChannelTopicMessage IsChannelPurposeMessage IsChannelNameMessage
  SlackConvertTimeStamp propsRuneCount copyAttachment newId.
Let fP := filesPropsPost RuneCountInString runesPrefix SlackConvertTimeStamp propsRuneCount copyAttachment.

(** Attaching files only appends attachment paths: other fields, the store
    and the ledger stay as they are. *)
Lemma addFileToPost_keeps (g : IntermediatePost -> option (list SlackAttachment))
    (f : SlackFile) (post l : loc) (w : World) :
  (forall a p, g (set_Attachments a p) = g p) ->
  g <$> h_posts (w_heap (addFileToPost copyAttachment f post w)) !! l = g <$> h_posts (w_heap w) !! l /\
  w_threads (addFileToPost copyAttachment f post w) = w_threads w /\
  w_timestamps (addFileToPost copyAttachment f post w) = w_timestamps w.
Proof.
  intros Hg. unfold addFileToPost. destruct (copyAttachment f); simpl; [|done].
  split; [|done]. apply modify_field. intros p. apply Hg.
Qed.

Lemma addFiles_keeps (g : IntermediatePost -> option (list SlackAttachment))
    (cfg : TransformConfig) (sp : SlackPost) (post l : loc) (w : World) :
  (forall a p, g (set_Attachments a p) = g p) ->
  g <$> h_posts (w_heap (addFiles copyAttachment cfg sp post w)) !! l = g <$> h_posts (w_heap w) !! l /\
  w_threads (addFiles copyAttachment cfg sp post w) = w_threads w /\
  w_timestamps (addFiles copyAttachment cfg sp post w) = w_timestamps w.
Proof.
  intros Hg. unfold addFiles.
  destruct (_ && _); [|done].
  destruct (sp_File sp) as [f|]; [by apply addFileToPost_keeps|].
  destruct (sp_Files sp) as [fs|]; [|done].
  revert w. induction fs as [|f fs IH]; intros w; simpl; [done|].
  destruct (IH (addFileToPost copyAttachment f post w)) as (E1 & E2 & E3).
  destruct (addFileToPost_keeps g f post l w Hg) as (F1 & F2 & F3).
  rewrite E1, E2, E3. auto.
Qed.

(** The plain-message and bot-message routes of the message loop both end
    in the files-and-props block. *)
Lemma transformPost_route (cfg : TransformConfig) (channel : IntermediateChannel)
    (st st' : PostsState) (sp : SlackPost) (author : IntermediateUser) :
  (IsPlainMessage sp = true /\ sp_User sp <> "" /\ ps_users st !! sp_User sp = Some author /\ st' = st) \/
  (IsPlainMessage sp = false /\ IsFileComment sp = false /\ IsBotMessage sp = true /\
   cfg_ImportWorkflowMessages cfg = true /\ selectOrCreateWorkflowUser RuneCountInString newId st = (author, st')) ->
  tP cfg channel st sp = fP cfg channel sp author st'.
Proof.
  unfold tP, fP, transformPost.
  intros [(H1 & H2 & H3 & ->)|(H1 & H2 & H3 & H4 & H5)].
  - rewrite H1, bool_decide_eq_false_2 by done. by rewrite H3.
  - rewrite H1, H2, H3, H4. simpl. by rewrite H5.
Qed.

(** C8. For a plain message with a known author, or a bot message with
    workflow import on, that carries attachments: the new post starts
    without props; when the serialized props exceed [PostPropsMaxRunes]
    and discarding is off, a warning is logged and the post goes on to
    thread assembly without props; when discarding is on, a warning is
    logged and the message never reaches thread assembly (store and
    ledger unchanged); within the limit the attachments are set as the
    post's props, unchanged, and the post goes on to thread assembly. *)
Theorem C8_props_limit (cfg : TransformConfig) (channel : IntermediateChannel)
    (st st' : PostsState) (sp : SlackPost) (author : IntermediateUser) (l : loc) (w0 : World) :
  (IsPlainMessage sp = true /\ sp_User sp <> "" /\ ps_users st !! sp_User sp = Some author /\ st' = st) \/
  (IsPlainMessage sp = false /\ IsFileComment sp = false /\ IsBotMessage sp = true /\
   cfg_ImportWorkflowMessages cfg = true /\ selectOrCreateWorkflowUser RuneCountInString newId st = (author, st')) ->
  allocPost SlackConvertTimeStamp (iu_Username author) (ic_Name channel) (sp_Text sp) (sp_TimeStamp sp)
    (ps_world st') = (l, w0) ->
  0 < length (sp_Attachments sp) ->
  let w1 := addFiles copyAttachment cfg sp l w0 in
  let out := tP cfg channel st sp in
  let imp := cfg_ImportWorkflowMessages cfg in
  let props := sp_Attachments sp in
  ip_Props <$> h_posts (w_heap w1) !! l = Some None /\
  (PostPropsMaxRunes < propsRuneCount props -> cfg_DiscardInvalidProps cfg = false ->
     out = mkPostsState (AddPostToThreads RuneCountInString runesPrefix sp l channel imp
                           (logW w1 (warn msgPropsDrop))) (ps_users st')) /\
  (PostPropsMaxRunes < propsRuneCount props -> cfg_DiscardInvalidProps cfg = true ->
     out = mkPostsState (logW w1 (warn msgPropsDiscard)) (ps_users st') /\
     w_threads (ps_world out) = w_threads (ps_world st') /\
     w_timestamps (ps_world out) = w_timestamps (ps_world st')) /\
  (propsRuneCount props <= PostPropsMaxRunes ->
     let w2 := onHeap (modify l (set_Props (Some props))) w1 in
     out = mkPostsState (AddPostToThreads RuneCountInString runesPrefix sp l channel imp w2) (ps_users st') /\
     ip_Props <$> h_posts (w_heap w2) !! l = Some (Some props)).
Proof.
  intros Hroute Halloc Hlen. cbn zeta.
  rewrite (transformPost_route cfg channel st st' sp author Hroute).
  unfold fP, filesPropsPost. rewrite Halloc.
  assert (Hl : h_posts (w_heap w0) !! l = Some (newIntermediatePost (iu_Username author) (ic_Name channel)
                 (sp_Text sp) (SlackConvertTimeStamp (sp_TimeStamp sp)))).
  { unfold allocPost, alloc in Halloc. injection Halloc as <- <-. simpl. apply lookup_insert_eq. }
  destruct (addFiles_keeps ip_Props cfg sp l l w0 ltac:(done)) as (P1 & P2 & P3).
  rewrite Hl in P1.
  unfold propsStep. rewrite decide_True by done.
  split; [exact P1|]. split; [|split].
  - intros Hbig Hoff. rewrite decide_False by lia. by rewrite Hoff.
  - intros Hbig Hon. rewrite decide_False by lia. rewrite Hon. simpl.
    split; [done|]. split.
    + rewrite P2. unfold allocPost, alloc in Halloc. by injection Halloc as <- <-.
    + rewrite P3. unfold allocPost, alloc in Halloc. by injection Halloc as <- <-.
  - intros Hsmall. rewrite decide_True by done. split; [done|].
    unfold onHeap. cbn [w_heap]. rewrite modify_lookup_eq.
    destruct (h_posts (w_heap (addFiles copyAttachment cfg sp l w0)) !! l) as [p|]; [done|].
    discriminate P1.
Qed.

End PipelineProps.

(* ------------------------------------------------------------------ *)
(** ** Channel filtering and large group channels *)

Section ChannelProps.

Variable RuneCountInString : string -> nat.
Variable truncateRunes : string -> nat -> string.
Variable isValidChannelNameCharacters : string -> bool.
Variable ToLower : string -> string.
Variable SlackConvertChannelName : string -> string -> string.

Let San := SanitiseChannel RuneCountInString truncateRunes isValidChannelNameCharacters ToLower.
Let TC := TransformChannels RuneCountInString truncateRunes isValidChannelNameCharacters ToLower
  SlackConvertChannelName.

(** [Sanitise] keeps the original name and the type. *)
Lemma SanitiseChannel_keeps (c : IntermediateChannel) (lg : list LogLine) :
  ic_OriginalName (San c lg).1 = ic_OriginalName c /\ ic_Type (San c lg).1 = ic_Type c.
Proof.
  unfold San, SanitiseChannel. destruct (bool_decide _); [done|].
  assert (K1 : forall c lg, ic_OriginalName (sanitiseName isValidChannelNameCharacters ToLower c lg).1 = ic_OriginalName c /\
                            ic_Type (sanitiseName isValidChannelNameCharacters ToLower c lg).1 = ic_Type c).
  { intros c' lg'. unfold sanitiseName.
    destruct (decide _); simpl; destruct (bool_decide _); simpl; destruct (negb _); done. }
  assert (K2 : forall c lg, ic_OriginalName (sanitiseDisplayName RuneCountInString truncateRunes c lg).1 = ic_OriginalName c /\
                            ic_Type (sanitiseDisplayName RuneCountInString truncateRunes c lg).1 = ic_Type c).
  { intros c' lg'. unfold sanitiseDisplayName.
    destruct (decide _); simpl; destruct (bool_decide _); done. }
  assert (K3 : forall c lg, ic_OriginalName (sanitisePurpose RuneCountInString truncateRunes c lg).1 = ic_OriginalName c /\
                            ic_Type (sanitisePurpose RuneCountInString truncateRunes c lg).1 = ic_Type c).
  { intros c' lg'. unfold sanitisePurpose. by destruct (decide _). }
  assert (K4 : forall c lg, ic_OriginalName (sanitiseHeader RuneCountInString truncateRunes c lg).1 = ic_OriginalName c /\
                            ic_Type (sanitiseHeader RuneCountInString truncateRunes c lg).1 = ic_Type c).
  { intros c' lg'. unfold sanitiseHeader. by destruct (decide _). }
  destruct (K1 c lg) as [A1 B1]. destruct (sanitiseName _ _ c lg) as [c1 lg1]. simpl in A1, B1.
  destruct (K2 c1 lg1) as [A2 B2]. destruct (sanitiseDisplayName _ _ c1 lg1) as [c2 lg2]. simpl in A2, B2.
  destruct (K3 c2 lg2) as [A3 B3]. destruct (sanitisePurpose _ _ c2 lg2) as [c3 lg3]. simpl in A3, B3.
  destruct (K4 c3 lg3) as [A4 B4]. split; congruence.
Qed.

(** C10. A direct or group channel with at most one valid member yields no
    output channel (only a warning is logged); a group channel with more
    than [ChannelGroupMaxUsers] valid members becomes a private channel
    whose name is [SlackConvertChannelName] of its purpose (before
    [Sanitise]), and whose original name is the purpose (the id when the
    purpose is empty). *)
Theorem C10_channels_skip_and_group (users : gmap string IntermediateUser) :
  (forall ch rest lg,
     (sc_Type ch = ChannelTypeDirect \/ sc_Type ch = ChannelTypeGroup) ->
     length (filterValidMembers (sc_Members ch) users) <= 1 ->
     TC users (ch :: rest) lg = TC users rest (lg ++ [warn msgSingleMember])) /\
  (forall ch rest lg,
     sc_Type ch = ChannelTypeGroup ->
     ChannelGroupMaxUsers < length (filterValidMembers (sc_Members ch) users) ->
     let valid := filterValidMembers (sc_Members ch) users in
     let orig := if bool_decide (sc_Purpose ch = "") then sc_Id ch else sc_Purpose ch in
     let pre := mkIntermediateChannel "" orig (SlackConvertChannelName (sc_Purpose ch) (sc_Id ch)) orig
                  valid [] (sc_Purpose ch) (sc_Topic ch) "" ChannelTypePrivate in
     let c := (San pre lg).1 in
     TC users (ch :: rest) lg = (c :: (TC users rest (San pre lg).2).1, (TC users rest (San pre lg).2).2) /\
     ic_Type c = ChannelTypePrivate /\ ic_OriginalName c = orig).
Proof.
  split.
  - intros ch rest lg Hty Hlen. unfold TC. simpl. unfold transformChannel.
    rewrite (bool_decide_eq_true_2 (length _ <= 1)) by done.
    destruct Hty as [-> | ->]; reflexivity.
  - intros ch rest lg Hty Hlen. cbn zeta. unfold TC. simpl. unfold transformChannel.
    rewrite (bool_decide_eq_false_2 (length _ <= 1)) by (unfold ChannelGroupMaxUsers in Hlen; lia).
    rewrite andb_false_r, Hty, bool_decide_eq_true_2, bool_decide_eq_true_2 by done. simpl.
    destruct (SanitiseChannel_keeps (mkIntermediateChannel ""
                (if bool_decide (sc_Purpose ch = "") then sc_Id ch else sc_Purpose ch)
                (SlackConvertChannelName (sc_Purpose ch) (sc_Id ch))
                (if bool_decide (sc_Purpose ch = "") then sc_Id ch else sc_Purpose ch)
                (filterValidMembers (sc_Members ch) users) [] (sc_Purpose ch) (sc_Topic ch) ""
                ChannelTypePrivate) lg) as [K1 K2].
    unfold San in K1, K2 |- *.
    unfold getOriginalName. simpl.
    destruct (SanitiseChannel _ _ _ _ _ _) as [c lg1]. simpl in *.
    destruct (TransformChannels _ _ _ _ _ _ _ _). auto.
Qed.

End ChannelProps.

(* ------------------------------------------------------------------ *)
(** ** Concrete runs of the message loop and of the channel loop *)

(** C8 witness: with discarding on, an oversized plain message leaves the
    ledger as it was. *)
Lemma C8_witness :
  ((c8Plain c8Msg = true /\ sp_User c8Msg <> "" /\ ps_users c8State !! sp_User c8Msg = Some c8User /\
    c8State = c8State) \/
   (c8Plain c8Msg = false /\ c8Never c8Msg = false /\ c8Never c8Msg = true /\
    cfg_ImportWorkflowMessages c8Config = true /\
    selectOrCreateWorkflowUser asciiRuneCount "" c8State = (c8User, c8State))) /\
  w_timestamps (ps_world (transformPost asciiRuneCount asciiRunesPrefix c8Plain c8Never c8Never c8Never c8Never
     c8Never c8Never c8Never c8Time c8Props c8Copy "" c8Config generalChannel c8State c8Msg)) = ∅.
Proof.
  assert (Hr : (c8Plain c8Msg = true /\ sp_User c8Msg <> "" /\ ps_users c8State !! sp_User c8Msg = Some c8User /\
    c8State = c8State) \/
   (c8Plain c8Msg = false /\ c8Never c8Msg = false /\ c8Never c8Msg = true /\
    cfg_ImportWorkflowMessages c8Config = true /\
    selectOrCreateWorkflowUser asciiRuneCount "" c8State = (c8User, c8State))).
  { left. split; [reflexivity|]. split; [discriminate|]. split; reflexivity. }
  split; [exact Hr|].
  destruct (C8_props_limit asciiRuneCount asciiRunesPrefix c8Plain c8Never c8Never c8Never c8Never
     c8Never c8Never c8Never c8Time c8Props c8Copy "" c8Config generalChannel c8State c8State c8Msg c8User
     (allocPost c8Time (iu_Username c8User) (ic_Name generalChannel) (sp_Text c8Msg) (sp_TimeStamp c8Msg)
        (ps_world c8State)).1
     (allocPost c8Time (iu_Username c8User) (ic_Name generalChannel) (sp_Text c8Msg) (sp_TimeStamp c8Msg)
        (ps_world c8State)).2
     Hr ltac:(reflexivity) ltac:(simpl; lia)) as (_ & _ & Hdiscard & _).
  destruct (Hdiscard ltac:(unfold c8Props; lia) ltac:(reflexivity)) as (_ & _ & Hts).
  rewrite Hts. reflexivity.
Defined.

(** C10 witness: the direct channel is skipped, the nine-member group
    becomes the private channel "big-group". *)
Lemma C10_witness :
  length (filterValidMembers (sc_Members c10Direct) c10Users) <= 1 /\
  ChannelGroupMaxUsers < length (filterValidMembers (sc_Members c10Group) c10Users) /\
  (TransformChannels asciiRuneCount c10Truncate c10Valid c10Lower c10Convert c10Users [c10Direct] []).1 = [] /\
  ic_Type (hd (mkIntermediateChannel "" "" "" "" [] [] "" "" "" ChannelTypeOpen)
     (TransformChannels asciiRuneCount c10Truncate c10Valid c10Lower c10Convert c10Users [c10Group] []).1)
  = ChannelTypePrivate.
Proof.
  assert (H1 : length (filterValidMembers (sc_Members c10Direct) c10Users) <= 1) by (vm_compute; lia).
  assert (H2 : ChannelGroupMaxUsers < length (filterValidMembers (sc_Members c10Group) c10Users))
    by (vm_compute; lia).
  destruct (C10_channels_skip_and_group asciiRuneCount c10Truncate c10Valid c10Lower c10Convert c10Users)
    as [A B].
  split; [exact H1|]. split; [exact H2|]. split.
  - rewrite (A c10Direct [] [] (or_introl eq_refl) H1). reflexivity.
  - destruct (B c10Group [] [] eq_refl H2) as (E & T & _). rewrite E. exact T.
Defined.

(* ================================================================== *)
(** * Further properties of the transformer *)

(* ------------------------------------------------------------------ *)
(** ** String helpers *)

Lemma substring_0_length (n : nat) (s : string) :
  String.length (String.substring 0 n s) = Nat.min n (String.length s).
Proof.
  revert n. induction s as [|a s IH]; intros [|n]; simpl; auto.
Qed.

Lemma string_length_append (s t : string) :
  String.length (String.append s t) = String.length s + String.length t.
Proof. induction s as [|a s IH]; simpl; auto. Qed.

Lemma ascii_substring_count (s : string) (n : nat) :
  n <= asciiRuneCount s -> asciiRuneCount (asciiRunesPrefix s n) = n.
Proof. unfold asciiRuneCount, asciiRunesPrefix. rewrite substring_0_length. lia. Qed.

Lemma ascii_count_le_length (s : string) : asciiRuneCount s <= String.length s.
Proof. done. Qed.

Lemma ascii_truncate_bound (s : string) (n : nat) : asciiRuneCount (c10Truncate s n) <= n.
Proof. unfold asciiRuneCount, c10Truncate. rewrite substring_0_length. lia. Qed.

(** [strings.Trim(s, "_-")], on the list of bytes. *)
Definition noCutHead (l : list Ascii.ascii) : Prop :=
  match l with [] => True | a :: _ => isCut a = false end.

Lemma dropCut_head (l : list Ascii.ascii) : noCutHead (dropCut l).
Proof. induction l as [|a l IH]; simpl; [done|]. destruct (isCut a) eqn:E; simpl; auto. Qed.

Lemma dropCut_suffix (l : list Ascii.ascii) : exists p, l = p ++ dropCut l.
Proof.
  induction l as [|a l [p Hp]]; simpl; [by exists []|].
  destruct (isCut a); [exists (a :: p); simpl; by f_equal | by exists []].
Qed.

Lemma dropCut_id (l : list Ascii.ascii) : noCutHead l -> dropCut l = l.
Proof. destruct l as [|a l]; simpl; [done|]. by intros ->. Qed.

Lemma trimCut_list (s : string) :
  exists N, String.list_ascii_of_string (trimCut s) = rev N /\ noCutHead N /\
    noCutHead (rev N).
Proof.
  unfold trimCut. rewrite String.list_ascii_of_string_of_list_ascii.
  set (M := dropCut (String.list_ascii_of_string s)).
  set (N := dropCut (rev M)).
  exists N. split; [done|]. split; [apply dropCut_head|].
  assert (HM : noCutHead M) by apply dropCut_head.
  destruct (dropCut_suffix (rev M)) as [q Hq]. fold N in Hq.
  assert (HMe : M = rev N ++ rev q).
  { rewrite <- rev_app_distr, <- Hq. symmetry. apply rev_involutive. }
  rewrite HMe in HM. destruct (rev N) as [|a r]; [done|]. exact HM.
Qed.

(* ------------------------------------------------------------------ *)
(** ** The sanitisers *)

Section SanitiseProps.

Variable RuneCountInString : string -> nat.
Variable runesPrefix : string -> nat -> string.

(** [string([]rune(s)[:n])] has [n] runes when [s] has at least [n]. *)
Hypothesis runesPrefix_count : forall s n, n <= RuneCountInString s -> RuneCountInString (runesPrefix s n) = n.

(** X1. [IntermediatePost.Sanitise] leaves at most [PosgreSQLMaxPostSize]
    runes in the message, changes nothing else, and leaves a message
    within the limit as it is. *)
Theorem X1_SanitisePost_bound (p : IntermediatePost) :
  let p' := SanitisePost RuneCountInString runesPrefix p in
  RuneCountInString (ip_Message p') <= PosgreSQLMaxPostSize /\
  p' = set_Message (ip_Message p') p /\
  (RuneCountInString (ip_Message p) <= PosgreSQLMaxPostSize -> p' = p).
Proof.
  cbn zeta. unfold SanitisePost. case_decide as Hd.
  - simpl. rewrite runesPrefix_count by lia. split; [lia|]. split; [done|]. lia.
  - split; [lia|]. split; [by destruct p|done].
Qed.

End SanitiseProps.

Section UserProps.

Variable RuneCountInString : string -> nat.

(** A rune takes at least one byte. *)
Hypothesis count_le_length : forall s, RuneCountInString s <= String.length s.

Lemma truncate_bytes_bound (s : string) (n : nat) :
  RuneCountInString (String.substring 0 n s) <= n.
Proof. pose proof (count_le_length (String.substring 0 n s)). rewrite substring_0_length in H. lia. Qed.

(** X3. [IntermediateUser.Sanitise] leaves at most 128 runes in the
    position and at most 64 in the first and in the last name, and keeps
    each of them when it is within its limit. *)
Theorem X3_SanitiseUser_bounds (u : IntermediateUser) (lg : list LogLine) :
  let u' := (SanitiseUser RuneCountInString u lg).1 in
  RuneCountInString (iu_Position u') <= UserPositionMaxRunes /\
  RuneCountInString (iu_FirstName u') <= UserFirstNameMaxRunes /\
  RuneCountInString (iu_LastName u') <= UserLastNameMaxRunes /\
  (RuneCountInString (iu_Position u) <= UserPositionMaxRunes -> iu_Position u' = iu_Position u) /\
  (RuneCountInString (iu_FirstName u) <= UserFirstNameMaxRunes -> iu_FirstName u' = iu_FirstName u) /\
  (RuneCountInString (iu_LastName u) <= UserLastNameMaxRunes -> iu_LastName u' = iu_LastName u).
Proof.
  cbn zeta. unfold SanitiseUser.
  destruct (bool_decide (iu_Email u = "")); simpl;
  (case_decide as D1; simpl; case_decide as D2; simpl; case_decide as D3; simpl);
  split_and!; try lia; try apply truncate_bytes_bound; try done.
Qed.

End UserProps.

(** X2. [IntermediateUser.Sanitise] replaces an empty email by the
    username followed by "@example.com" and keeps a non-empty one, so the
    email is never empty afterwards; it never changes the id, username,
    password, memberships or authentication fields, and only appends
    warnings to the log. *)
Theorem X2_SanitiseUser_email (RuneCountInString : string -> nat) (u : IntermediateUser) (lg : list LogLine) :
  let u' := (SanitiseUser RuneCountInString u lg).1 in
  let lg' := (SanitiseUser RuneCountInString u lg).2 in
  iu_Email u' = (if bool_decide (iu_Email u = "") then String.append (iu_Username u) "@example.com"
                 else iu_Email u) /\
  iu_Email u' <> "" /\
  iu_Id u' = iu_Id u /\ iu_Username u' = iu_Username u /\ iu_Password u' = iu_Password u /\
  iu_Memberships u' = iu_Memberships u /\ iu_AuthData u' = iu_AuthData u /\
  iu_AuthService u' = iu_AuthService u /\
  exists ws, lg' = lg ++ ws /\ Forall (fun l => exists m, l = warn m) ws.
Proof.
  cbn zeta. unfold SanitiseUser.
  destruct (bool_decide (iu_Email u = "")) eqn:E; simpl;
  destruct (decide (UserPositionMaxRunes < RuneCountInString (iu_Position u))); simpl;
  destruct (decide (UserFirstNameMaxRunes < RuneCountInString (iu_FirstName u))); simpl;
  destruct (decide (UserLastNameMaxRunes < RuneCountInString (iu_LastName u))); simpl;
  (split; [done|]); (split; [first [by destruct (iu_Username u) | by apply bool_decide_eq_false in E] |]);
  split_and!; try done;
  first [ exists []; rewrite app_nil_r; split; [done | constructor]
        | eexists; (split; [rewrite <- ?app_assoc; reflexivity|]);
          repeat constructor; eexists; reflexivity ].
Qed.

Section ChannelSanitiseProps.

Variable RuneCountInString : string -> nat.
Variable truncateRunes : string -> nat -> string.
Variable isValidChannelNameCharacters : string -> bool.
Variable ToLower : string -> string.

Hypothesis count_le_length : forall s, RuneCountInString s <= String.length s.
(** [truncateRunes(s, n)] keeps at most [n] runes. *)
Hypothesis truncate_bound : forall s n, RuneCountInString (truncateRunes s n) <= n.

Definition only_warnings (lg lg' : list LogLine) : Prop :=
  exists ws, lg' = lg ++ ws /\ Forall (fun l => exists m, l = warn m) ws.

Lemma only_warnings_refl lg : only_warnings lg lg.
Proof. exists []. by rewrite app_nil_r. Qed.

Lemma only_warnings_one lg m : only_warnings lg (lg ++ [warn m]).
Proof. exists [warn m]. split; [done|]. repeat constructor. by eexists. Qed.

Lemma only_warnings_trans l1 l2 l3 : only_warnings l1 l2 -> only_warnings l2 l3 -> only_warnings l1 l3.
Proof.
  intros [w1 [-> F1]] [w2 [-> F2]]. exists (w1 ++ w2). rewrite app_assoc. split; [done|].
  by apply Forall_app.
Qed.

Lemma sanitiseName_spec (c : IntermediateChannel) (lg : list LogLine) :
  let '(c', lg') := sanitiseName isValidChannelNameCharacters ToLower c lg in
  c' = setName (ic_Name c') c /\
  (String.length (ic_Name c') <= ChannelNameMaxLength \/ ic_Name c' = ToLower (ic_Id c)) /\
  only_warnings lg lg'.
Proof.
  unfold sanitiseName.
  set (c0 := setName (trimCut (ic_Name c)) c).
  assert (A : exists c1 lg1,
    (if decide (ChannelNameMaxLength < String.length (ic_Name c0))
     then (setName (String.substring 0 ChannelNameMaxLength (ic_Name c0)) c0,
           lg ++ [warn "Channel %s handle exceeds the maximum length. It will be truncated when imported."])
     else (c0, lg)) = (c1, lg1) /\
    c1 = setName (ic_Name c1) c /\ String.length (ic_Name c1) <= ChannelNameMaxLength /\
    only_warnings lg lg1).
  { destruct (decide _) as [D|D]; do 2 eexists; (split; [reflexivity|]).
    - split; [done|]. split; [simpl; rewrite substring_0_length; lia | apply only_warnings_one].
    - split; [done|]. split; [lia | apply only_warnings_refl]. }
  destruct A as (c1 & lg1 & -> & E1 & B1 & L1).
  set (c2 := if bool_decide (String.length (ic_Name c1) = 1)
             then setName (String.append "slack-channel-" (ic_Name c1)) c1 else c1).
  assert (E2 : c2 = setName (ic_Name c2) c /\ String.length (ic_Name c2) <= ChannelNameMaxLength).
  { unfold c2. destruct (bool_decide _) eqn:Eb.
    - apply bool_decide_eq_true in Eb. split.
      + rewrite E1. done.
      + unfold setName; cbn [ic_Name]. rewrite string_length_append, Eb.
        unfold ChannelNameMaxLength. simpl. lia.
    - split; done. }
  destruct E2 as [E2 B2].
  destruct (negb _); simpl.
  - split; [by rewrite E2|]. split; [right; by rewrite E2 | exact L1].
  - split; [exact E2|]. split; [by left | exact L1].
Qed.

Lemma sanitiseDisplayName_spec (c : IntermediateChannel) (lg : list LogLine) :
  let '(c', lg') := sanitiseDisplayName RuneCountInString truncateRunes c lg in
  c' = setDisplayName (ic_DisplayName c') c /\
  RuneCountInString (ic_DisplayName c') <= ChannelDisplayNameMaxRunes /\
  only_warnings lg lg'.
Proof.
  unfold sanitiseDisplayName.
  set (c0 := setDisplayName (trimCut (ic_DisplayName c)) c).
  assert (A : exists c1 lg1,
    (if decide (ChannelDisplayNameMaxRunes < RuneCountInString (ic_DisplayName c0))
     then (setDisplayName (truncateRunes (ic_DisplayName c0) ChannelDisplayNameMaxRunes) c0,
           lg ++ [warn "Channel %s display name exceeds the maximum length. It will be truncated when imported."])
     else (c0, lg)) = (c1, lg1) /\
    c1 = setDisplayName (ic_DisplayName c1) c /\
    RuneCountInString (ic_DisplayName c1) <= ChannelDisplayNameMaxRunes /\
    only_warnings lg lg1).
  { destruct (decide _) as [D|D]; do 2 eexists; (split; [reflexivity|]).
    - split; [done|]. split; [apply truncate_bound | apply only_warnings_one].
    - split; [done|]. split; [lia | apply only_warnings_refl]. }
  destruct A as (c1 & lg1 & -> & E1 & B1 & L1).
  destruct (bool_decide (String.length (ic_DisplayName c1) = 1)) eqn:Eb.
  - apply bool_decide_eq_true in Eb. split; [by rewrite E1|]. split; [|exact L1].
    unfold setDisplayName; cbn [ic_DisplayName].
    pose proof (count_le_length (String.append "slack-channel-" (ic_DisplayName c1))) as H.
    rewrite string_length_append, Eb in H. unfold ChannelDisplayNameMaxRunes. simpl in H. lia.
  - split; [exact E1|]. split; [exact B1 | exact L1].
Qed.

Lemma sanitisePurpose_spec (c : IntermediateChannel) (lg : list LogLine) :
  let '(c', lg') := sanitisePurpose RuneCountInString truncateRunes c lg in
  c' = setPurpose (ic_Purpose c') c /\
  RuneCountInString (ic_Purpose c') <= ChannelPurposeMaxRunes /\ only_warnings lg lg'.
Proof.
  unfold sanitisePurpose. destruct (decide _) as [D|D]; simpl.
  - split; [done|]. split; [apply truncate_bound | apply only_warnings_one].
  - split; [by destruct c|]. split; [lia | apply only_warnings_refl].
Qed.

Lemma sanitiseHeader_spec (c : IntermediateChannel) (lg : list LogLine) :
  let '(c', lg') := sanitiseHeader RuneCountInString truncateRunes c lg in
  c' = setHeader (ic_Header c') c /\
  RuneCountInString (ic_Header c') <= ChannelHeaderMaxRunes /\ only_warnings lg lg'.
Proof.
  unfold sanitiseHeader. destruct (decide _) as [D|D]; simpl.
  - split; [done|]. split; [apply truncate_bound | apply only_warnings_one].
  - split; [by destruct c|]. split; [lia | apply only_warnings_refl].
Qed.

(** X4. The [Sanitise] of a channel that is not direct leaves a display
    name of at most 64 runes, a purpose of at most 250 and a header of at
    most 1024, and a name of at most 64 bytes unless the name was replaced
    by the lower-cased id; it never changes the id, original name,
    members, member usernames, topic or type, and only appends warnings
    to the log. A direct channel is returned as it is. *)
Theorem X4_SanitiseChannel_bounds (c : IntermediateChannel) (lg : list LogLine) :
  let '(c', lg') := SanitiseChannel RuneCountInString truncateRunes isValidChannelNameCharacters ToLower c lg in
  (ic_Type c = ChannelTypeDirect -> c' = c /\ lg' = lg) /\
  (ic_Type c <> ChannelTypeDirect ->
     RuneCountInString (ic_DisplayName c') <= ChannelDisplayNameMaxRunes /\
     RuneCountInString (ic_Purpose c') <= ChannelPurposeMaxRunes /\
     RuneCountInString (ic_Header c') <= ChannelHeaderMaxRunes /\
     (String.length (ic_Name c') <= ChannelNameMaxLength \/ ic_Name c' = ToLower (ic_Id c))) /\
  ic_Id c' = ic_Id c /\ ic_OriginalName c' = ic_OriginalName c /\ ic_Members c' = ic_Members c /\
  ic_MembersUsernames c' = ic_MembersUsernames c /\ ic_Topic c' = ic_Topic c /\ ic_Type c' = ic_Type c /\
  only_warnings lg lg'.
Proof.
  unfold SanitiseChannel.
  destruct (bool_decide (ic_Type c = ChannelTypeDirect)) eqn:Ed.
  - apply bool_decide_eq_true in Ed. split; [done|]. split; [done|]. split_and!; try done.
    apply only_warnings_refl.
  - apply bool_decide_eq_false in Ed.
    pose proof (sanitiseName_spec c lg) as S1. destruct (sanitiseName _ _ c lg) as [c1 lg1].
    destruct S1 as (E1 & N1 & L1).
    pose proof (sanitiseDisplayName_spec c1 lg1) as S2. destruct (sanitiseDisplayName _ _ c1 lg1) as [c2 lg2].
    destruct S2 as (E2 & N2 & L2).
    pose proof (sanitisePurpose_spec c2 lg2) as S3. destruct (sanitisePurpose _ _ c2 lg2) as [c3 lg3].
    destruct S3 as (E3 & N3 & L3).
    pose proof (sanitiseHeader_spec c3 lg3) as S4. destruct (sanitiseHeader _ _ c3 lg3) as [c4 lg4].
    destruct S4 as (E4 & N4 & L4).
    rewrite E4, E3, E2, E1 in *. simpl in *.
    split; [done|]. split; [intros _; split_and!; done|].
    split_and!; try done.
    eapply only_warnings_trans; [exact L1|]. eapply only_warnings_trans; [exact L2|].
    eapply only_warnings_trans; [exact L3 | exact L4].
Qed.

End ChannelSanitiseProps.

(** X5. [strings.Trim(name, "_-")] as modelled by [trimCut]: the result
    neither starts nor ends with '_' or '-', and trimming it again changes
    nothing. *)
Theorem X5_trimCut_trimmed (s : string) :
  let t := trimCut s in
  trimCut t = t /\
  noCutHead (String.list_ascii_of_string t) /\
  noCutHead (rev (String.list_ascii_of_string t)).
Proof.
  cbn zeta. destruct (trimCut_list s) as (N & E & H1 & H2).
  rewrite E. split; [|split; [exact H2 | by rewrite rev_involutive]].
  unfold trimCut at 1. rewrite E, (dropCut_id (rev N)) by exact H2.
  rewrite rev_involutive, (dropCut_id N) by exact H1.
  rewrite <- E. apply String.string_of_list_ascii_of_string.
Qed.

Lemma X1_witness :
  (forall s n, n <= asciiRuneCount s -> asciiRuneCount (asciiRunesPrefix s n) = n) /\
  let p := newIntermediatePost "U1" "C1" "hello" 0 in
  let p' := SanitisePost asciiRuneCount asciiRunesPrefix p in
  asciiRuneCount (ip_Message p') <= PosgreSQLMaxPostSize /\
  p' = set_Message (ip_Message p') p /\
  (asciiRuneCount (ip_Message p) <= PosgreSQLMaxPostSize -> p' = p).
Proof.
  split; [exact ascii_substring_count|].
  exact (X1_SanitisePost_bound asciiRuneCount asciiRunesPrefix ascii_substring_count
           (newIntermediatePost "U1" "C1" "hello" 0)).
Defined.

Lemma X3_witness :
  (forall s, asciiRuneCount s <= String.length s) /\
  let u' := (SanitiseUser asciiRuneCount c8User []).1 in
  asciiRuneCount (iu_Position u') <= UserPositionMaxRunes /\
  asciiRuneCount (iu_FirstName u') <= UserFirstNameMaxRunes /\
  asciiRuneCount (iu_LastName u') <= UserLastNameMaxRunes /\
  (asciiRuneCount (iu_Position c8User) <= UserPositionMaxRunes -> iu_Position u' = iu_Position c8User) /\
  (asciiRuneCount (iu_FirstName c8User) <= UserFirstNameMaxRunes -> iu_FirstName u' = iu_FirstName c8User) /\
  (asciiRuneCount (iu_LastName c8User) <= UserLastNameMaxRunes -> iu_LastName u' = iu_LastName c8User).
Proof.
  split; [exact ascii_count_le_length|].
  exact (X3_SanitiseUser_bounds asciiRuneCount ascii_count_le_length c8User []).
Defined.

Lemma X4_witness :
  (forall s, asciiRuneCount s <= String.length s) /\
  (forall s n, asciiRuneCount (c10Truncate s n) <= n) /\
  let '(c', lg') := SanitiseChannel asciiRuneCount c10Truncate c10Valid c10Lower generalChannel [] in
  (ic_Type generalChannel = ChannelTypeDirect -> c' = generalChannel /\ lg' = []) /\
  (ic_Type generalChannel <> ChannelTypeDirect ->
     asciiRuneCount (ic_DisplayName c') <= ChannelDisplayNameMaxRunes /\
     asciiRuneCount (ic_Purpose c') <= ChannelPurposeMaxRunes /\
     asciiRuneCount (ic_Header c') <= ChannelHeaderMaxRunes /\
     (String.length (ic_Name c') <= ChannelNameMaxLength \/ ic_Name c' = c10Lower (ic_Id generalChannel))) /\
  ic_Id c' = ic_Id generalChannel /\ ic_OriginalName c' = ic_OriginalName generalChannel /\
  ic_Members c' = ic_Members generalChannel /\
  ic_MembersUsernames c' = ic_MembersUsernames generalChannel /\
  ic_Topic c' = ic_Topic generalChannel /\ ic_Type c' = ic_Type generalChannel /\
  only_warnings [] lg'.
Proof.
  split; [exact ascii_count_le_length|]. split; [exact ascii_truncate_bound|].
  exact (X4_SanitiseChannel_bounds asciiRuneCount c10Truncate c10Valid c10Lower
           ascii_count_le_length ascii_truncate_bound generalChannel []).
Defined.

(* ------------------------------------------------------------------ *)
(** ** Channels: members, types and composition *)

(** X6. [filterValidMembers] keeps exactly the members that are keys of
    the user map, every occurrence of them, in their order: the result is
    the sublist of those members, and a member occurs in it as often as in
    the input when it is a key, and not at all otherwise. *)
Theorem X6_filterValidMembers_spec (members : list string) (users : gmap string IntermediateUser) :
  filterValidMembers members users = filter (fun m => is_Some (users !! m)) members /\
  (forall m, count_occ String.string_dec (filterValidMembers members users) m =
             if bool_decide (is_Some (users !! m)) then count_occ String.string_dec members m else 0) /\
  filterValidMembers members users `sublist_of` members.
Proof.
  induction members as [|x ms [IH1 [IH2 IH3]]]; simpl.
  - split; [done|]. split; [|done]. intros m. by destruct (bool_decide _).
  - case_bool_decide as D.
    + rewrite filter_cons_True by done. split; [by rewrite IH1|]. split; [|by apply sublist_skip].
      intros m. simpl. rewrite IH2. destruct (String.string_dec x m) as [->|Hne].
      * by rewrite bool_decide_eq_true_2.
      * done.
    + rewrite filter_cons_False by done. split; [done|]. split; [|by apply sublist_cons].
      intros m. simpl. rewrite IH2. destruct (String.string_dec x m) as [->|Hne].
      * by rewrite bool_decide_eq_false_2.
      * done.
Qed.

Section ChannelShape.

Variable RuneCountInString : string -> nat.
Variable truncateRunes : string -> nat -> string.
Variable isValidChannelNameCharacters : string -> bool.
Variable ToLower : string -> string.
Variable SlackConvertChannelName : string -> string -> string.

Lemma sanitiseDisplayName_shape (c : IntermediateChannel) (lg : list LogLine) :
  let '(c', lg') := sanitiseDisplayName RuneCountInString truncateRunes c lg in
  c' = setDisplayName (ic_DisplayName c') c /\ only_warnings lg lg'.
Proof.
  unfold sanitiseDisplayName. destruct (decide _); simpl; destruct (bool_decide _); simpl;
    (split; [done | first [apply only_warnings_one | apply only_warnings_refl]]).
Qed.

Lemma sanitisePurpose_shape (c : IntermediateChannel) (lg : list LogLine) :
  let '(c', lg') := sanitisePurpose RuneCountInString truncateRunes c lg in
  c' = setPurpose (ic_Purpose c') c /\ only_warnings lg lg'.
Proof.
  unfold sanitisePurpose. destruct (decide _); simpl.
  - split; [done | apply only_warnings_one].
  - split; [by destruct c | apply only_warnings_refl].
Qed.

Lemma sanitiseHeader_shape (c : IntermediateChannel) (lg : list LogLine) :
  let '(c', lg') := sanitiseHeader RuneCountInString truncateRunes c lg in
  c' = setHeader (ic_Header c') c /\ only_warnings lg lg'.
Proof.
  unfold sanitiseHeader. destruct (decide _); simpl.
  - split; [done | apply only_warnings_one].
  - split; [by destruct c | apply only_warnings_refl].
Qed.

Lemma SanitiseChannel_shape (c : IntermediateChannel) (lg : list LogLine) :
  let '(c', lg') := SanitiseChannel RuneCountInString truncateRunes isValidChannelNameCharacters ToLower c lg in
  c' = mkIntermediateChannel (ic_Id c) (ic_OriginalName c) (ic_Name c') (ic_DisplayName c') (ic_Members c)
         (ic_MembersUsernames c) (ic_Purpose c') (ic_Header c') (ic_Topic c) (ic_Type c) /\
  only_warnings lg lg'.
Proof.
  unfold SanitiseChannel. destruct (bool_decide _).
  { split; [by destruct c | apply only_warnings_refl]. }
  pose proof (sanitiseName_spec isValidChannelNameCharacters ToLower c lg) as S1.
  destruct (sanitiseName _ _ c lg) as [c1 lg1]. destruct S1 as (E1 & _ & L1).
  pose proof (sanitiseDisplayName_shape c1 lg1) as S2.
  destruct (sanitiseDisplayName _ _ c1 lg1) as [c2 lg2]. destruct S2 as (E2 & L2).
  pose proof (sanitisePurpose_shape c2 lg2) as S3.
  destruct (sanitisePurpose _ _ c2 lg2) as [c3 lg3]. destruct S3 as (E3 & L3).
  pose proof (sanitiseHeader_shape c3 lg3) as S4.
  destruct (sanitiseHeader _ _ c3 lg3) as [c4 lg4]. destruct S4 as (E4 & L4).
  split.
  - rewrite E4, E3, E2, E1. reflexivity.
  - eapply only_warnings_trans; [exact L1|]. eapply only_warnings_trans; [exact L2|].
    eapply only_warnings_trans; [exact L3 | exact L4].
Qed.

Definition channel_ok (users : gmap string IntermediateUser) (c : IntermediateChannel) : Prop :=
  Forall (fun m => is_Some (users !! m)) (ic_Members c) /\
  ((ic_Type c = ChannelTypeDirect \/ ic_Type c = ChannelTypeGroup) -> 2 <= length (ic_Members c)) /\
  ic_MembersUsernames c = [].

Lemma filterValidMembers_known (members : list string) (users : gmap string IntermediateUser) :
  Forall (fun m => is_Some (users !! m)) (filterValidMembers members users).
Proof.
  induction members as [|x ms IH]; simpl; [constructor|].
  case_bool_decide; [constructor|]; auto.
Qed.

Lemma transformChannel_spec (users : gmap string IntermediateUser) (ch : SlackChannel) (lg : list LogLine) :
  match transformChannel RuneCountInString truncateRunes isValidChannelNameCharacters ToLower
          SlackConvertChannelName users ch lg with
  | (None, lg') => only_warnings lg lg'
  | (Some c, lg') => ic_Members c = filterValidMembers (sc_Members ch) users /\ channel_ok users c /\
                     only_warnings lg lg'
  end.
Proof.
  unfold transformChannel.
  set (vm := filterValidMembers (sc_Members ch) users).
  destruct ((bool_decide (sc_Type ch = ChannelTypeDirect) || bool_decide (sc_Type ch = ChannelTypeGroup))
            && bool_decide (length vm <= 1)) eqn:G.
  { apply only_warnings_one. }
  destruct (bool_decide (sc_Type ch = ChannelTypeGroup) && bool_decide (ChannelGroupMaxUsers < length vm)) eqn:B.
  - match goal with |- context [SanitiseChannel _ _ _ _ ?c lg] =>
      pose proof (SanitiseChannel_shape c lg) as S; destruct (SanitiseChannel _ _ _ _ c lg) as [c' lg'] end.
    destruct S as [Ec L]. rewrite Ec. simpl.
    split; [done|]. split; [|exact L]. split; [apply filterValidMembers_known|].
    split; [|done]. intros [HT|HT]; inversion HT.
  - match goal with |- context [SanitiseChannel _ _ _ _ ?c lg] =>
      pose proof (SanitiseChannel_shape c lg) as S; destruct (SanitiseChannel _ _ _ _ c lg) as [c' lg'] end.
    destruct S as [Ec L]. rewrite Ec. simpl.
    split; [done|]. split; [|exact L]. split; [apply filterValidMembers_known|].
    split; [|done]. intros [HT|HT]; simpl in HT; rewrite HT in G.
    + rewrite (bool_decide_eq_true_2 (ChannelTypeDirect = ChannelTypeDirect)) in G by done.
      simpl in G. apply bool_decide_eq_false in G. simpl. unfold vm in *. lia.
    + rewrite (bool_decide_eq_true_2 (ChannelTypeGroup = ChannelTypeGroup)) in G by done.
      rewrite orb_true_r in G. simpl in G. apply bool_decide_eq_false in G. simpl. unfold vm in *. lia.
Qed.

Let TC := TransformChannels RuneCountInString truncateRunes isValidChannelNameCharacters ToLower
  SlackConvertChannelName.

Lemma TransformChannels_ok (users : gmap string IntermediateUser) (channels : list SlackChannel)
    (lg : list LogLine) :
  let '(cs, lg') := TC users channels lg in
  length cs <= length channels /\ Forall (channel_ok users) cs /\ only_warnings lg lg'.
Proof.
  unfold TC. revert lg. induction channels as [|ch rest IH]; intros lg; simpl.
  - split; [done|]. split; [constructor | apply only_warnings_refl].
  - pose proof (transformChannel_spec users ch lg) as S.
    destruct (transformChannel _ _ _ _ _ users ch lg) as [[c|] lg1].
    + destruct S as (_ & Hc & L1). specialize (IH lg1).
      destruct (TransformChannels _ _ _ _ _ users rest lg1) as [cs lg2].
      destruct IH as (Hn & Hf & L2). simpl.
      split; [lia|]. split; [by constructor|]. by eapply only_warnings_trans.
    + specialize (IH lg1).
      destruct (TransformChannels _ _ _ _ _ users rest lg1) as [cs lg2].
      destruct IH as (Hn & Hf & L2).
      split; [lia|]. split; [done|]. by eapply only_warnings_trans.
Qed.

Lemma TransformChannels_app_eq (users : gmap string IntermediateUser) (a b : list SlackChannel)
    (lg : list LogLine) :
  TC users (a ++ b) lg =
    let '(xs, lg1) := TC users a lg in
    let '(ys, lg2) := TC users b lg1 in (xs ++ ys, lg2).
Proof.
  unfold TC. revert lg. induction a as [|ch rest IH]; intros lg; simpl.
  - by destruct (TransformChannels _ _ _ _ _ users b lg).
  - destruct (transformChannel _ _ _ _ _ users ch lg) as [[c|] lg1].
    + rewrite IH. destruct (TransformChannels _ _ _ _ _ users rest lg1) as [xs lg2].
      by destruct (TransformChannels _ _ _ _ _ users b lg2).
    + apply IH.
Qed.

End ChannelShape.

(** X7. [TransformChannels] returns at most one channel per input channel;
    every member of a returned channel is a key of the user map, a
    returned direct or group channel has at least two members, no member
    usernames are set yet, and the log only gains warnings. *)
Theorem X7_TransformChannels_members
    (RuneCountInString : string -> nat) (truncateRunes : string -> nat -> string)
    (isValidChannelNameCharacters : string -> bool) (ToLower : string -> string)
    (SlackConvertChannelName : string -> string -> string)
    (users : gmap string IntermediateUser) (channels : list SlackChannel) (lg : list LogLine) :
  let '(cs, lg') := TransformChannels RuneCountInString truncateRunes isValidChannelNameCharacters ToLower
                      SlackConvertChannelName users channels lg in
  length cs <= length channels /\
  Forall (fun c => Forall (fun m => is_Some (users !! m)) (ic_Members c) /\
                   ((ic_Type c = ChannelTypeDirect \/ ic_Type c = ChannelTypeGroup) -> 2 <= length (ic_Members c)) /\
                   ic_MembersUsernames c = []) cs /\
  only_warnings lg lg'.
Proof. apply TransformChannels_ok. Qed.

(** X8. [TransformChannels] over two lists in a row is [TransformChannels]
    over the first, then over the second with the log it left, the
    results concatenated. *)
Theorem X8_TransformChannels_app
    (RuneCountInString : string -> nat) (truncateRunes : string -> nat -> string)
    (isValidChannelNameCharacters : string -> bool) (ToLower : string -> string)
    (SlackConvertChannelName : string -> string -> string)
    (users : gmap string IntermediateUser) (a b : list SlackChannel) (lg : list LogLine) :
  let TC := TransformChannels RuneCountInString truncateRunes isValidChannelNameCharacters ToLower
              SlackConvertChannelName in
  TC users (a ++ b) lg =
    let '(xs, lg1) := TC users a lg in
    let '(ys, lg2) := TC users b lg1 in (xs ++ ys, lg2).
Proof. apply TransformChannels_app_eq. Qed.

Lemma X7_witness :
  let '(cs, lg') := TransformChannels asciiRuneCount c10Truncate c10Valid c10Lower c10Convert
                      c10Users [c10Direct; c10Group] [] in
  length cs <= length [c10Direct; c10Group] /\
  Forall (fun c => Forall (fun m => is_Some (c10Users !! m)) (ic_Members c) /\
                   ((ic_Type c = ChannelTypeDirect \/ ic_Type c = ChannelTypeGroup) -> 2 <= length (ic_Members c)) /\
                   ic_MembersUsernames c = []) cs /\
  only_warnings [] lg'.
Proof. exact (X7_TransformChannels_members asciiRuneCount c10Truncate c10Valid c10Lower c10Convert
                c10Users [c10Direct; c10Group] []). Defined.

(* ------------------------------------------------------------------ *)
(** ** Maps built by successive insertion *)

Section FoldInsert.

Context {A B : Type}.
Variable key : A -> string.
Variable val : A -> B.

Definition insAll (l : list A) (m : gmap string B) : gmap string B :=
  fold_left (fun m x => <[key x := val x]> m) l m.

Lemma insAll_app (l1 l2 : list A) (m : gmap string B) : insAll (l1 ++ l2) m = insAll l2 (insAll l1 m).
Proof. unfold insAll. by rewrite fold_left_app. Qed.

Lemma insAll_snoc (l : list A) (x : A) (m : gmap string B) :
  insAll (l ++ [x]) m = <[key x := val x]> (insAll l m).
Proof. by rewrite insAll_app. Qed.

Lemma insAll_dom (l : list A) (m : gmap string B) :
  dom (insAll l m) = dom m ∪ list_to_set (key <$> l).
Proof.
  revert m. induction l as [|x l IH]; intros m; simpl.
  - set_solver.
  - unfold insAll in *. simpl. rewrite IH, dom_insert_L. set_solver.
Qed.

Lemma insAll_lookup (l : list A) (m : gmap string B) (k : string) (v : B) :
  insAll l m !! k = Some v <->
  (exists pre x post, l = pre ++ x :: post /\ key x = k /\ k ∉ key <$> post /\ v = val x) \/
  (k ∉ key <$> l /\ m !! k = Some v).
Proof.
  induction l as [|x l IH] using rev_ind.
  - simpl. split; [intros H; right; split; [apply not_elem_of_nil | exact H]|].
    intros [(pre & x & post & E & _)|[_ H]]; [|done].
    destruct pre; discriminate E.
  - rewrite insAll_snoc. destruct (decide (key x = k)) as [<-|Hne].
    + rewrite lookup_insert_eq. split.
      * intros [= <-]. left. exists l, x, []. split; [done|]. split; [done|]. split; [|done].
        apply not_elem_of_nil.
      * intros [(pre & y & post & E & Hy & Hn & ->)|[Hn _]].
        -- destruct post as [|z post] using rev_ind.
           ++ apply app_inj_tail in E as [_ ->]. done.
           ++ rewrite app_comm_cons, app_assoc in E. apply app_inj_tail in E as [_ ->].
              exfalso. apply Hn. rewrite fmap_app. set_solver.
        -- exfalso. apply Hn. rewrite fmap_app. set_solver.
    + rewrite lookup_insert_ne by done. rewrite IH. split.
      * intros [(pre & y & post & E & Hy & Hn & ->)|[Hn Hm]].
        -- left. exists pre, y, (post ++ [x]). rewrite E. split; [by rewrite <- app_assoc|].
           split; [done|]. split; [|done]. rewrite fmap_app. set_solver.
        -- right. split; [|done]. rewrite fmap_app. set_solver.
      * intros [(pre & y & post & E & Hy & Hn & ->)|[Hn Hm]].
        -- destruct post as [|z post] using rev_ind.
           ++ apply app_inj_tail in E as [_ ->]. done.
           ++ rewrite app_comm_cons, app_assoc in E. apply app_inj_tail in E as [E _].
              left. exists pre, y, post. split; [done|]. split; [done|]. split; [|done].
              rewrite fmap_app in Hn. set_solver.
        -- right. split; [|done]. rewrite fmap_app in Hn. set_solver.
Qed.

End FoldInsert.

(* ------------------------------------------------------------------ *)
(** ** Users and memberships *)

Section UserMapProps.

Variable RuneCountInString : string -> nat.

Lemma SanitiseUser_user (u : IntermediateUser) (lg : list LogLine) :
  (SanitiseUser RuneCountInString u lg).1 = (SanitiseUser RuneCountInString u []).1.
Proof.
  unfold SanitiseUser.
  destruct (bool_decide (iu_Email u = "")); simpl;
  destruct (decide (UserPositionMaxRunes < RuneCountInString (iu_Position u))); simpl;
  destruct (decide (UserFirstNameMaxRunes < RuneCountInString (iu_FirstName u))); simpl;
  destruct (decide (UserLastNameMaxRunes < RuneCountInString (iu_LastName u))); simpl; reflexivity.
Qed.

Lemma SanitiseUser_log (u : IntermediateUser) (lg : list LogLine) :
  only_warnings lg (SanitiseUser RuneCountInString u lg).2.
Proof.
  unfold SanitiseUser.
  destruct (bool_decide (iu_Email u = "")); simpl;
  destruct (decide (UserPositionMaxRunes < RuneCountInString (iu_Position u))); simpl;
  destruct (decide (UserFirstNameMaxRunes < RuneCountInString (iu_FirstName u))); simpl;
  destruct (decide (UserLastNameMaxRunes < RuneCountInString (iu_LastName u))); simpl;
  repeat (eapply only_warnings_trans; [|apply only_warnings_one]); apply only_warnings_refl.
Qed.

Lemma SanitiseUser_frame (u : IntermediateUser) (lg : list LogLine) :
  (SanitiseUser RuneCountInString u lg).2 = lg ++ (SanitiseUser RuneCountInString u []).2.
Proof.
  unfold SanitiseUser.
  destruct (bool_decide (iu_Email u = "")); simpl;
  destruct (decide (UserPositionMaxRunes < RuneCountInString (iu_Position u))); simpl;
  destruct (decide (UserFirstNameMaxRunes < RuneCountInString (iu_FirstName u))); simpl;
  destruct (decide (UserLastNameMaxRunes < RuneCountInString (iu_LastName u))); simpl;
  rewrite <- ?app_assoc; first [reflexivity | by rewrite app_nil_r].
Qed.

Lemma SanitiseUser_fields (u : IntermediateUser) (lg : list LogLine) :
  let u' := (SanitiseUser RuneCountInString u lg).1 in
  iu_Id u' = iu_Id u /\ iu_Username u' = iu_Username u /\ iu_Password u' = iu_Password u /\
  iu_Memberships u' = iu_Memberships u /\ iu_AuthData u' = iu_AuthData u /\
  iu_AuthService u' = iu_AuthService u /\
  iu_Email u' = (if bool_decide (iu_Email u = "") then String.append (iu_Username u) "@example.com"
                 else iu_Email u) /\ iu_Email u' <> "".
Proof.
  cbn zeta. unfold SanitiseUser.
  destruct (bool_decide (iu_Email u = "")) eqn:E; simpl;
  destruct (decide (UserPositionMaxRunes < RuneCountInString (iu_Position u))); simpl;
  destruct (decide (UserFirstNameMaxRunes < RuneCountInString (iu_FirstName u))); simpl;
  destruct (decide (UserLastNameMaxRunes < RuneCountInString (iu_LastName u))); simpl;
  (split_and!; try done); first [by destruct (iu_Username u) | by apply bool_decide_eq_false in E].
Qed.

Lemma transformUser_user (a : bool) (s : string) (u : SlackUser) (lg : list LogLine) :
  (transformUser RuneCountInString a s u lg).1 = (transformUser RuneCountInString a s u []).1.
Proof.
  unfold transformUser.
  match goal with |- context [SanitiseUser _ ?n lg] =>
    pose proof (SanitiseUser_user n lg) as E;
    destruct (SanitiseUser _ n lg) as [u1 l1]; destruct (SanitiseUser _ n []) as [u2 l2] end.
  simpl in E. subst. reflexivity.
Qed.

Lemma transformUser_frame (a : bool) (s : string) (u : SlackUser) (lg : list LogLine) :
  (transformUser RuneCountInString a s u lg).2 = lg ++ (transformUser RuneCountInString a s u []).2.
Proof.
  unfold transformUser.
  match goal with |- context [SanitiseUser _ ?n lg] =>
    pose proof (SanitiseUser_frame n lg) as E;
    destruct (SanitiseUser _ n lg) as [u1 l1]; destruct (SanitiseUser _ n []) as [u2 l2] end.
  simpl in E. exact E.
Qed.

Lemma transformUser_log (a : bool) (s : string) (u : SlackUser) (lg : list LogLine) :
  only_warnings lg (transformUser RuneCountInString a s u lg).2.
Proof.
  unfold transformUser.
  match goal with |- context [SanitiseUser _ ?n lg] =>
    pose proof (SanitiseUser_log n lg) as E; destruct (SanitiseUser _ n lg) as [u1 l1] end.
  exact E.
Qed.

Lemma transformUser_fields (a : bool) (s : string) (u : SlackUser) (lg : list LogLine) :
  let v := (transformUser RuneCountInString a s u lg).1 in
  iu_Id v = su_Id u /\ iu_Username v = su_Username u /\ iu_Password v = "" /\ iu_Memberships v = [] /\
  iu_Email v = (if bool_decide (spf_Email (su_Profile u) = "")
                then String.append (su_Username u) "@example.com" else spf_Email (su_Profile u)) /\
  iu_Email v <> "" /\
  (if a && bool_decide (s <> "") then iu_AuthData v = Some (iu_Email v) /\ iu_AuthService v = s
   else iu_AuthData v = None /\ iu_AuthService v = "").
Proof.
  cbn zeta. unfold transformUser.
  match goal with |- context [SanitiseUser _ ?n lg] =>
    pose proof (SanitiseUser_fields n lg) as F; destruct (SanitiseUser _ n lg) as [u1 l1] end.
  simpl in F. destruct F as (F1 & F2 & F3 & F4 & F5 & F6 & F7 & F8).
  destruct (a && bool_decide (s <> "")); simpl; split_and!; done.
Qed.

(** The log lines one iteration of [TransformUsers] writes for a user:
    the warnings of its [Sanitise], then the [Debugf] line with its email. *)
Definition userImportLog (a : bool) (s : string) (u : SlackUser) : list LogLine :=
  (transformUser RuneCountInString a s u []).2 ++
    [LogLn LevelDebug (msgUserImported (iu_Email (transformUser RuneCountInString a s u []).1)) None].

Lemma TransformUsers_eq (users : list SlackUser) (a : bool) (s : string) (inter : Intermediate)
    (lg : list LogLine) :
  (TransformUsers RuneCountInString users a s inter lg).1 =
    set_UsersById (insAll su_Id (fun u => (transformUser RuneCountInString a s u []).1) users ∅) inter /\
  (TransformUsers RuneCountInString users a s inter lg).2 =
    lg ++ LogLn LevelInfo msgTransformingUsers None :: concat (userImportLog a s <$> users).
Proof.
  unfold TransformUsers.
  assert (G : forall us m lg0,
    let r := fold_left (fun acc user =>
                 let '(m, lg) := acc in
                 let '(newUser, lg) := transformUser RuneCountInString a s user lg in
                 (<[iu_Id newUser := newUser]> m,
                  lg ++ [LogLn LevelDebug (msgUserImported (iu_Email newUser)) None])) us (m, lg0) in
    r.1 = insAll su_Id (fun u => (transformUser RuneCountInString a s u []).1) us m /\
    r.2 = lg0 ++ concat (userImportLog a s <$> us)).
  { induction us as [|u us IH]; intros m lg0; simpl.
    - split; [done | by rewrite app_nil_r].
    - pose proof (transformUser_user a s u lg0) as E1.
      pose proof (transformUser_frame a s u lg0) as L1.
      pose proof (transformUser_fields a s u lg0) as [I1 _].
      destruct (transformUser _ a s u lg0) as [nu lg1] eqn:Et. simpl in E1, L1, I1.
      match goal with |- context [fold_left ?F us (?m0, ?l0)] => destruct (IH m0 l0) as [IH1 IH2] end.
      split.
      + rewrite IH1. unfold insAll. simpl. by rewrite I1, E1.
      + rewrite IH2, L1. unfold userImportLog. rewrite <- E1. rewrite <- !app_assoc. reflexivity. }
  destruct (G users ∅ (lg ++ [LogLn LevelInfo msgTransformingUsers None])) as [G1 G2].
  destruct (fold_left _ users _) as [m lg'] eqn:Ef. simpl in *. rewrite G1, G2, <- app_assoc. done.
Qed.

End UserMapProps.

(** X9. [TransformUsers] builds a map whose keys are exactly the ids of
    the Slack users; the entry of an id is the transformed LAST user with
    that id. The rest of the intermediate state is unchanged. The log
    gains the info line "Transforming users", then for each user in turn
    the warnings of its [Sanitise] (warnings only) and the debug line
    "Slack user with email <email> has been imported." with its stored
    email. *)
Theorem X9_TransformUsers_map (RuneCountInString : string -> nat) (users : list SlackUser) (a : bool)
    (s : string) (inter : Intermediate) (lg : list LogLine) :
  let '(inter', lg') := TransformUsers RuneCountInString users a s inter lg in
  inter' = set_UsersById (in_UsersById inter') inter /\
  dom (in_UsersById inter') = list_to_set (su_Id <$> users) /\
  (forall k v, in_UsersById inter' !! k = Some v <->
     exists pre user post, users = pre ++ user :: post /\ su_Id user = k /\ k ∉ su_Id <$> post /\
                           v = (transformUser RuneCountInString a s user []).1) /\
  lg' = lg ++ LogLn LevelInfo msgTransformingUsers None ::
          concat (map (fun u => (transformUser RuneCountInString a s u []).2 ++
                                [LogLn LevelDebug (msgUserImported (iu_Email (transformUser RuneCountInString a s u []).1)) None])
                      users) /\
  Forall (fun u => only_warnings [] (transformUser RuneCountInString a s u []).2) users.
Proof.
  destruct (TransformUsers_eq RuneCountInString users a s inter lg) as [E L].
  destruct (TransformUsers _ users a s inter lg) as [inter' lg']. simpl in E, L. subst inter'. simpl.
  split; [done|]. split.
  - rewrite insAll_dom, dom_empty_L. set_solver.
  - split; [|split; [exact L | apply Forall_forall; intros u _; apply transformUser_log]].
    intros k v. rewrite insAll_lookup, lookup_empty. split.
    + intros [H|[_ H]]; [exact H | discriminate H].
    + intros H. by left.
Qed.

(** X10. Every user [TransformUsers] stores is keyed by its own id, has an
    empty password and no memberships, carries its Slack username and an
    email that is the profile email, or "<username>@example.com" when that
    is empty (so never empty), and has the email as auth data and the
    given service exactly when [authDataAsEmail] is set and the service
    name is not empty. *)
Theorem X10_TransformUsers_fields (RuneCountInString : string -> nat) (users : list SlackUser) (a : bool)
    (s : string) (inter : Intermediate) (lg : list LogLine) (k : string) (v : IntermediateUser) :
  in_UsersById (TransformUsers RuneCountInString users a s inter lg).1 !! k = Some v ->
  exists user, user ∈ users /\ su_Id user = k /\
  iu_Id v = k /\ iu_Username v = su_Username user /\ iu_Password v = "" /\ iu_Memberships v = [] /\
  iu_Email v = (if bool_decide (spf_Email (su_Profile user) = "")
                then String.append (su_Username user) "@example.com" else spf_Email (su_Profile user)) /\
  iu_Email v <> "" /\
  (if a && bool_decide (s <> "") then iu_AuthData v = Some (iu_Email v) /\ iu_AuthService v = s
   else iu_AuthData v = None /\ iu_AuthService v = "").
Proof.
  destruct (TransformUsers_eq RuneCountInString users a s inter lg) as [E _]. rewrite E. simpl.
  rewrite insAll_lookup, lookup_empty. intros [(pre & user & post & Eu & Hk & _ & ->)|[_ H]]; [|discriminate H].
  exists user. split; [rewrite Eu; set_solver|]. split; [done|].
  pose proof (transformUser_fields RuneCountInString a s user []) as F. simpl in F.
  destruct F as (F1 & F2 & F3 & F4 & F5 & F6 & F7). rewrite <- Hk. split_and!; done.
Qed.

Lemma containsMember_spec (userId : string) (members : list string) :
  containsMember userId members = bool_decide (userId ∈ members).
Proof.
  induction members as [|m ms IH]; simpl.
  - done.
  - destruct (bool_decide (userId = m)) eqn:D.
    + apply bool_decide_eq_true in D. subst. symmetry. apply bool_decide_eq_true_2. rewrite elem_of_cons; by left.
    + apply bool_decide_eq_false in D. rewrite IH. apply bool_decide_ext. rewrite elem_of_cons. naive_solver.
Qed.

Lemma membershipsIn_spec (userId : string) (channels : list IntermediateChannel) (acc : list string) :
  membershipsIn userId channels acc = acc ++ (ic_Name <$> filter (fun c => userId ∈ ic_Members c) channels).
Proof.
  unfold membershipsIn. revert acc. induction channels as [|c cs IH]; intros acc; simpl.
  - by rewrite app_nil_r.
  - rewrite IH, containsMember_spec, filter_cons. case_bool_decide as D; rewrite decide_bool_decide.
    + rewrite bool_decide_true by done. simpl. by rewrite <- app_assoc.
    + rewrite bool_decide_false by done. done.
Qed.

(** X11. [PopulateUserMemberships] sets the memberships of every user to
    the names of the public, then the private channels whose members
    include the user's key, each such channel once and in order; group and
    direct channels do not count, and nothing else changes. *)
Theorem X11_PopulateUserMemberships (inter : Intermediate) (k : string) :
  in_UsersById (PopulateUserMemberships inter) !! k =
    set_Memberships (ic_Name <$> filter (fun c => k ∈ ic_Members c)
                                     (in_PublicChannels inter ++ in_PrivateChannels inter))
      <$> in_UsersById inter !! k /\
  PopulateUserMemberships inter = set_UsersById (in_UsersById (PopulateUserMemberships inter)) inter.
Proof.
  split; [|done]. unfold PopulateUserMemberships. simpl. rewrite map_lookup_imap.
  destruct (in_UsersById inter !! k); simpl; [|done].
  rewrite !membershipsIn_spec, filter_app, fmap_app. done.
Qed.

Lemma memberUsernames_spec (users : gmap string IntermediateUser) (members : list string) :
  memberUsernames users members = omap (fun m => iu_Username <$> users !! m) members.
Proof.
  unfold memberUsernames.
  assert (G : forall acc, fold_left (fun acc memberId => match users !! memberId with
                                 | Some user => acc ++ [iu_Username user]
                                 | None => acc
                                 end) members acc = acc ++ omap (fun m => iu_Username <$> users !! m) members).
  { induction members as [|m ms IH]; intros acc; simpl; [by rewrite app_nil_r|].
    rewrite IH. destruct (users !! m); simpl; [by rewrite <- app_assoc | done]. }
  apply G.
Qed.

(** X12. [PopulateChannelMemberships] sets the member usernames of every
    group and direct channel to the usernames of its members that are
    keys of the user map, in member order, and changes nothing else; the
    public and private channels and the users are left as they are. *)
Theorem X12_PopulateChannelMemberships (inter : Intermediate) :
  let f := fun c => set_MembersUsernames (omap (fun m => iu_Username <$> in_UsersById inter !! m) (ic_Members c)) c in
  let r := PopulateChannelMemberships inter in
  in_GroupChannels r = f <$> in_GroupChannels inter /\
  in_DirectChannels r = f <$> in_DirectChannels inter /\
  in_PublicChannels r = in_PublicChannels inter /\ in_PrivateChannels r = in_PrivateChannels inter /\
  in_UsersById r = in_UsersById inter /\ in_Posts r = in_Posts inter.
Proof.
  cbn zeta. unfold PopulateChannelMemberships. simpl.
  setoid_rewrite memberUsernames_spec. split_and!; done.
Qed.

Lemma insertByOriginalName_insAll (m : gmap string IntermediateChannel) (channels : list IntermediateChannel) :
  insertByOriginalName m channels = insAll ic_OriginalName (fun c => c) channels m.
Proof. reflexivity. Qed.

(** X13. In the map of [buildChannelsByOriginalNameMap] the keys are the
    original names of all channels, public, private, group and direct;
    the channel under a name is the last one with that name in that
    order, so a later kind of channel overrides an earlier one. *)
Theorem X13_buildChannelsByOriginalNameMap (inter : Intermediate) :
  let all := in_PublicChannels inter ++ in_PrivateChannels inter ++ in_GroupChannels inter ++
             in_DirectChannels inter in
  dom (buildChannelsByOriginalNameMap inter) = list_to_set (ic_OriginalName <$> all) /\
  forall k c, buildChannelsByOriginalNameMap inter !! k = Some c <->
    exists pre post, all = pre ++ c :: post /\ ic_OriginalName c = k /\ k ∉ ic_OriginalName <$> post.
Proof.
  cbn zeta.
  assert (E : buildChannelsByOriginalNameMap inter =
              insAll ic_OriginalName (fun c => c)
                (in_PublicChannels inter ++ in_PrivateChannels inter ++ in_GroupChannels inter ++
                 in_DirectChannels inter) ∅).
  { unfold buildChannelsByOriginalNameMap. rewrite !insertByOriginalName_insAll, !insAll_app. done. }
  rewrite E. split.
  - rewrite insAll_dom, dom_empty_L. set_solver.
  - intros k c. rewrite insAll_lookup, lookup_empty. split.
    + intros [(pre & x & post & Ex & Hk & Hn & ->)|[_ H]]; [|discriminate H]. by exists pre, post.
    + intros (pre & post & Ex & Hk & Hn). left. by exists pre, c, post.
Qed.

Lemma X10_witness :
  in_UsersById (TransformUsers asciiRuneCount x10Users true "gitlab" x10Inter []).1 !! "U1" =
    Some (transformUser asciiRuneCount true "gitlab" (mkSlackUser "U1" "bob" (mkSlackProfile "Bob" "" "" "")) []).1 /\
  exists user, user ∈ x10Users /\ su_Id user = "U1" /\
  let v := (transformUser asciiRuneCount true "gitlab" (mkSlackUser "U1" "bob" (mkSlackProfile "Bob" "" "" "")) []).1 in
  iu_Id v = "U1" /\ iu_Username v = su_Username user /\ iu_Password v = "" /\ iu_Memberships v = [] /\
  iu_Email v = (if bool_decide (spf_Email (su_Profile user) = "")
                then String.append (su_Username user) "@example.com" else spf_Email (su_Profile user)) /\
  iu_Email v <> "" /\
  (if true && bool_decide ("gitlab" <> "") then iu_AuthData v = Some (iu_Email v) /\ iu_AuthService v = "gitlab"
   else iu_AuthData v = None /\ iu_AuthService v = "").
Proof.
  assert (H : in_UsersById (TransformUsers asciiRuneCount x10Users true "gitlab" x10Inter []).1 !! "U1" =
    Some (transformUser asciiRuneCount true "gitlab" (mkSlackUser "U1" "bob" (mkSlackProfile "Bob" "" "" "")) []).1)
    by (vm_compute; reflexivity).
  split; [exact H|].
  exact (X10_TransformUsers_fields asciiRuneCount x10Users true "gitlab" x10Inter [] "U1" _ H).
Defined.

(* ------------------------------------------------------------------ *)
(** ** What the message loop keeps *)

(** One or more steps of the message loop, of at most [n] thread-assembly
    calls: the ledger only grows, by at most [n] values; the store keeps
    its backend and its local keys and gains at most [n] local entries;
    the log is only appended to; a well-formed heap stays well formed. *)
Definition wstep (n : nat) (w w' : World) : Prop :=
  w_timestamps w ⊆ w_timestamps w' /\
  size (w_timestamps w') <= size (w_timestamps w) + n /\
  ts_backend (w_threads w') = ts_backend (w_threads w) /\
  dom (ts_local (w_threads w)) ⊆ dom (ts_local (w_threads w')) /\
  size (ts_local (w_threads w')) <= size (ts_local (w_threads w)) + n /\
  (exists ext, w_log w' = w_log w ++ ext) /\
  (heap_wf (w_heap w) -> heap_wf (w_heap w')).

Lemma wstep_refl (n : nat) (w : World) : wstep n w w.
Proof. split_and!; try done; try lia. exists []. by rewrite app_nil_r. Qed.

Lemma wstep_mono (n m : nat) (w w' : World) : n <= m -> wstep n w w' -> wstep m w w'.
Proof. intros Hnm (A & B & C & D & E & F & G). split_and!; try done; lia. Qed.

Lemma wstep_trans (n m : nat) (w1 w2 w3 : World) : wstep n w1 w2 -> wstep m w2 w3 -> wstep (n + m) w1 w3.
Proof.
  intros (A1 & B1 & C1 & D1 & E1 & [x1 F1] & G1) (A2 & B2 & C2 & D2 & E2 & [x2 F2] & G2).
  split_and!; try set_solver; try lia; try congruence;
    try (exists (x1 ++ x2); by rewrite F2, F1, app_assoc); auto.
Qed.

Lemma wstep_logW (w : World) (l : LogLine) : wstep 0 w (logW w l).
Proof. split_and!; simpl; try done; try lia. by eexists. Qed.

Lemma wstep_onHeap (f : Heap -> Heap) (w : World) :
  (heap_wf (w_heap w) -> heap_wf (f (w_heap w))) -> wstep 0 w (onHeap f w).
Proof. intros Hf. split_and!; simpl; try done; try lia. exists []. by rewrite app_nil_r. Qed.

Lemma size_insert_le (m : gmap string loc) (i : string) (x : loc) : size (<[i:=x]> m) <= S (size m).
Proof. rewrite map_size_insert. destruct (m !! i); simpl; lia. Qed.

Lemma size_union_singleton_le (X : gset Z) (c : Z) : size ({[c]} ∪ X) <= size X + 1.
Proof.
  rewrite size_union_alt, size_singleton.
  pose proof (subseteq_size (X ∖ {[c]}) X ltac:(set_solver)). lia.
Qed.

Lemma LookupThread_local (h : Heap) (s : ThreadsStorage) (T : string) :
  dom (ts_local s) ⊆ dom (ts_local (LookupThread h s T).2) /\
  size (ts_local (LookupThread h s T).2) <= S (size (ts_local s)).
Proof.
  unfold LookupThread. destruct (ts_local s !! T); [simpl; split; [done|lia]|].
  destruct (remoteLookup (ts_backend s) T); [|simpl; split; [done|lia]].
  destruct (decodePost _ h). simpl. rewrite dom_insert_L. split; [set_solver | apply size_insert_le].
Qed.

Ltac log_ext := first [exists []; by rewrite app_nil_r | by eexists].

Section LoopProps.

Variable RuneCountInString : string -> nat.
Variable runesPrefix : string -> nat -> string.
Variables IsPlainMessage IsFileComment IsBotMessage IsJoinLeaveMessage IsMeMessage
  IsChannelTopicMessage IsChannelPurposeMessage IsChannelNameMessage : SlackPost -> bool.
Variable SlackConvertTimeStamp : string -> Z.
Variable propsRuneCount : list SlackAttachment -> nat.
Variable copyAttachment : SlackFile -> option string.
Variable newId : string.

Lemma AddPostToThreads_wstep (original : SlackPost) (post : loc) (channel : IntermediateChannel)
    (imp : bool) (w : World) :
  wstep 1 w (AddPostToThreads RuneCountInString runesPrefix original post channel imp w).
Proof.
  unfold AddPostToThreads.
  set (h1 := modify post (direct_update channel) (w_heap w)).
  set (c := dedupCreateAt (w_timestamps w) (readCreateAt h1 post)).
  set (h2 := modify post (set_CreateAt c) h1).
  assert (W2 : heap_wf (w_heap w) -> heap_wf h2) by (intros; by apply modify_wf, modify_wf).
  assert (T1 : w_timestamps w ⊆ {[c]} ∪ w_timestamps w) by set_solver.
  pose proof (size_union_singleton_le (w_timestamps w) c) as T2.
  destruct (bool_decide _ && bool_decide _).
  - pose proof (LookupThread_backend h2 (w_threads w) (sp_ThreadTS original)) as B.
    pose proof (LookupThread_local h2 (w_threads w) (sp_ThreadTS original)) as [D S].
    assert (HW : heap_wf (w_heap w) -> heap_wf (LookupThread h2 (w_threads w) (sp_ThreadTS original)).1.2).
    { intros Hw. pose proof (LookupThread_heap h2 (w_threads w) (sp_ThreadTS original) (W2 Hw)) as L.
      destruct (LookupThread _ _ _) as [[o h3] s3]. exact (proj1 L). }
    destruct (LookupThread h2 (w_threads w) (sp_ThreadTS original)) as [[[r|] h3] s3]; simpl in *.
    + destruct (negb imp && _); split_and!; simpl; try done; try lia; try log_ext;
        try (intros Hw; apply modify_wf; auto); auto.
    + split_and!; simpl; try done; try lia; try log_ext; auto.
  - assert (W3 : heap_wf (w_heap w) -> heap_wf (modify post (SanitisePost RuneCountInString runesPrefix) h2)) by (intros Hw; apply modify_wf; exact (W2 Hw)).
    pose proof (size_insert_le (ts_local (w_threads w)) (sp_ThreadTS original) post) as S1.
    pose proof (size_insert_le (ts_local (w_threads w)) (sp_TimeStamp original) post) as S2.
    destruct (bool_decide (sp_TimeStamp original = sp_ThreadTS original)).
    + destruct (HasThread _ _); split_and!; simpl; try done; try lia;
        try (rewrite dom_insert_L; set_solver); try log_ext; auto.
    + destruct (HasThread _ _); split_and!; simpl; try done; try lia;
        try (rewrite dom_insert_L; set_solver); try log_ext; auto.
Qed.

Lemma allocPost_wstep (user channelName message ts : string) (w : World) :
  wstep 0 w (allocPost SlackConvertTimeStamp user channelName message ts w).2.
Proof.
  unfold allocPost.
  pose proof (alloc_ext (newIntermediatePost user channelName message (SlackConvertTimeStamp ts)) (w_heap w)) as A.
  destruct (alloc _ (w_heap w)) as [l h] eqn:E. simpl.
  apply wstep_onHeap. intros Hw. exact (proj1 (proj1 (A Hw))).
Qed.

Lemma addFileToPost_wstep (f : SlackFile) (post : loc) (w : World) :
  wstep 0 w (addFileToPost copyAttachment f post w).
Proof.
  unfold addFileToPost. destruct (copyAttachment f) as [d|].
  - apply (wstep_trans 0 0 _ (logW w (LogLn LevelInfo (msgCopied (sf_Id f) d) None)));
      [apply wstep_logW | apply wstep_onHeap, modify_wf].
  - apply wstep_logW.
Qed.

Lemma addFiles_wstep (cfg : TransformConfig) (sp : SlackPost) (post : loc) (w : World) :
  wstep 0 w (addFiles copyAttachment cfg sp post w).
Proof.
  unfold addFiles. destruct (_ && _); [|apply wstep_refl].
  destruct (sp_File sp) as [f|]; [apply addFileToPost_wstep|].
  destruct (sp_Files sp) as [fs|]; [|apply wstep_refl].
  revert w. induction fs as [|f fs IH]; intros w; simpl; [apply wstep_refl|].
  apply (wstep_trans 0 0 _ (addFileToPost copyAttachment f post w)); [apply addFileToPost_wstep | apply IH].
Qed.

Lemma propsStep_wstep (cfg : TransformConfig) (sp : SlackPost) (post : loc) (w : World) :
  wstep 0 w (propsStep propsRuneCount cfg sp post w).1.
Proof.
  unfold propsStep. destruct (decide _); [|apply wstep_refl].
  destruct (decide _); [apply wstep_onHeap, modify_wf|].
  destruct (cfg_DiscardInvalidProps cfg); apply wstep_logW.
Qed.

(** The users of the loop state gain at most the workflow user. *)
Definition ustep (u u' : gmap string IntermediateUser) : Prop :=
  (forall k v, u !! k = Some v -> u' !! k = Some v) /\
  (forall k, k <> "importedworkflow" -> u' !! k = u !! k).

Lemma ustep_refl (u : gmap string IntermediateUser) : ustep u u.
Proof. done. Qed.

Lemma ustep_trans (u1 u2 u3 : gmap string IntermediateUser) : ustep u1 u2 -> ustep u2 u3 -> ustep u1 u3.
Proof.
  intros [A1 B1] [A2 B2]. split; [auto|]. intros k Hk. by rewrite B2, B1.
Qed.

Definition post_step (cfg : TransformConfig) (st st' : PostsState) : Prop :=
  wstep 1 (ps_world st) (ps_world st') /\ ustep (ps_users st) (ps_users st') /\
  (cfg_ImportWorkflowMessages cfg = false -> ps_users st' = ps_users st).

Lemma post_step_refl (cfg : TransformConfig) (st : PostsState) : post_step cfg st st.
Proof. split; [apply wstep_refl|]. done. Qed.

Lemma warnS_step (cfg : TransformConfig) (st : PostsState) (m : string) : post_step cfg st (warnS st m).
Proof. split; [apply (wstep_mono 0); [lia | apply wstep_logW]|]. done. Qed.

Lemma authoredPost_step (cfg : TransformConfig) (channel : IntermediateChannel) (sp : SlackPost)
    (author : IntermediateUser) (message : string) (st : PostsState) :
  post_step cfg st (authoredPost RuneCountInString runesPrefix SlackConvertTimeStamp cfg channel sp author message st).
Proof.
  unfold authoredPost.
  pose proof (allocPost_wstep (iu_Username author) (ic_Name channel) message (sp_TimeStamp sp) (ps_world st)) as A.
  destruct (allocPost _ _ _ _ _ (ps_world st)) as [l w] eqn:E. simpl in *.
  split; [|done].
  apply (wstep_trans 0 1 _ w); [exact A | apply AddPostToThreads_wstep].
Qed.

Lemma filesPropsPost_step (cfg : TransformConfig) (channel : IntermediateChannel) (sp : SlackPost)
    (author : IntermediateUser) (st : PostsState) :
  post_step cfg st (filesPropsPost RuneCountInString runesPrefix SlackConvertTimeStamp propsRuneCount
                      copyAttachment cfg channel sp author st).
Proof.
  unfold filesPropsPost.
  pose proof (allocPost_wstep (iu_Username author) (ic_Name channel) (sp_Text sp) (sp_TimeStamp sp) (ps_world st)) as A.
  destruct (allocPost _ _ _ _ _ (ps_world st)) as [l w] eqn:E. simpl in *.
  pose proof (addFiles_wstep cfg sp l w) as F.
  pose proof (propsStep_wstep cfg sp l (addFiles copyAttachment cfg sp l w)) as P.
  destruct (propsStep _ cfg sp l _) as [w2 [|]]; simpl in *; (split; [|done]).
  - apply (wstep_trans 0 1 _ w2); [|apply AddPostToThreads_wstep].
    apply (wstep_trans 0 0 _ w); [exact A|]. apply (wstep_trans 0 0 _ _ _ F P).
  - apply (wstep_mono 0); [lia|].
    apply (wstep_trans 0 0 _ w); [exact A|]. apply (wstep_trans 0 0 _ _ _ F P).
Qed.

Lemma selectOrCreateWorkflowUser_step (st : PostsState) :
  wstep 0 (ps_world st) (ps_world (selectOrCreateWorkflowUser RuneCountInString newId st).2) /\
  ustep (ps_users st) (ps_users (selectOrCreateWorkflowUser RuneCountInString newId st).2).
Proof.
  unfold selectOrCreateWorkflowUser.
  destruct (ps_users st !! "importedworkflow") as [u|] eqn:Hu; [split; [apply wstep_refl | done]|].
  match goal with |- context [SanitiseUser _ ?n ?lg] =>
    pose proof (SanitiseUser_log RuneCountInString n lg) as L; destruct (SanitiseUser _ n lg) as [nu lg'] end.
  simpl in *. destruct L as [ext [Eext _]]. split.
  - split_and!; simpl; try done; try lia. by eexists.
  - split.
    + intros k v Hk. rewrite lookup_insert_ne; [done|]. intros <-. congruence.
    + intros k Hk. by rewrite lookup_insert_ne by congruence.
Qed.

Lemma transformPost_step (cfg : TransformConfig) (channel : IntermediateChannel) (st : PostsState)
    (post : SlackPost) :
  post_step cfg st (transformPost RuneCountInString runesPrefix IsPlainMessage IsFileComment IsBotMessage
                      IsJoinLeaveMessage IsMeMessage IsChannelTopicMessage IsChannelPurposeMessage
                      IsChannelNameMessage SlackConvertTimeStamp propsRuneCount copyAttachment newId
                      cfg channel st post).
Proof.
  unfold transformPost.
  destruct (IsPlainMessage post).
  { destruct (bool_decide _); [apply warnS_step|].
    destruct (ps_users st !! _); [apply filesPropsPost_step | apply warnS_step]. }
  destruct (IsFileComment post).
  { destruct (sp_Comment post) as [cm|]; [|apply warnS_step].
    destruct (bool_decide _); [apply warnS_step|].
    destruct (ps_users st !! _); [apply authoredPost_step | apply warnS_step]. }
  destruct (IsBotMessage post).
  { destruct (cfg_ImportWorkflowMessages cfg) eqn:Ei; simpl; [|apply post_step_refl].
    pose proof (selectOrCreateWorkflowUser_step st) as [W U].
    destruct (selectOrCreateWorkflowUser _ _ st) as [author st1]. simpl in *.
    destruct (filesPropsPost_step cfg channel post author st1) as (W2 & U2 & _).
    split; [apply (wstep_trans 0 1 _ _ _ W W2)|].
    split; [apply (ustep_trans _ _ _ U U2)|]. congruence. }
  destruct (IsJoinLeaveMessage post); [apply post_step_refl|].
  destruct (IsMeMessage post); [apply post_step_refl|].
  destruct (IsChannelTopicMessage post).
  { destruct (bool_decide _); [apply warnS_step|].
    destruct (ps_users st !! _); [apply authoredPost_step | apply warnS_step]. }
  destruct (IsChannelPurposeMessage post).
  { destruct (bool_decide _); [apply warnS_step|].
    destruct (ps_users st !! _); [apply authoredPost_step | apply warnS_step]. }
  destruct (IsChannelNameMessage post).
  { destruct (bool_decide _); [apply warnS_step|].
    destruct (ps_users st !! _); [apply authoredPost_step | apply warnS_step]. }
  apply warnS_step.
Qed.

Lemma processChannelPosts_steps (cfg : TransformConfig) (channel : IntermediateChannel)
    (posts : list SlackPost) (st : PostsState) :
  let st' := processChannelPosts RuneCountInString runesPrefix IsPlainMessage IsFileComment IsBotMessage
               IsJoinLeaveMessage IsMeMessage IsChannelTopicMessage IsChannelPurposeMessage
               IsChannelNameMessage SlackConvertTimeStamp propsRuneCount copyAttachment newId
               cfg channel st posts in
  wstep (length posts) (ps_world st) (ps_world st') /\ ustep (ps_users st) (ps_users st') /\
  (cfg_ImportWorkflowMessages cfg = false -> ps_users st' = ps_users st).
Proof.
  unfold processChannelPosts. revert st. induction posts as [|p ps IH]; intros st; simpl.
  - split; [apply wstep_refl|]. done.
  - destruct (transformPost_step cfg channel st p) as (W1 & U1 & I1).
    destruct (IH (transformPost RuneCountInString runesPrefix IsPlainMessage IsFileComment IsBotMessage
               IsJoinLeaveMessage IsMeMessage IsChannelTopicMessage IsChannelPurposeMessage
               IsChannelNameMessage SlackConvertTimeStamp propsRuneCount copyAttachment newId
               cfg channel st p)) as (W2 & U2 & I2).
    split; [apply (wstep_trans 1 (length ps) _ _ _ W1 W2)|].
    split; [apply (ustep_trans _ _ _ U1 U2)|].
    intros Hi. rewrite I2, I1 by done. done.
Qed.

End LoopProps.

(** X14. [selectOrCreateWorkflowUser] returns the user stored under
    "importedworkflow", unchanged and with the state unchanged, when there
    is one; otherwise it creates that user (id "importedworkflow", username
    "imported-workflow", email "imported-workflow@tinkoff.ru", a fresh id as
    password, no memberships), stores it under "importedworkflow" and only
    appends warnings to the log. Either way no other user, the heap, the
    store and the ledger are untouched, and a second call returns the same
    user without any change. *)
Theorem X14_selectOrCreateWorkflowUser (RuneCountInString : string -> nat) (newId : string) (st : PostsState) :
  let '(u, st') := selectOrCreateWorkflowUser RuneCountInString newId st in
  ps_users st' !! "importedworkflow" = Some u /\
  selectOrCreateWorkflowUser RuneCountInString newId st' = (u, st') /\
  w_heap (ps_world st') = w_heap (ps_world st) /\ w_threads (ps_world st') = w_threads (ps_world st) /\
  w_timestamps (ps_world st') = w_timestamps (ps_world st) /\
  (forall k, k <> "importedworkflow" -> ps_users st' !! k = ps_users st !! k) /\
  match ps_users st !! "importedworkflow" with
  | Some u0 => u = u0 /\ st' = st
  | None => iu_Id u = "importedworkflow" /\ iu_Username u = WorkflowUserName /\
            iu_Email u = "imported-workflow@tinkoff.ru" /\ iu_Password u = newId /\ iu_Memberships u = [] /\
            only_warnings (w_log (ps_world st)) (w_log (ps_world st'))
  end.
Proof.
  unfold selectOrCreateWorkflowUser.
  destruct (ps_users st !! "importedworkflow") as [u0|] eqn:Hu.
  - rewrite Hu. split_and!; done.
  - match goal with |- context [SanitiseUser _ ?n ?lg] =>
      pose proof (SanitiseUser_log RuneCountInString n lg) as L;
      pose proof (SanitiseUser_fields RuneCountInString n lg) as F;
      destruct (SanitiseUser _ n lg) as [nu lg'] end.
    simpl in *. destruct F as (F1 & F2 & F3 & F4 & F5 & F6 & F7 & F8).
    rewrite lookup_insert_eq. split_and!; try done.
    + intros k Hk. by rewrite lookup_insert_ne by congruence.
Qed.

Section FilesProps.

Variable copyAttachment : SlackFile -> option string.

(** The log line [addFileToPost] and its caller write for one file. *)
Definition fileLine (f : SlackFile) : LogLine :=
  match copyAttachment f with
  | Some d => LogLn LevelInfo (msgCopied (sf_Id f) d) None
  | None => LogLn LevelError msgFileFailed None
  end.

Lemma addFileToPost_chain (fs : list SlackFile) (post : loc) (w : World) :
  let w' := fold_left (fun w f => addFileToPost copyAttachment f post w) fs w in
  h_posts (w_heap w') = alter (fun p => set_Attachments (ip_Attachments p ++ omap copyAttachment fs) p) post
                          (h_posts (w_heap w)) /\
  h_next (w_heap w') = h_next (w_heap w) /\ w_threads w' = w_threads w /\ w_timestamps w' = w_timestamps w /\
  w_log w' = w_log w ++ (fileLine <$> fs).
Proof.
  revert w. induction fs as [|f fs IH]; intros w; simpl.
  - split; [|split_and!; try done; by rewrite app_nil_r].
    symmetry. apply alter_id. intros p _. destruct p. simpl. by rewrite app_nil_r.
  - destruct (IH (addFileToPost copyAttachment f post w)) as (E1 & E2 & E3 & E4 & E5).
    rewrite E1, E2, E3, E4, E5. unfold addFileToPost, fileLine.
    destruct (copyAttachment f) as [d|] eqn:Hc.
    + simpl. rewrite alter_alter_eq. split.
      * apply alter_ext. intros p _. destruct p. simpl. by rewrite <- app_assoc.
      * split_and!; try done. by rewrite <- app_assoc.
    + simpl. split_and!; try done. by rewrite <- app_assoc.
Qed.

End FilesProps.

(** X15. The attachment block of a plain or bot message. With
    [--skip-attachments], or without [File] and [Files], nothing changes.
    Otherwise it handles [File] alone when set, else every entry of
    [Files] in order: the post's attachments get the destination path of
    each file that was copied, appended in order; one log line per file
    handled, in order: the info line "SUCCESS COPYING FILE <id> TO DEST
    <path>" for a copied file, the error line "Failed to add file to post"
    for a failed one; nothing else changes (other posts, the store,
    the ledger). *)
Theorem X15_addFiles (copyAttachment : SlackFile -> option string) (cfg : TransformConfig) (sp : SlackPost)
    (post : loc) (w : World) :
  let files := if cfg_SkipAttachments cfg then []
               else match sp_File sp with Some f => [f] | None => default [] (sp_Files sp) end in
  let w' := addFiles copyAttachment cfg sp post w in
  h_posts (w_heap w') = alter (fun p => set_Attachments (ip_Attachments p ++ omap copyAttachment files) p) post
                          (h_posts (w_heap w)) /\
  h_next (w_heap w') = h_next (w_heap w) /\ w_threads w' = w_threads w /\ w_timestamps w' = w_timestamps w /\
  w_log w' = w_log w ++ ((fun f => match copyAttachment f with
                                    | Some d => LogLn LevelInfo (msgCopied (sf_Id f) d) None
                                    | None => LogLn LevelError msgFileFailed None
                                    end) <$> files).
Proof.
  cbn zeta. unfold addFiles.
  assert (Hnil : h_posts (w_heap w) =
    alter (fun p => set_Attachments (ip_Attachments p ++ omap copyAttachment []) p) post (h_posts (w_heap w))).
  { symmetry. apply alter_id. intros p _. destruct p. simpl. by rewrite app_nil_r. }
  destruct (cfg_SkipAttachments cfg); simpl.
  - rewrite andb_false_r. split_and!; try done. by rewrite app_nil_r.
  - rewrite andb_true_r.
    destruct (sp_File sp) as [f|] eqn:Hf; simpl.
    + apply (addFileToPost_chain copyAttachment [f] post w).
    + destruct (sp_Files sp) as [fs|]; simpl.
      * apply addFileToPost_chain.
      * split_and!; try done. by rewrite app_nil_r.
Qed.

(** X16. The message loop of one channel ([processChannelPosts]) only adds
    to the ledger, at most one value per message; keeps the store's
    backend and its local keys and adds at most one local entry per
    message; only appends to the log; and keeps a well-formed heap well
    formed. *)
Theorem X16_processChannelPosts_world
    (RuneCountInString : string -> nat) (runesPrefix : string -> nat -> string)
    (IsPlainMessage IsFileComment IsBotMessage IsJoinLeaveMessage IsMeMessage
     IsChannelTopicMessage IsChannelPurposeMessage IsChannelNameMessage : SlackPost -> bool)
    (SlackConvertTimeStamp : string -> Z) (propsRuneCount : list SlackAttachment -> nat)
    (copyAttachment : SlackFile -> option string) (newId : string)
    (cfg : TransformConfig) (channel : IntermediateChannel) (st : PostsState) (posts : list SlackPost) :
  let w := ps_world st in
  let w' := ps_world (processChannelPosts RuneCountInString runesPrefix IsPlainMessage IsFileComment IsBotMessage
               IsJoinLeaveMessage IsMeMessage IsChannelTopicMessage IsChannelPurposeMessage
               IsChannelNameMessage SlackConvertTimeStamp propsRuneCount copyAttachment newId
               cfg channel st posts) in
  w_timestamps w ⊆ w_timestamps w' /\
  size (w_timestamps w') <= size (w_timestamps w) + length posts /\
  ts_backend (w_threads w') = ts_backend (w_threads w) /\
  dom (ts_local (w_threads w)) ⊆ dom (ts_local (w_threads w')) /\
  size (ts_local (w_threads w')) <= size (ts_local (w_threads w)) + length posts /\
  (exists ext, w_log w' = w_log w ++ ext) /\
  (heap_wf (w_heap w) -> heap_wf (w_heap w')).
Proof. apply processChannelPosts_steps. Qed.

(** X17. The message loop of one channel never changes or removes a user;
    the only user it may add is the workflow user "importedworkflow", and
    with workflow import off it leaves the users as they are. *)
Theorem X17_processChannelPosts_users
    (RuneCountInString : string -> nat) (runesPrefix : string -> nat -> string)
    (IsPlainMessage IsFileComment IsBotMessage IsJoinLeaveMessage IsMeMessage
     IsChannelTopicMessage IsChannelPurposeMessage IsChannelNameMessage : SlackPost -> bool)
    (SlackConvertTimeStamp : string -> Z) (propsRuneCount : list SlackAttachment -> nat)
    (copyAttachment : SlackFile -> option string) (newId : string)
    (cfg : TransformConfig) (channel : IntermediateChannel) (st : PostsState) (posts : list SlackPost) :
  let u' := ps_users (processChannelPosts RuneCountInString runesPrefix IsPlainMessage IsFileComment IsBotMessage
               IsJoinLeaveMessage IsMeMessage IsChannelTopicMessage IsChannelPurposeMessage
               IsChannelNameMessage SlackConvertTimeStamp propsRuneCount copyAttachment newId
               cfg channel st posts) in
  (forall k v, ps_users st !! k = Some v -> u' !! k = Some v) /\
  (forall k, k <> "importedworkflow" -> u' !! k = ps_users st !! k) /\
  (cfg_ImportWorkflowMessages cfg = false -> u' = ps_users st).
Proof.
  cbn zeta. destruct (processChannelPosts_steps RuneCountInString runesPrefix IsPlainMessage IsFileComment
    IsBotMessage IsJoinLeaveMessage IsMeMessage IsChannelTopicMessage IsChannelPurposeMessage
    IsChannelNameMessage SlackConvertTimeStamp propsRuneCount copyAttachment newId cfg channel posts st)
    as (_ & [U1 U2] & I). done.
Qed.

Section PostsProps.

Variable RuneCountInString : string -> nat.
Variable runesPrefix : string -> nat -> string.
Variables IsPlainMessage IsFileComment IsBotMessage IsJoinLeaveMessage IsMeMessage
  IsChannelTopicMessage IsChannelPurposeMessage IsChannelNameMessage : SlackPost -> bool.
Variable SlackConvertTimeStamp : string -> Z.
Variable propsRuneCount : list SlackAttachment -> nat.
Variable copyAttachment : SlackFile -> option string.
Variable newId : string.
Variable sortPosts : list SlackPost -> list SlackPost.
Variable remote : gmap string PostJSON.

(** [sort.Slice] only reorders. *)
Hypothesis sortPosts_perm : forall l, sortPosts l ≡ₚ l.

Let TCP := transformChannelPosts RuneCountInString runesPrefix IsPlainMessage IsFileComment IsBotMessage
  IsJoinLeaveMessage IsMeMessage IsChannelTopicMessage IsChannelPurposeMessage IsChannelNameMessage
  SlackConvertTimeStamp propsRuneCount copyAttachment newId sortPosts remote.

Lemma newChannelThreadsStorage_empty (cfg : TransformConfig) (name : string) :
  ts_local (newChannelThreadsStorage remote cfg name) = ∅.
Proof. unfold newChannelThreadsStorage. by destruct (cfg_UseRedis cfg). Qed.

Definition known_messages (m : gmap string IntermediateChannel) (entries : list (string * list SlackPost)) : nat :=
  sum_list_with (fun e => length e.2) (filter (fun e => is_Some (m !! e.1)) entries).

Lemma transformChannelPosts_fold (cfg : TransformConfig) (m : gmap string IntermediateChannel)
    (entries : list (string * list SlackPost)) (rp : list loc) (users : gmap string IntermediateUser)
    (h : Heap) (lg : list LogLine) :
  let '(rp', users', h', lg') := fold_left (TCP cfg m) entries (rp, users, h, lg) in
  length rp' <= length rp + known_messages m entries /\ ustep users users' /\
  (cfg_ImportWorkflowMessages cfg = false -> users' = users) /\
  (exists ext, lg' = lg ++ ext) /\ (heap_wf h -> heap_wf h').
Proof.
  unfold known_messages.
  revert rp users h lg. induction entries as [|[name posts] es IH]; intros rp users h lg; simpl.
  - split; [lia|]. split; [done|]. split; [done|]. split; [exists []; by rewrite app_nil_r | done].
  - rewrite filter_cons. simpl.
    destruct (m !! name) as [channel|] eqn:Hm.
    + rewrite decide_True by (by eexists). simpl.
      match goal with |- context [processChannelPosts _ _ _ _ _ _ _ _ _ _ _ _ _ _ cfg channel ?st0 ?ps] =>
        pose proof (processChannelPosts_steps RuneCountInString runesPrefix IsPlainMessage IsFileComment
          IsBotMessage IsJoinLeaveMessage IsMeMessage IsChannelTopicMessage IsChannelPurposeMessage
          IsChannelNameMessage SlackConvertTimeStamp propsRuneCount copyAttachment newId cfg channel ps st0)
          as (W & U & I);
        destruct (processChannelPosts _ _ _ _ _ _ _ _ _ _ _ _ _ _ cfg channel st0 ps) as [[h1 s1 ts1 lg1] users1]
      end.
      destruct W as (_ & _ & _ & _ & S & [x X] & HW).
      cbn -[newChannelThreadsStorage] in S, X, HW. simpl.
      rewrite newChannelThreadsStorage_empty, map_size_empty in S.
      rewrite (Permutation_length (sortPosts_perm posts)) in S.
      specialize (IH (rp ++ GetChangedThreads s1) users1 h1 lg1).
      destruct (fold_left (TCP cfg m) es _) as [[[rp' users'] h'] lg'].
      destruct IH as (L & U' & I' & [y Y] & HW').
      split.
      * rewrite length_app in L. unfold GetChangedThreads in L. rewrite length_map, length_map_to_list in L. lia.
      * split; [by apply (ustep_trans _ users1)|].
        split; [intros Hi; specialize (I Hi); specialize (I' Hi); simpl in *; congruence|].
        split; [exists (x ++ y); by rewrite Y, X, app_assoc | auto].
    + rewrite decide_False by (intros [? H']; first [discriminate H' | rewrite Hm in H'; discriminate H']).
      specialize (IH rp users h (lg ++ [warn msgNoChannel])).
      destruct (fold_left (TCP cfg m) es _) as [[[rp' users'] h'] lg'].
      destruct IH as (L & U' & I' & [y Y] & HW').
      split; [lia|]. split; [done|]. split; [done|].
      split; [exists (warn msgNoChannel :: y); by rewrite Y, <- app_assoc | done].
Qed.

Lemma TransformPosts_spec (cfg : TransformConfig) (se : SlackExport) (inter : Intermediate) (h : Heap)
    (lg : list LogLine) :
  let '(inter', h', lg') := TransformPosts RuneCountInString runesPrefix IsPlainMessage IsFileComment
      IsBotMessage IsJoinLeaveMessage IsMeMessage IsChannelTopicMessage IsChannelPurposeMessage
      IsChannelNameMessage SlackConvertTimeStamp propsRuneCount copyAttachment newId sortPosts remote
      cfg se inter h lg in
  in_PublicChannels inter' = in_PublicChannels inter /\ in_PrivateChannels inter' = in_PrivateChannels inter /\
  in_GroupChannels inter' = in_GroupChannels inter /\ in_DirectChannels inter' = in_DirectChannels inter /\
  length (in_Posts inter') <= known_messages (buildChannelsByOriginalNameMap inter) (se_Posts se) /\
  ustep (in_UsersById inter) (in_UsersById inter') /\
  (cfg_ImportWorkflowMessages cfg = false -> in_UsersById inter' = in_UsersById inter) /\
  (exists ext, lg' = lg ++ ext) /\ (heap_wf h -> heap_wf h').
Proof.
  unfold TransformPosts.
  pose proof (transformChannelPosts_fold cfg (buildChannelsByOriginalNameMap inter) (se_Posts se) []
                (in_UsersById inter) h (lg ++ [LogLn LevelInfo msgTransformingPosts None])) as F.
  unfold TCP in F.
  destruct (fold_left _ (se_Posts se) _) as [[[rp' users'] h'] lg'].
  destruct F as (L & U & I & [ext X] & W). simpl in *. rewrite !app_nil_r. split_and!; try done.
  exists (LogLn LevelInfo msgTransformingPosts None :: ext). by rewrite X, <- app_assoc.
Qed.

End PostsProps.

(** X18. [TransformPosts] keeps the four channel lists; it returns at most
    one post per message of a channel that the channel map knows (messages
    of unknown channels give none); it never changes or removes a user and
    may only add the workflow user, none with workflow import off; it only
    appends to the log and keeps a well-formed heap well formed. *)
Theorem X18_TransformPosts
    (RuneCountInString : string -> nat) (runesPrefix : string -> nat -> string)
    (IsPlainMessage IsFileComment IsBotMessage IsJoinLeaveMessage IsMeMessage
     IsChannelTopicMessage IsChannelPurposeMessage IsChannelNameMessage : SlackPost -> bool)
    (SlackConvertTimeStamp : string -> Z) (propsRuneCount : list SlackAttachment -> nat)
    (copyAttachment : SlackFile -> option string) (newId : string)
    (sortPosts : list SlackPost -> list SlackPost) (remote : gmap string PostJSON)
    (sortPosts_perm : forall l, sortPosts l ≡ₚ l)
    (cfg : TransformConfig) (se : SlackExport) (inter : Intermediate) (h : Heap) (lg : list LogLine) :
  let '(inter', h', lg') := TransformPosts RuneCountInString runesPrefix IsPlainMessage IsFileComment
      IsBotMessage IsJoinLeaveMessage IsMeMessage IsChannelTopicMessage IsChannelPurposeMessage
      IsChannelNameMessage SlackConvertTimeStamp propsRuneCount copyAttachment newId sortPosts remote
      cfg se inter h lg in
  in_PublicChannels inter' = in_PublicChannels inter /\ in_PrivateChannels inter' = in_PrivateChannels inter /\
  in_GroupChannels inter' = in_GroupChannels inter /\ in_DirectChannels inter' = in_DirectChannels inter /\
  length (in_Posts inter') <=
    sum_list_with (fun e => length e.2)
      (filter (fun e => is_Some (buildChannelsByOriginalNameMap inter !! e.1)) (se_Posts se)) /\
  (forall k v, in_UsersById inter !! k = Some v -> in_UsersById inter' !! k = Some v) /\
  (forall k, k <> "importedworkflow" -> in_UsersById inter' !! k = in_UsersById inter !! k) /\
  (cfg_ImportWorkflowMessages cfg = false -> in_UsersById inter' = in_UsersById inter) /\
  (exists ext, lg' = lg ++ ext) /\ (heap_wf h -> heap_wf h').
Proof.
  pose proof (TransformPosts_spec RuneCountInString runesPrefix IsPlainMessage IsFileComment
      IsBotMessage IsJoinLeaveMessage IsMeMessage IsChannelTopicMessage IsChannelPurposeMessage
      IsChannelNameMessage SlackConvertTimeStamp propsRuneCount copyAttachment newId sortPosts remote
      sortPosts_perm cfg se inter h lg) as S.
  destruct (TransformPosts _ _ _ _ _ _ _ _ _ _ _ _ _ _ _ _ cfg se inter h lg) as [[inter' h'] lg'].
  destruct S as (A & B & C & D & E & [U1 U2] & I & X & W). split_and!; done.
Qed.

Section AllChannelsProps.

Variable RuneCountInString : string -> nat.
Variable truncateRunes : string -> nat -> string.
Variable isValidChannelNameCharacters : string -> bool.
Variable ToLower : string -> string.
Variable SlackConvertChannelName : string -> string -> string.
Variable SplitChannelsByMemberSize : list SlackChannel -> nat -> list SlackChannel * list SlackChannel.

Lemma TransformAllChannels_spec (se : SlackExport) (inter : Intermediate) (lg : list LogLine) :
  let '(inter', lg') := TransformAllChannels RuneCountInString truncateRunes isValidChannelNameCharacters
                          ToLower SlackConvertChannelName SplitChannelsByMemberSize se inter lg in
  in_UsersById inter' = in_UsersById inter /\ in_Posts inter' = in_Posts inter /\
  Forall (channel_ok (in_UsersById inter))
    (in_PublicChannels inter' ++ in_PrivateChannels inter' ++ in_GroupChannels inter' ++ in_DirectChannels inter') /\
  length (in_PublicChannels inter') <= length (se_PublicChannels se) /\
  length (in_DirectChannels inter') <= length (se_DirectChannels se) /\
  only_warnings (lg ++ [LogLn LevelInfo msgTransformingChannels None]) lg'.
Proof.
  unfold TransformAllChannels.
  set (users := in_UsersById inter).
  set (lg0 := lg ++ [LogLn LevelInfo msgTransformingChannels None]).
  pose proof (TransformChannels_ok RuneCountInString truncateRunes isValidChannelNameCharacters ToLower
                SlackConvertChannelName users (se_PublicChannels se) lg0) as P1.
  destruct (TransformChannels _ _ _ _ _ users (se_PublicChannels se) lg0) as [pub lg1].
  destruct P1 as (N1 & F1 & L1).
  pose proof (TransformChannels_ok RuneCountInString truncateRunes isValidChannelNameCharacters ToLower
                SlackConvertChannelName users (se_PrivateChannels se) lg1) as P2.
  destruct (TransformChannels _ _ _ _ _ users (se_PrivateChannels se) lg1) as [priv lg2].
  destruct P2 as (N2 & F2 & L2).
  destruct (SplitChannelsByMemberSize (se_GroupChannels se) ChannelGroupMaxUsers) as [regular big].
  pose proof (TransformChannels_ok RuneCountInString truncateRunes isValidChannelNameCharacters ToLower
                SlackConvertChannelName users big lg2) as P3.
  destruct (TransformChannels _ _ _ _ _ users big lg2) as [bigc lg3].
  destruct P3 as (N3 & F3 & L3).
  pose proof (TransformChannels_ok RuneCountInString truncateRunes isValidChannelNameCharacters ToLower
                SlackConvertChannelName users regular lg3) as P4.
  destruct (TransformChannels _ _ _ _ _ users regular lg3) as [grp lg4].
  destruct P4 as (N4 & F4 & L4).
  pose proof (TransformChannels_ok RuneCountInString truncateRunes isValidChannelNameCharacters ToLower
                SlackConvertChannelName users (se_DirectChannels se) lg4) as P5.
  destruct (TransformChannels _ _ _ _ _ users (se_DirectChannels se) lg4) as [dir lg5].
  destruct P5 as (N5 & F5 & L5). simpl.
  split; [done|]. split; [done|].
  split; [rewrite !Forall_app; split_and!; done|].
  split; [done|]. split; [done|].
  eapply only_warnings_trans; [exact L1|]. eapply only_warnings_trans; [exact L2|].
  eapply only_warnings_trans; [exact L3|]. eapply only_warnings_trans; [exact L4 | exact L5].
Qed.

End AllChannelsProps.

(** X19. After [TransformAllChannels] every member of every public,
    private, group and direct channel is a key of the user map, every
    direct- or group-typed channel has at least two members, and no member
    usernames are set yet; there are no more public channels than exported
    public channels and no more direct channels than exported direct ones;
    the users and posts are unchanged; the log gains the info line
    "Transforming channels" and after it only warnings. *)
Theorem X19_TransformAllChannels
    (RuneCountInString : string -> nat) (truncateRunes : string -> nat -> string)
    (isValidChannelNameCharacters : string -> bool) (ToLower : string -> string)
    (SlackConvertChannelName : string -> string -> string)
    (SplitChannelsByMemberSize : list SlackChannel -> nat -> list SlackChannel * list SlackChannel)
    (se : SlackExport) (inter : Intermediate) (lg : list LogLine) :
  let '(inter', lg') := TransformAllChannels RuneCountInString truncateRunes isValidChannelNameCharacters
                          ToLower SlackConvertChannelName SplitChannelsByMemberSize se inter lg in
  in_UsersById inter' = in_UsersById inter /\ in_Posts inter' = in_Posts inter /\
  Forall (fun c => Forall (fun m => is_Some (in_UsersById inter !! m)) (ic_Members c) /\
                   ((ic_Type c = ChannelTypeDirect \/ ic_Type c = ChannelTypeGroup) -> 2 <= length (ic_Members c)) /\
                   ic_MembersUsernames c = [])
    (in_PublicChannels inter' ++ in_PrivateChannels inter' ++ in_GroupChannels inter' ++ in_DirectChannels inter') /\
  length (in_PublicChannels inter') <= length (se_PublicChannels se) /\
  length (in_DirectChannels inter') <= length (se_DirectChannels se) /\
  only_warnings (lg ++ [LogLn LevelInfo msgTransformingChannels None]) lg'.
Proof. apply TransformAllChannels_spec. Qed.

Section DirectProps.

Variable RuneCountInString : string -> nat.
Variable runesPrefix : string -> nat -> string.

Definition kept_fields (p : IntermediatePost) :=
  (ip_IsDirect p, ip_ChannelMembers p, ip_User p, ip_Channel p, ip_Props p, ip_Attachments p).

Lemma AddPostToThreads_direct (original : SlackPost) (post : loc) (channel : IntermediateChannel)
    (imp : bool) (w : World) (p : IntermediatePost) :
  heap_wf (w_heap w) -> h_posts (w_heap w) !! post = Some p ->
  kept_fields <$> h_posts (w_heap (AddPostToThreads RuneCountInString runesPrefix original post channel imp w)) !! post =
    Some (kept_fields (direct_update channel p)).
Proof.
  intros Hwf Hp. unfold AddPostToThreads.
  set (h1 := modify post (direct_update channel) (w_heap w)).
  set (c := dedupCreateAt (w_timestamps w) (readCreateAt h1 post)).
  set (h2 := modify post (set_CreateAt c) h1).
  assert (E2 : kept_fields <$> h_posts h2 !! post = Some (kept_fields (direct_update channel p))).
  { unfold h2. rewrite (modify_field kept_fields) by (intros q; by destruct q).
    unfold h1. by rewrite modify_lookup_eq, Hp. }
  assert (W2 : heap_wf h2) by (by apply modify_wf, modify_wf).
  assert (Hlt : post < h_next h2) by (apply W2; destruct (h_posts h2 !! post); [by eexists | discriminate E2]).
  destruct (bool_decide _ && bool_decide _).
  - pose proof (LookupThread_heap h2 (w_threads w) (sp_ThreadTS original) W2) as L.
    destruct (LookupThread h2 (w_threads w) (sp_ThreadTS original)) as [[[r|] h3] s3];
      destruct L as [_ L]; rewrite <- (L post Hlt) in E2.
    + destruct (negb imp && _); cbn [w_heap]; [exact E2|].
      rewrite (modify_field kept_fields) by (intros q; by destruct q). exact E2.
    + exact E2.
  - destruct (bool_decide _); [destruct (HasThread _ _)|destruct (HasThread _ _)]; cbn [w_heap];
      (rewrite (modify_field kept_fields) by (intros q; unfold SanitisePost; case_decide; by destruct q); exact E2).
Qed.

End DirectProps.

(** X20. Thread assembly marks a post of a direct or group channel as
    direct and gives it the channel's member usernames; a post of any
    other channel is marked not direct and keeps its channel members. Its
    author, channel, props and attachments are never changed. *)
Theorem X20_AddPostToThreads_direct (RuneCountInString : string -> nat) (runesPrefix : string -> nat -> string)
    (original : SlackPost) (post : loc) (channel : IntermediateChannel) (imp : bool) (w : World)
    (p : IntermediatePost) :
  heap_wf (w_heap w) -> h_posts (w_heap w) !! post = Some p ->
  exists p', h_posts (w_heap (AddPostToThreads RuneCountInString runesPrefix original post channel imp w)) !! post = Some p' /\
    ip_IsDirect p' = isDirectOrGroup (ic_Type channel) /\
    ip_ChannelMembers p' = (if isDirectOrGroup (ic_Type channel) then ic_MembersUsernames channel
                            else ip_ChannelMembers p) /\
    ip_User p' = ip_User p /\ ip_Channel p' = ip_Channel p /\ ip_Props p' = ip_Props p /\
    ip_Attachments p' = ip_Attachments p.
Proof.
  intros Hwf Hp.
  pose proof (AddPostToThreads_direct RuneCountInString runesPrefix original post channel imp w p Hwf Hp) as E.
  revert E. destruct (h_posts (w_heap (AddPostToThreads RuneCountInString runesPrefix original post channel imp w)) !! post)
    as [p'|]; intros E; [|inversion E].
  exists p'. split; [done|]. simpl in E. injection E as E1 E2 E3 E4 E5 E6.
  unfold direct_update in *. destruct (isDirectOrGroup (ic_Type channel)); destruct p; simpl in *; split_and!; done.
Qed.

(** X16 witness: one plain message processed from the empty heap keeps the
    heap well formed. *)
Lemma X16_witness :
  heap_wf (w_heap (ps_world c8State)) /\
  heap_wf (w_heap (ps_world (processChannelPosts asciiRuneCount asciiRunesPrefix c8Plain c8Never c8Never c8Never
     c8Never c8Never c8Never c8Never c8Time c8Props c8Copy "" c8Config generalChannel c8State [c8Msg]))).
Proof.
  assert (W0 : heap_wf (w_heap (ps_world c8State))) by apply worldOf_wf.
  split; [exact W0|].
  destruct (X16_processChannelPosts_world asciiRuneCount asciiRunesPrefix c8Plain c8Never c8Never c8Never
     c8Never c8Never c8Never c8Never c8Time c8Props c8Copy "" c8Config generalChannel c8State [c8Msg])
    as (_ & _ & _ & _ & _ & _ & W).
  exact (W W0).
Defined.

(** X17 witness: with workflow import off the users are left as they are. *)
Lemma X17_witness :
  cfg_ImportWorkflowMessages c8Config = false /\
  ps_users (processChannelPosts asciiRuneCount asciiRunesPrefix c8Plain c8Never c8Never c8Never
     c8Never c8Never c8Never c8Never c8Time c8Props c8Copy "" c8Config generalChannel c8State [c8Msg]) =
  ps_users c8State.
Proof.
  split; [reflexivity|].
  destruct (X17_processChannelPosts_users asciiRuneCount asciiRunesPrefix c8Plain c8Never c8Never c8Never
     c8Never c8Never c8Never c8Never c8Time c8Props c8Copy "" c8Config generalChannel c8State [c8Msg])
    as (_ & _ & U).
  exact (U eq_refl).
Defined.

(** X18 witness: with the identity as the sort, an export whose only
    channel is unknown to the channel map gives no posts. *)
Lemma X18_witness :
  (forall l : list SlackPost, (fun l => l) l ≡ₚ l) /\
  match TransformPosts asciiRuneCount asciiRunesPrefix c8Plain c8Never c8Never c8Never
     c8Never c8Never c8Never c8Never c8Time c8Props c8Copy "" (fun l => l) ∅ c8Config
     (mkSlackExport [] [] [] [] [] [("general", [c8Msg])]) x10Inter (w_heap (ps_world c8State)) [] with
  | (inter', h', _) => length (in_Posts inter') <= 0 /\ heap_wf h'
  end.
Proof.
  split; [intros l; apply Permutation_refl|].
  pose proof (X18_TransformPosts asciiRuneCount asciiRunesPrefix c8Plain c8Never c8Never c8Never
     c8Never c8Never c8Never c8Never c8Time c8Props c8Copy "" (fun l => l) ∅ (fun l => Permutation_refl l)
     c8Config (mkSlackExport [] [] [] [] [] [("general", [c8Msg])]) x10Inter (w_heap (ps_world c8State)) []) as H.
  destruct (TransformPosts _ _ _ _ _ _ _ _ _ _ _ _ _ _ _ _ _ _ _ _ _) as [[inter' h'] lg'].
  destruct H as (_ & _ & _ & _ & L & _ & _ & _ & _ & W). split.
  - exact L.
  - apply W, worldOf_wf.
Defined.

(** X20 witness: a post of the open channel "general" is marked not direct. *)
Lemma X20_witness :
  heap_wf (w_heap (worldOf [postAt 1] newMemoryStorage ∅)) /\
  h_posts (w_heap (worldOf [postAt 1] newMemoryStorage ∅)) !! 0 = Some (postAt 1) /\
  exists p', h_posts (w_heap (AddPostToThreads asciiRuneCount asciiRunesPrefix (rootMsg "1") 0 generalChannel false
                 (worldOf [postAt 1] newMemoryStorage ∅))) !! 0 = Some p' /\ ip_IsDirect p' = false.
Proof.
  assert (W : heap_wf (w_heap (worldOf [postAt 1] newMemoryStorage ∅))) by apply worldOf_wf.
  assert (P : h_posts (w_heap (worldOf [postAt 1] newMemoryStorage ∅)) !! 0 = Some (postAt 1)) by reflexivity.
  split; [exact W|]. split; [exact P|].
  destruct (X20_AddPostToThreads_direct asciiRuneCount asciiRunesPrefix (rootMsg "1") 0 generalChannel false
              (worldOf [postAt 1] newMemoryStorage ∅) (postAt 1) W P) as (p' & E & D & _).
  exists p'. split; [exact E | exact D].
Defined.

Lemma omap_all_some {A B} (g : A -> option B) (l : list A) :
  Forall (fun x => is_Some (g x)) l -> Forall2 (fun x y => g x = Some y) l (omap g l).
Proof.
  induction 1 as [|x l [y Hy] _ IH]; simpl; [constructor|]. rewrite Hy. by constructor.
Qed.

Section TransformProps.

Variable RuneCountInString : string -> nat.
Variable runesPrefix : string -> nat -> string.
Variable truncateRunes : string -> nat -> string.
Variable isValidChannelNameCharacters : string -> bool.
Variable ToLower : string -> string.
Variable SlackConvertChannelName : string -> string -> string.
Variable SplitChannelsByMemberSize : list SlackChannel -> nat -> list SlackChannel * list SlackChannel.
Variables IsPlainMessage IsFileComment IsBotMessage IsJoinLeaveMessage IsMeMessage
  IsChannelTopicMessage IsChannelPurposeMessage IsChannelNameMessage : SlackPost -> bool.
Variable SlackConvertTimeStamp : string -> Z.
Variable propsRuneCount : list SlackAttachment -> nat.
Variable copyAttachment : SlackFile -> option string.
Variable newId : string.
Variable sortPosts : list SlackPost -> list SlackPost.
Variable remote : gmap string PostJSON.
Hypothesis sortPosts_perm : forall l, sortPosts l ≡ₚ l.

Lemma Transform_spec (cfg : TransformConfig) (se : SlackExport) (inter : Intermediate) (h : Heap)
    (lg : list LogLine) :
  cfg_SkipChannels cfg = false ->
  let '(inter', h', lg') := Transform RuneCountInString runesPrefix truncateRunes isValidChannelNameCharacters
      ToLower SlackConvertChannelName SplitChannelsByMemberSize IsPlainMessage IsFileComment IsBotMessage
      IsJoinLeaveMessage IsMeMessage IsChannelTopicMessage IsChannelPurposeMessage IsChannelNameMessage
      SlackConvertTimeStamp propsRuneCount copyAttachment newId sortPosts remote cfg se inter h lg in
  list_to_set (su_Id <$> se_Users se) ⊆ dom (in_UsersById inter') /\
  dom (in_UsersById inter') ⊆ list_to_set (su_Id <$> se_Users se) ∪ {["importedworkflow"]} /\
  Forall (fun c => Forall (fun m => is_Some (in_UsersById inter' !! m)) (ic_Members c))
    (in_PublicChannels inter' ++ in_PrivateChannels inter' ++ in_GroupChannels inter' ++ in_DirectChannels inter') /\
  Forall (fun c => Forall2 (fun m u => iu_Username <$> in_UsersById inter' !! m = Some u)
                     (ic_Members c) (ic_MembersUsernames c))
    (in_GroupChannels inter' ++ in_DirectChannels inter') /\
  Forall (fun c => ic_MembersUsernames c = []) (in_PublicChannels inter' ++ in_PrivateChannels inter') /\
  (exists ext, lg' = lg ++ ext).
Proof.
  intros Hskip. unfold Transform.
  destruct (TransformUsers_eq RuneCountInString (se_Users se) (cfg_AuthDataAsEmail cfg) (cfg_AuthService cfg)
              inter lg) as [E1 L1].
  destruct (TransformUsers _ _ _ _ inter lg) as [i1 lg1]. simpl in E1, L1.
  assert (D1 : dom (in_UsersById i1) = list_to_set (su_Id <$> se_Users se)).
  { subst i1. simpl. rewrite insAll_dom, dom_empty_L. set_solver. }
  rewrite Hskip. cbn [negb].
  pose proof (TransformAllChannels_spec RuneCountInString truncateRunes isValidChannelNameCharacters
                ToLower SlackConvertChannelName SplitChannelsByMemberSize se i1 lg1) as A.
  destruct (TransformAllChannels _ _ _ _ _ _ se i1 lg1) as [i2 lg2].
  destruct A as (AU & _ & AF & _ & _ & [ws2 [L2 _]]).
  set (U := in_UsersById i1) in *.
  set (U3 := in_UsersById (PopulateUserMemberships i2)).
  assert (HU3 : forall k, U3 !! k = set_Memberships (membershipsIn k (in_PrivateChannels i2)
                            (membershipsIn k (in_PublicChannels i2) [])) <$> U !! k).
  { intros k. unfold U3, PopulateUserMemberships. simpl. by rewrite map_lookup_imap, AU. }
  set (f := fun c => set_MembersUsernames (memberUsernames U3 (ic_Members c)) c).
  set (i3 := PopulateChannelMemberships (PopulateUserMemberships i2)).
  assert (P : let '(i4, h4, lg4) :=
      (if negb (cfg_SkipPosts cfg)
       then TransformPosts RuneCountInString runesPrefix IsPlainMessage IsFileComment IsBotMessage
              IsJoinLeaveMessage IsMeMessage IsChannelTopicMessage IsChannelPurposeMessage IsChannelNameMessage
              SlackConvertTimeStamp propsRuneCount copyAttachment newId sortPosts remote cfg se i3 h (lg2 ++ [LogLn LevelInfo msgPopulatingUserMemberships None; LogLn LevelInfo msgPopulatingChannelMemberships None])
       else (i3, h, (lg2 ++ [LogLn LevelInfo msgPopulatingUserMemberships None; LogLn LevelInfo msgPopulatingChannelMemberships None]))) in
      in_PublicChannels i4 = in_PublicChannels i2 /\ in_PrivateChannels i4 = in_PrivateChannels i2 /\
      in_GroupChannels i4 = f <$> in_GroupChannels i2 /\ in_DirectChannels i4 = f <$> in_DirectChannels i2 /\
      ustep U3 (in_UsersById i4) /\ exists ext, lg4 = (lg2 ++ [LogLn LevelInfo msgPopulatingUserMemberships None; LogLn LevelInfo msgPopulatingChannelMemberships None]) ++ ext).
  { destruct (cfg_SkipPosts cfg); cbn [negb].
    - split_and!; try done; exists []; by rewrite app_nil_r.
    - pose proof (TransformPosts_spec RuneCountInString runesPrefix IsPlainMessage IsFileComment IsBotMessage
              IsJoinLeaveMessage IsMeMessage IsChannelTopicMessage IsChannelPurposeMessage IsChannelNameMessage
              SlackConvertTimeStamp propsRuneCount copyAttachment newId sortPosts remote sortPosts_perm
              cfg se i3 h (lg2 ++ [LogLn LevelInfo msgPopulatingUserMemberships None; LogLn LevelInfo msgPopulatingChannelMemberships None])) as T.
      destruct (TransformPosts _ _ _ _ _ _ _ _ _ _ _ _ _ _ _ _ cfg se i3 h _) as [[i4 h4] lg4].
      destruct T as (T1 & T2 & T3 & T4 & _ & T6 & _ & T8 & _).
      rewrite T1, T2, T3, T4. split_and!; done. }
  destruct (if negb (cfg_SkipPosts cfg) then _ else _) as [[i4 h4] lg4].
  destruct P as (P1 & P2 & P3 & P4 & [PU1 PU2] & [ext PL]).
  assert (K : forall m, is_Some (U !! m) -> exists v, U3 !! m = Some v /\ in_UsersById i4 !! m = Some v).
  { intros m [v Hv]. rewrite HU3, Hv. simpl. eexists. split; [reflexivity|]. apply PU1. by rewrite HU3, Hv. }
  assert (K' : forall m, is_Some (U !! m) -> is_Some (in_UsersById i4 !! m)).
  { intros m Hm. destruct (K m Hm) as (v & _ & Hv). by eexists. }
  rewrite !Forall_app in AF. destruct AF as (Fpub & Fpriv & Fgrp & Fdir).
  assert (Ff : forall c, channel_ok U c ->
            Forall (fun m => is_Some (in_UsersById i4 !! m)) (ic_Members (f c)) /\
            Forall2 (fun m u => iu_Username <$> in_UsersById i4 !! m = Some u)
              (ic_Members (f c)) (ic_MembersUsernames (f c))).
  { intros c [Hm _]. simpl. split; [by eapply Forall_impl|].
    rewrite memberUsernames_spec. eapply Forall2_impl.
    - apply omap_all_some. eapply Forall_impl; [exact Hm|]. intros m Hk.
      destruct (K m Hk) as (v & Hv & _). rewrite Hv. by eexists.
    - intros m u. simpl. intros Hu. destruct (U3 !! m) as [v|] eqn:Hv; [|discriminate Hu].
      rewrite (PU1 m v Hv). exact Hu. }
  rewrite P1, P2, P3, P4. split_and!.
  - intros k Hk. rewrite <- D1 in Hk. apply elem_of_dom in Hk. apply elem_of_dom, K', Hk.
  - intros k Hk. destruct (decide (k = "importedworkflow")) as [->|Hne]; [set_solver|].
    apply elem_of_union_l. rewrite <- D1. apply elem_of_dom in Hk. rewrite PU2 in Hk by exact Hne.
    rewrite HU3 in Hk. apply elem_of_dom. destruct (U !! k); [by eexists | by destruct Hk].
  - rewrite !Forall_app, !Forall_fmap. split_and!.
    + eapply Forall_impl; [exact Fpub|]. intros c [Hm _]. by eapply Forall_impl.
    + eapply Forall_impl; [exact Fpriv|]. intros c [Hm _]. by eapply Forall_impl.
    + eapply Forall_impl; [exact Fgrp|]. intros c Hc. apply (Ff c Hc).
    + eapply Forall_impl; [exact Fdir|]. intros c Hc. apply (Ff c Hc).
  - rewrite Forall_app, !Forall_fmap. split.
    + eapply Forall_impl; [exact Fgrp|]. intros c Hc. apply (Ff c Hc).
    + eapply Forall_impl; [exact Fdir|]. intros c Hc. apply (Ff c Hc).
  - rewrite Forall_app. split.
    + eapply Forall_impl; [exact Fpub|]. intros c (_ & _ & Hu). exact Hu.
    + eapply Forall_impl; [exact Fpriv|]. intros c (_ & _ & Hu). exact Hu.
  - eexists. rewrite PL, L2, L1, <- !app_assoc. reflexivity.
Qed.

End TransformProps.

(** X21. A full [Transform] run with channels on: the final user map has a
    key for every Slack user id and no other key except possibly
    "importedworkflow"; every member of every channel is a key of it; the
    member usernames of every group and direct channel are, in member
    order, the usernames the final user map gives its members, while the
    public and private channels (big group channels among them) get no
    member usernames; and the log is only appended to. *)
Theorem X21_Transform
    (RuneCountInString : string -> nat) (runesPrefix : string -> nat -> string)
    (truncateRunes : string -> nat -> string) (isValidChannelNameCharacters : string -> bool)
    (ToLower : string -> string) (SlackConvertChannelName : string -> string -> string)
    (SplitChannelsByMemberSize : list SlackChannel -> nat -> list SlackChannel * list SlackChannel)
    (IsPlainMessage IsFileComment IsBotMessage IsJoinLeaveMessage IsMeMessage
     IsChannelTopicMessage IsChannelPurposeMessage IsChannelNameMessage : SlackPost -> bool)
    (SlackConvertTimeStamp : string -> Z) (propsRuneCount : list SlackAttachment -> nat)
    (copyAttachment : SlackFile -> option string) (newId : string)
    (sortPosts : list SlackPost -> list SlackPost) (remote : gmap string PostJSON)
    (sortPosts_perm : forall l, sortPosts l ≡ₚ l)
    (cfg : TransformConfig) (se : SlackExport) (inter : Intermediate) (h : Heap) (lg : list LogLine)
    (Hchannels : cfg_SkipChannels cfg = false) :
  let '(inter', h', lg') := Transform RuneCountInString runesPrefix truncateRunes isValidChannelNameCharacters
      ToLower SlackConvertChannelName SplitChannelsByMemberSize IsPlainMessage IsFileComment IsBotMessage
      IsJoinLeaveMessage IsMeMessage IsChannelTopicMessage IsChannelPurposeMessage IsChannelNameMessage
      SlackConvertTimeStamp propsRuneCount copyAttachment newId sortPosts remote cfg se inter h lg in
  list_to_set (su_Id <$> se_Users se) ⊆ dom (in_UsersById inter') /\
  dom (in_UsersById inter') ⊆ list_to_set (su_Id <$> se_Users se) ∪ {["importedworkflow"]} /\
  Forall (fun c => Forall (fun m => is_Some (in_UsersById inter' !! m)) (ic_Members c))
    (in_PublicChannels inter' ++ in_PrivateChannels inter' ++ in_GroupChannels inter' ++ in_DirectChannels inter') /\
  Forall (fun c => Forall2 (fun m u => iu_Username <$> in_UsersById inter' !! m = Some u)
                     (ic_Members c) (ic_MembersUsernames c))
    (in_GroupChannels inter' ++ in_DirectChannels inter') /\
  Forall (fun c => ic_MembersUsernames c = []) (in_PublicChannels inter' ++ in_PrivateChannels inter') /\
  (exists ext, lg' = lg ++ ext).
Proof. by apply Transform_spec. Qed.

(** X21 witness: the export of [x21Export] run with [c8Config], whose
    channels are on, gives a user map keyed by "U1" at least. *)
Lemma X21_witness :
  (forall l : list SlackPost, (fun l => l) l ≡ₚ l) /\ cfg_SkipChannels c8Config = false /\
  match Transform asciiRuneCount asciiRunesPrefix c10Truncate c10Valid c10Lower c10Convert x21Split
     c8Plain c8Never c8Never c8Never c8Never c8Never c8Never c8Never c8Time c8Props c8Copy "" (fun l => l) ∅
     c8Config x21Export x10Inter (w_heap (ps_world c8State)) [] with
  | (inter', _, _) => list_to_set (su_Id <$> se_Users x21Export) ⊆ dom (in_UsersById inter')
  end.
Proof.
  assert (Hc : cfg_SkipChannels c8Config = false) by reflexivity.
  split; [intros l; apply Permutation_refl|]. split; [exact Hc|].
  pose proof (X21_Transform asciiRuneCount asciiRunesPrefix c10Truncate c10Valid c10Lower c10Convert x21Split
     c8Plain c8Never c8Never c8Never c8Never c8Never c8Never c8Never c8Time c8Props c8Copy "" (fun l => l) ∅
     (fun l => Permutation_refl l) c8Config x21Export x10Inter (w_heap (ps_world c8State)) [] Hc) as H.
  destruct (Transform _ _ _ _ _ _ _ _ _ _ _ _ _ _ _ _ _ _ _ _ _ _ _ _ _ _) as [[inter' h'] lg'].
  destruct H as (D & _). exact D.
Defined.
